(** * Fast-Forward indexes: the on-disk index and sequential coalescing

    A shallow embedding of [fast_forward/index/disk.py] (class
    [OnDiskIndex]) and of [fast_forward/util/__init__.py]
    ([create_coalesced_index]), with the properties of the specification
    stated and proved over it.

    The HDF5 container is modelled by its content: the [vectors] dataset,
    its [num_vectors] attribute and the two identifier groups [/ids/doc] and
    [/ids/psg].  Every method of the index opens the file, runs its body and
    closes the file again; the bodies are written in a small state and
    exception monad over the file content, the methods in the same monad
    over the world (the file system and the warning log). *)

From Stdlib Require Import ZArith List Lia Bool QArith Qabs Ascii String.
From stdpp Require Import gmap strings list.

Set Default Proof Using "Type".
Open Scope Z_scope.

(** ** Exceptions and the state-and-exception monad *)

Inductive exn : Type :=
| ValueError
| KeyError
| TypeError
| IndexError
| OSError
| AssertionError.

Inductive result (A : Type) : Type :=
| Ok (a : A)
| Raise (e : exn).
Arguments Ok {A} a.
Arguments Raise {A} e.

Definition is_ok {A} (r : result A) : bool :=
  match r with Ok _ => true | Raise _ => false end.

(** A computation over a state [S]: it returns the state it leaves behind
    together with a value or the exception it raised.  A raised exception
    keeps every mutation made before it, as in Python. *)
Definition M (S A : Type) : Type := S -> S * result A.

Definition ret {S A} (a : A) : M S A := fun s => (s, Ok a).
Definition raise {S A} (e : exn) : M S A := fun s => (s, Raise e).
Definition bind {S A B} (m : M S A) (k : A -> M S B) : M S B :=
  fun s => match m s with
           | (s', Ok a) => k a s'
           | (s', Raise e) => (s', Raise e)
           end.
Definition get {S} : M S S := fun s => (s, Ok s).
Definition put {S} (s : S) : M S unit := fun _ => (s, Ok tt).
Definition modify {S} (f : S -> S) : M S unit := fun s => (f s, Ok tt).

Declare Scope m_scope.
Delimit Scope m_scope with M.
Notation "x <- c1 ;; c2" := (bind c1 (fun x => c2))
  (at level 100, c1 at next level, right associativity) : m_scope.
Notation "c1 ;;; c2" := (bind c1 (fun _ => c2))
  (at level 100, right associativity) : m_scope.

(** ** HDF5 link paths *)

(** [f"/ids/doc/{id}"] names the object reached from the group [/ids/doc]
    along the components of [id] between slashes; HDF5 skips empty
    components (doubled or trailing slashes) and the component [.],
    which stands for the group it is met in. *)
Fixpoint split_slash (cur : string) (s : string) : list string :=
  match s with
  | EmptyString => [cur]
  | String c s' =>
      if Ascii.eqb c "/"%char then cur :: split_slash EmptyString s'
      else split_slash (cur +:+ String c EmptyString) s'
  end.

Definition nonempty_string (s : string) : bool :=
  match s with EmptyString => false | _ => true end.

(** The components that name a link. *)
Definition link_component (s : string) : bool :=
  nonempty_string s && negb (String.eqb s ".").

Definition h5_path (id : string) : list string :=
  List.filter link_component (split_slash EmptyString id).

(** Identifiers HDF5 resolves relative to the id group, component by
    component: not empty, no leading slash, no [.] component. *)
Definition h5_relative (id : string) : bool :=
  match id with
  | EmptyString => false
  | String c _ =>
      negb (Ascii.eqb c "/"%char)
      && forallb (fun p => negb (String.eqb p ".")) (split_slash EmptyString id)
      && negb (match h5_path id with [] => true | _ => false end)
  end.

(** An object below an id group: an intermediate group or a dataset. *)
Inductive node (P : Type) : Type :=
| Grp
| Dset (payload : P).
Arguments Grp {P}.
Arguments Dset {P} payload.

(** The proper, non-empty prefixes of a path: the groups on the way. *)
Definition ancestors (p : list string) : list (list string) :=
  List.map (fun k => take k p) (List.seq 1 (length p - 1)).

Section Namespace.
Context {P : Type}.

Definition is_dset (o : option (node P)) : bool :=
  match o with Some (Dset _) => true | _ => false end.

(** [name in group]: the path resolves to some object.  The empty path
    is the group itself, as for a name made of slashes only.  The empty
    name, for which h5py answers [False], and a name that starts with a
    slash, which it resolves from the root of the file, are not told
    apart from these here: the statements about lookups are on
    identifiers that are [h5_relative]. *)
Definition contains (ns : gmap (list string) (node P)) (p : list string) : bool :=
  match p with
  | [] => true
  | _ => match ns !! p with Some _ => true | None => false end
  end.

(** [group.keys()]: the names of the links of the group itself. *)
Definition keys (ns : gmap (list string) (node P)) : gset string :=
  list_to_set (omap (fun p => match p with [n] => Some n | _ => None end)
                    (elements (dom ns))).

Definition add_groups (ps : list (list string)) (ns : gmap (list string) (node P))
  : gmap (list string) (node P) :=
  List.fold_left (fun m a => match m !! a with
                             | None => <[a := Grp]> m
                             | Some _ => m
                             end) ps ns.

(** [require_dataset]: open the dataset at [p], creating it (with the
    groups on the way) when nothing is there; an object that is not a
    dataset, at [p] or on the way, is an error.  Returns the payload.
    A name that ends in a slash or in [.], for which h5py raises once it
    has made the groups on the way, is taken as the name without it. *)
Definition require_dataset (fresh : P) (p : list string)
    (g : option (gmap (list string) (node P)))
  : option (gmap (list string) (node P)) * result P :=
  match g, p with
  | Some ns, [] => (Some ns, Raise TypeError)
  | None, [] => (Some ∅, Raise ValueError)
  | _, _ =>
      let ns := default ∅ g in
      match ns !! p with
      | Some (Dset v) => (Some ns, Ok v)
      | Some Grp => (Some ns, Raise TypeError)
      | None =>
          if existsb (fun a => is_dset (ns !! a)) (ancestors p)
          then (Some ns, Raise (if is_dset (ns !! removelast p)
                                then TypeError else ValueError))
          else (Some (<[p := Dset fresh]> (add_groups (ancestors p) ns)), Ok fresh)
      end
  end.

(** [ds[()] = v] on the dataset at [p]. *)
Definition assign (p : list string) (v : P)
    (g : option (gmap (list string) (node P)))
  : option (gmap (list string) (node P)) :=
  Some (<[p := Dset v]> (default ∅ g)).

(** [group[path][()]]: the payload of the dataset at [p]. *)
Definition read_dset (ns : gmap (list string) (node P)) (p : list string) : result P :=
  match p with
  | [] => Raise TypeError
  | _ => match ns !! p with
         | Some (Dset v) => Ok v
         | Some Grp => Raise TypeError
         | None => Raise KeyError
         end
  end.
End Namespace.

(** ** The vector store and the identifier index (disk.py) *)

(** Modelled from the spec: the enumeration [Mode], which [disk.py]
    imports from [fast_forward.index] ("one of PASSAGE, FIRSTP, MAXP,
    AVEP"). *)
Inductive Mode : Type := PASSAGE | FIRSTP | MAXP | AVEP.

Definition mode_eqb (a b : Mode) : bool :=
  match a, b with
  | PASSAGE, PASSAGE | FIRSTP, FIRSTP | MAXP, MAXP | AVEP, AVEP => true
  | _, _ => false
  end.

(** [np.concatenate]: joins a non-empty list of arrays along the first
    axis and raises [ValueError] on an empty list. *)
Definition np_concatenate {A} (arrays : list (list A)) : result (list A) :=
  match arrays with
  | [] => Raise ValueError
  | _ => Ok (List.concat arrays)
  end.

Fixpoint increasing (l : list Z) : bool :=
  match l with
  | x :: ((y :: _) as l') => (x <? y) && increasing l'
  | _ => true
  end.

Section Store.
(** A row of the [vectors] dataset: [dim] scalars of the store's dtype.
    [fill] is the row HDF5 reads from a slot that was never written. *)
Context {V : Type} (fill : V).

(** The dataset [vectors]: its rows (as many as the first axis of its
    shape, the capacity), the second axis of its shape and its attribute
    [num_vectors]. *)
Record Dataset : Type := mkDataset {
  data : list V;
  width : Z;
  num_vectors : Z
}.

Record H5File : Type := mkFile {
  vectors : option Dataset;
  ids_doc : option (gmap (list string) (node (list Z)));
  ids_psg : option (gmap (list string) (node Z));
  ff_version : option string
}.

Definition empty_file : H5File :=
  {| vectors := None; ids_doc := None; ids_psg := None; ff_version := None |}.

Definition capacity (d : Dataset) : Z := Z.of_nat (length (data d)).

(** *** Operations on an open file *)

(** [fp["vectors"]] *)
Definition fp_vectors : M H5File Dataset :=
  fun fp => match vectors fp with
            | Some d => (fp, Ok d)
            | None => (fp, Raise KeyError)
            end.

Definition set_dataset (d : Dataset) (fp : H5File) : H5File :=
  {| vectors := Some d; ids_doc := ids_doc fp; ids_psg := ids_psg fp;
     ff_version := ff_version fp |}.

(** [Dataset.resize(new_size, axis=0)]: rows beyond the new size are
    dropped, new rows read as the fill value, the others are kept. *)
Definition resize_rows (new_size : Z) (rows : list V) : list V :=
  take (Z.to_nat new_size)
       (rows ++ replicate (Z.to_nat new_size - length rows)%nat fill).

(** [fp["vectors"].resize(new_size, axis=0)].  A negative size is
    refused.  HDF5 also refuses a size beyond what it can represent
    (2^63 rows); sizes are not bounded here. *)
Definition resize (new_size : Z) : M H5File unit :=
  (d <- fp_vectors ;;
   if new_size <? 0 then raise ValueError
   else modify (set_dataset {| data := resize_rows new_size (data d);
                               width := width d;
                               num_vectors := num_vectors d |}))%M.

(** [fp["vectors"][start : start + len(vecs)] = vecs].  The slice lies
    inside the dataset whenever [0 <= start], since [_add] has resized
    before; a slice of another length than [vecs] cannot be assigned. *)
Definition write_rows (start : Z) (vecs : list V) : M H5File unit :=
  (d <- fp_vectors ;;
   if (0 <=? start) && (start + Z.of_nat (length vecs) <=? capacity d) then
     modify (set_dataset
               {| data := take (Z.to_nat start) (data d) ++ vecs
                          ++ drop (Z.to_nat start + length vecs)%nat (data d);
                  width := width d;
                  num_vectors := num_vectors d |})
   else raise TypeError)%M.

Definition set_num_vectors (n : Z) : M H5File unit :=
  (d <- fp_vectors ;;
   modify (set_dataset {| data := data d; width := width d; num_vectors := n |}))%M.

Definition require_doc (p : list string) : M H5File (list Z) :=
  fun fp =>
    let '(g, r) := require_dataset [] p (ids_doc fp) in
    ({| vectors := vectors fp; ids_doc := g; ids_psg := ids_psg fp;
        ff_version := ff_version fp |}, r).

Definition assign_doc (p : list string) (v : list Z) : M H5File unit :=
  modify (fun fp => {| vectors := vectors fp; ids_doc := assign p v (ids_doc fp);
                       ids_psg := ids_psg fp; ff_version := ff_version fp |}).

Definition require_psg (p : list string) : M H5File Z :=
  fun fp =>
    let '(g, r) := require_dataset 0 p (ids_psg fp) in
    ({| vectors := vectors fp; ids_doc := ids_doc fp; ids_psg := g;
        ff_version := ff_version fp |}, r).

Definition assign_psg (p : list string) (v : Z) : M H5File unit :=
  modify (fun fp => {| vectors := vectors fp; ids_doc := ids_doc fp;
                       ids_psg := assign p v (ids_psg fp);
                       ff_version := ff_version fp |}).

(** The loop [for i, (doc_id, psg_id) in enumerate(zip(doc_ids, psg_ids))]
    of [_add], from index [i] on. *)
Fixpoint add_ids (cur_num_vectors : Z) (i : Z)
    (pairs : list (option string * option string)) : M H5File unit :=
  match pairs with
  | [] => ret tt
  | (doc_id, psg_id) :: rest =>
      (match doc_id with
       | Some d =>
           ds <- require_doc (h5_path d) ;;
           assign_doc (h5_path d) (ds ++ [cur_num_vectors + i])
       | None => ret tt
       end ;;;
       match psg_id with
       | Some p =>
           _ <- require_psg (h5_path p) ;;
           assign_psg (h5_path p) (cur_num_vectors + i)
       | None => ret tt
       end ;;;
       add_ids cur_num_vectors (i + 1) rest)%M
  end.

(** The body of [OnDiskIndex._add], on the open file. *)
Definition _add_fp (resize_min_val : Z) (vecs : list V)
    (doc_ids psg_ids : list (option string)) : M H5File unit :=
  (let num_new_vecs := Z.of_nat (length vecs) in
   d <- fp_vectors ;;
   let capacity := capacity d in
   let cur_num_vectors := num_vectors d in
   let space_left := capacity - cur_num_vectors in
   (if num_new_vecs >? space_left then
      let new_size := Z.max (capacity + num_new_vecs - space_left) resize_min_val in
      resize new_size
    else ret tt) ;;;
   write_rows cur_num_vectors vecs ;;;
   d' <- fp_vectors ;;
   set_num_vectors (num_vectors d' + num_new_vecs) ;;;
   add_ids cur_num_vectors 0 (zip doc_ids psg_ids))%M.

(** The part of [_add] before the id loop (lines 82 to 97): resize if
    needed, write the vectors, count them.  It returns
    [cur_num_vectors], which the id loop starts from. *)
Definition _add_vectors_fp (resize_min_val : Z) (vecs : list V) : M H5File Z :=
  (let num_new_vecs := Z.of_nat (length vecs) in
   d <- fp_vectors ;;
   let capacity := capacity d in
   let cur_num_vectors := num_vectors d in
   let space_left := capacity - cur_num_vectors in
   (if num_new_vecs >? space_left then
      let new_size := Z.max (capacity + num_new_vecs - space_left) resize_min_val in
      resize new_size
    else ret tt) ;;;
   write_rows cur_num_vectors vecs ;;;
   d' <- fp_vectors ;;
   set_num_vectors (num_vectors d' + num_new_vecs) ;;;
   ret cur_num_vectors)%M.

(** [fp["vectors"][idxs]] with the offsets of an identifier.  For
    increasing offsets inside the dataset, which is what a store that
    keeps its invariant holds, these are the rows at the offsets.  Any
    other selection is taken to raise: h5py does so for a list of
    offsets, though not for every array of them, and with another
    exception past the end of the dataset.  The statements about lookups
    are on stores that keep the invariant. *)
Definition read_rows (d : Dataset) (idxs : list Z) : result (list V) :=
  if negb (increasing idxs) then Raise TypeError
  else if forallb (fun k => (0 <=? k) && (k <? capacity d)) idxs
       then Ok (List.map (fun k => nth (Z.to_nat k) (data d) fill) idxs)
       else Raise IndexError.

Definition lift {S A} (r : result A) : M S A := fun s => (s, r).

(** [LOGGER.warning(msg)] *)
Definition warning (msg : string) : M (list string) unit :=
  modify (fun l => l ++ [msg]).

(** [id in fp["/ids/doc"]]: opening a group that does not exist raises
    [KeyError]. *)
Definition id_in {P} (g : option (gmap (list string) (node P))) (id : string)
  : result bool :=
  match g with
  | None => Raise KeyError
  | Some ns => Ok (contains ns (h5_path id))
  end.

Definition open_group {P} (g : option (gmap (list string) (node P)))
  : result (gmap (list string) (node P)) :=
  match g with
  | None => Raise KeyError
  | Some ns => Ok ns
  end.

(** The [if]/[elif] chain of [_get_vectors] for one id: the offsets to
    read.  [and] evaluates its right operand only when the left one
    holds. *)
Definition id_idxs (mode : Mode) (fp : H5File) (id : string)
  : M (list string) (list Z) :=
  (b1 <- (if mode_eqb mode MAXP || mode_eqb mode AVEP
          then lift (id_in (ids_doc fp) id) else ret false) ;;
   if (b1 : bool) then
     g <- lift (open_group (ids_doc fp)) ;; lift (read_dset g (h5_path id))
   else
     b2 <- (if mode_eqb mode FIRSTP
            then lift (id_in (ids_doc fp) id) else ret false) ;;
     if (b2 : bool) then
       g <- lift (open_group (ids_doc fp)) ;;
       l <- lift (read_dset g (h5_path id)) ;;
       match l with
       | [] => raise IndexError
       | k :: _ => ret [k]
       end
     else
       b3 <- (if mode_eqb mode PASSAGE
              then lift (id_in (ids_psg fp) id) else ret false) ;;
       if (b3 : bool) then
         g <- lift (open_group (ids_psg fp)) ;;
         k <- lift (read_dset g (h5_path id)) ;;
         ret [k]
       else
         warning ("no vectors for " +:+ id) ;;;
         ret [])%M.

(** The loop of [_get_vectors] with its three variables. *)
Fixpoint get_loop (mode : Mode) (fp : H5File) (ids : list string)
    (result_vectors : list (list V)) (id_idxs_acc : list (list nat)) (c : nat)
  : M (list string) (list (list V) * list (list nat)) :=
  match ids with
  | [] => ret (result_vectors, id_idxs_acc)
  | id :: rest =>
      (idxs <- id_idxs mode fp id ;;
       d <- lift (match vectors fp with
                  | Some d => Ok d | None => Raise KeyError end) ;;
       rows <- lift (read_rows d idxs) ;;
       get_loop mode fp rest (result_vectors ++ [rows])
                (id_idxs_acc ++ [List.seq c (length idxs)])
                (c + length idxs)%nat)%M
  end.

(** The body of [OnDiskIndex._get_vectors], on the open file. *)
Definition _get_vectors_fp (mode : Mode) (ids : list string) (fp : H5File)
  : M (list string) (list V * list (list nat)) :=
  (r <- get_loop mode fp ids [] [] 0%nat ;;
   vs <- lift (np_concatenate (fst r)) ;;
   ret (vs, snd r))%M.

Definition _get_doc_ids_fp (fp : H5File) : gset string :=
  match ids_doc fp with
  | None => ∅
  | Some ns => keys ns
  end.

Definition _get_psg_ids_fp (fp : H5File) : gset string :=
  match ids_psg fp with
  | None => ∅
  | Some ns => keys ns
  end.
End Store.

(** ** The index object and its methods *)

Section OnDiskIndex.
Context {V : Type} (fill : V).
(** [fast_forward.__version__], a constant of the package. *)
Context (version : string).

(** The world: the files by absolute path, and what was logged as a
    warning. *)
Record World : Type := mkWorld {
  fs : gmap string (@H5File V);
  log : list string
}.

(** The attributes of an [OnDiskIndex] object the methods read (the query
    encoder and its batch size play no part in them). *)
Record OnDiskIndex : Type := mkIndex {
  _index_file : string;
  _resize_min_val : Z;
  mode : Mode
}.

(** [with h5py.File(path, "r") as fp]: the file must exist; the body may
    log. *)
Definition with_file_r {A} (path : string)
    (body : @H5File V -> M (list string) A) : M World A :=
  fun w => match fs w !! path with
           | None => (w, Raise OSError)
           | Some fp => let '(l, r) := body fp (log w) in
                        ({| fs := fs w; log := l |}, r)
           end.

(** [with h5py.File(path, "a") as fp]: read and write, created empty when
    it does not exist. *)
Definition with_file_a {A} (path : string) (body : M (@H5File V) A) : M World A :=
  fun w => let '(fp', r) := body (default empty_file (fs w !! path)) in
           ({| fs := <[path := fp']> (fs w); log := log w |}, r).

(** [with h5py.File(path, "w") as fp]: created, or truncated. *)
Definition with_file_w {A} (path : string) (body : M (@H5File V) A) : M World A :=
  fun w => let '(fp', r) := body empty_file in
           ({| fs := <[path := fp']> (fs w); log := log w |}, r).

(** [fp.create_dataset("vectors", (init_size, dim), ...)] followed by the
    two attributes. *)
Definition create_store (init_size dim : Z) : M (@H5File V) unit :=
  (if (init_size <? 0) || (dim <? 0) then raise ValueError
   else
     modify (set_dataset {| data := replicate (Z.to_nat init_size) fill;
                            width := dim; num_vectors := 0 |}) ;;;
     modify (fun fp => {| vectors := vectors fp; ids_doc := ids_doc fp;
                          ids_psg := ids_psg fp;
                          ff_version := Some version |}))%M.

(** [OnDiskIndex.__init__] *)
Definition __init__ (index_file : string) (dim : Z) (mode : Mode)
    (init_size resize_min_val : Z) (overwrite : bool) : M World OnDiskIndex :=
  (w <- get ;;
   if bool_decide (is_Some (fs w !! index_file)) && negb overwrite
   then raise ValueError
   else
     let self := {| _index_file := index_file;
                    _resize_min_val := resize_min_val;
                    mode := mode |} in
     with_file_w index_file (create_store init_size dim) ;;;
     ret self)%M.

(** [OnDiskIndex.__len__] *)
Definition __len__ (self : OnDiskIndex) : M World Z :=
  with_file_r (_index_file self)
    (fun fp => d <- lift (match vectors fp with
                          | Some d => Ok d | None => Raise KeyError end) ;;
               ret (num_vectors d))%M.

(** [OnDiskIndex.dim] *)
Definition dim (self : OnDiskIndex) : M World Z :=
  with_file_r (_index_file self)
    (fun fp => d <- lift (match vectors fp with
                          | Some d => Ok d | None => Raise KeyError end) ;;
               ret (width d))%M.

(** [OnDiskIndex._add] *)
Definition _add (self : OnDiskIndex) (vecs : list V)
    (doc_ids psg_ids : list (option string)) : M World unit :=
  with_file_a (_index_file self)
    (_add_fp fill (_resize_min_val self) vecs doc_ids psg_ids).

(** [OnDiskIndex._get_doc_ids] and [OnDiskIndex._get_psg_ids] *)
Definition _get_doc_ids (self : OnDiskIndex) : M World (gset string) :=
  with_file_r (_index_file self) (fun fp => ret (_get_doc_ids_fp fp)).

Definition _get_psg_ids (self : OnDiskIndex) : M World (gset string) :=
  with_file_r (_index_file self) (fun fp => ret (_get_psg_ids_fp fp)).

(** [OnDiskIndex._get_vectors] *)
Definition _get_vectors (self : OnDiskIndex) (ids : list string)
  : M World (list V * list (list nat)) :=
  with_file_r (_index_file self) (_get_vectors_fp fill (mode self) ids).

(** [OnDiskIndex.load]: the object is built without looking at the
    file. *)
Definition load (index_file : string) (mode : Mode) (resize_min_val : Z)
  : M World OnDiskIndex :=
  ret {| _index_file := index_file;
         _resize_min_val := resize_min_val;
         mode := mode |}.
End OnDiskIndex.

Arguments mkWorld {V} fs log.
Arguments World V : clear implicits.

(** ** Sequential coalescing (util/__init__.py) *)

Section Coalescing.
(** Vectors, and the results of the distance function.  [np_mean] is
    [np.mean(A, axis=0)], [ge] the comparison [>=] of two distances and
    [np_empty] the array [np.empty(())] the loop starts from. *)
Context {V D : Type}.
Context (np_mean : list V -> V) (np_empty : V).
Context (distance_function : V -> V -> D) (ge : D -> D -> bool) (delta : D).

(** The loop [for v in P] of [_coalesce], with its four variables. *)
Fixpoint coalesce_loop (P : list V) (P_new A : list V) (A_avg : V)
    (first_iteration : bool) : list V :=
  match P with
  | [] => P_new ++ [A_avg]
  | v :: P' =>
      let '(P_new, A) :=
        if first_iteration then (P_new, A)
        else if ge (distance_function v A_avg) delta
             then (P_new ++ [A_avg], [])
             else (P_new, A) in
      let A := A ++ [v] in
      let A_avg := np_mean A in
      coalesce_loop P' P_new A A_avg false
  end.

(** [create_coalesced_index._coalesce] *)
Definition _coalesce (P : list V) : list V :=
  coalesce_loop P [] [] np_empty true.

(** *** The index interface

    [create_coalesced_index] works on any two [Index] objects.  What it
    uses of the base class (module [fast_forward.index]) is taken as a
    parameter: the property [doc_ids] (a read), and the methods
    [_get_vectors] and [add], over some state [W] of the world.
    [set_iter] is the order in which Python enumerates a set. *)
Context {I W : Type}.
Context (doc_ids : I -> W -> result (gset string)).
Context (get_vectors : I -> list string -> M W (list V * list (list nat))).
Context (add : I -> list V -> list string -> M W unit).
Context (set_iter : gset string -> list string).

Definition read {A} (f : W -> result A) : M W A := fun w => (w, f w).

Definition assert (b : bool) : M W unit :=
  if b then ret tt else raise AssertionError.

(** [batch_size or len(source_index.doc_ids)]: the right operand is
    evaluated, and taken, when [batch_size] is [None] or [0]. *)
Definition effective_batch_size (source_index : I) (batch_size : option Z)
  : M W Z :=
  match batch_size with
  | Some b => if b =? 0
              then (s <- read (doc_ids source_index) ;; ret (Z.of_nat (size s)))%M
              else ret b
  | None => (s <- read (doc_ids source_index) ;; ret (Z.of_nat (size s)))%M
  end.

(** The loop [for doc_id in tqdm(source_index.doc_ids)], with the two
    lists [vectors] and [doc_ids] it carries. *)
Fixpoint coalesce_docs (source_index target_index : I) (batch_size : Z)
    (ids : list string) (vectors : list V) (doc_ids_acc : list string)
  : M W (list V * list string) :=
  match ids with
  | [] => ret (vectors, doc_ids_acc)
  | doc_id :: rest =>
      (acc <- (if Z.of_nat (length vectors) =? batch_size
               then add target_index vectors doc_ids_acc ;;; ret ([], [])
               else ret (vectors, doc_ids_acc)) ;;
       r <- get_vectors source_index [doc_id] ;;
       let v_old := fst r in
       let v_new := _coalesce v_old in
       coalesce_docs source_index target_index batch_size rest
                     (fst acc ++ v_new)
                     (snd acc ++ replicate (length v_new) doc_id))%M
  end.

(** Everything up to the last flush. *)
Definition coalesce_all (source_index target_index : I)
    (batch_size : option Z) : M W unit :=
  (t <- read (doc_ids target_index) ;;
   assert (bool_decide (size t = 0%nat)) ;;;
   batch_size <- effective_batch_size source_index batch_size ;;
   s <- read (doc_ids source_index) ;;
   acc <- coalesce_docs source_index target_index batch_size (set_iter s) [] [] ;;
   if (0 <? length (fst acc))%nat
   then add target_index (fst acc) (snd acc)
   else ret tt)%M.

(** [create_coalesced_index] *)
Definition create_coalesced_index (source_index target_index : I)
    (batch_size : option Z) : M W unit :=
  (coalesce_all source_index target_index batch_size ;;;
   s <- read (doc_ids source_index) ;;
   t <- read (doc_ids target_index) ;;
   assert (bool_decide (s = t)))%M.
End Coalescing.

(** ** Definitions used in the statements *)

Section StoreSpec.
Context {V : Type} (fill : V).

(** The rows of the dataset after the resize step of [_add]. *)
Definition grown (resize_min_val : Z) (n : nat) (d : @Dataset V) : list V :=
  if Z.of_nat n >? capacity d - num_vectors d
  then resize_rows fill
         (Z.max (capacity d + Z.of_nat n - (capacity d - num_vectors d))
                resize_min_val) (data d)
  else data d.

(** The dataset after the vectors of a batch have been written and
    counted. *)
Definition appended (resize_min_val : Z) (vecs : list V) (d : @Dataset V)
  : @Dataset V :=
  let rows := grown resize_min_val (length vecs) d in
  {| data := take (Z.to_nat (num_vectors d)) rows ++ vecs
             ++ drop (Z.to_nat (num_vectors d) + length vecs)%nat rows;
     width := width d;
     num_vectors := num_vectors d + Z.of_nat (length vecs) |}.

(** The invariant of the store: [count] occupied slots out of
    [capacity]. *)
Definition count_ok (d : @Dataset V) : Prop :=
  0 <= num_vectors d <= capacity d.

(** Offsets recorded for a document: at least one, increasing, all of
    them offsets below [b]. *)
Definition offsets_ok (b : Z) (l : list Z) : bool :=
  match l with [] => false | _ => true end
  && increasing l
  && forallb (fun k => (0 <=? k) && (k <? b)) l.

Definition doc_node_ok (b : Z) (n : node (list Z)) : bool :=
  match n with Grp => true | Dset l => offsets_ok b l end.

Definition psg_node_ok (b : Z) (n : node Z) : bool :=
  match n with Grp => true | Dset k => (0 <=? k) && (k <? b) end.

(** Every identifier recorded in the file points below [b]. *)
Definition ids_ok (b : Z) (fp : @H5File V) : Prop :=
  from_option (map_Forall (fun _ n => doc_node_ok b n = true)) True (ids_doc fp)
  /\ from_option (map_Forall (fun _ n => psg_node_ok b n = true)) True (ids_psg fp).

(** The invariant of an index file: the dataset is there, its count is
    within its capacity, and the identifiers point at occupied slots. *)
Definition store_ok (fp : @H5File V) : Prop :=
  match vectors fp with
  | Some d => count_ok d /\ ids_ok (num_vectors d) fp
  | None => False
  end.

#[export] Instance store_ok_dec (fp : @H5File V) : Decision (store_ok fp).
Proof.
  unfold store_ok, ids_ok, count_ok.
  destruct (vectors fp), (ids_doc fp), (ids_psg fp); cbn [from_option]; apply _.
Defined.

(** The [vectors] dataset of the file of an index, if there is one. *)
Definition dataset_of (w : World V) (self : OnDiskIndex) : option (@Dataset V) :=
  fs w !! _index_file self ≫= vectors.

(** A batch handed to [_add]: vectors, doc ids, passage ids. *)
Definition batch : Type :=
  list V * list (option string) * list (option string).

(** [_add] called on every batch in turn, whatever the earlier calls
    returned; the results are kept in call order. *)
Fixpoint add_batches (self : OnDiskIndex) (bs : list batch) (w : World V)
  : World V * list (result unit) :=
  match bs with
  | [] => (w, [])
  | (vecs, doc_ids, psg_ids) :: rest =>
      let '(w1, r) := _add fill self vecs doc_ids psg_ids w in
      let '(w2, rs) := add_batches self rest w1 in
      (w2, r :: rs)
  end.

Definition batch_vectors (b : batch) : list V := fst (fst b).

(** The number of vectors in a list of batches: the sum of the batch
    sizes. *)
Definition total_size (bs : list batch) : nat :=
  sum_list_with (fun b => length (batch_vectors b)) bs.

(** The id group a mode looks identifiers up in exists in the file. *)
Definition group_present (mode : Mode) (fp : @H5File V) : bool :=
  match mode with
  | PASSAGE => match ids_psg fp with Some _ => true | None => false end
  | _ => match ids_doc fp with Some _ => true | None => false end
  end.

(** What is stored under an identifier in either id group. *)
Definition doc_lookup (fp : @H5File V) (id : string) : option (node (list Z)) :=
  ids_doc fp ≫= (fun ns => ns !! h5_path id).
Definition psg_lookup (fp : @H5File V) (id : string) : option (node Z) :=
  ids_psg fp ≫= (fun ns => ns !! h5_path id).

(** The resolution table of the specification: the offsets of an
    identifier under a mode; none when it is not there. *)
Definition resolve (mode : Mode) (fp : @H5File V) (id : string) : list Z :=
  match mode with
  | PASSAGE => match psg_lookup fp id with Some (Dset k) => [k] | _ => [] end
  | FIRSTP => match doc_lookup fp id with Some (Dset l) => take 1 l | _ => [] end
  | MAXP | AVEP => match doc_lookup fp id with Some (Dset l) => l | _ => [] end
  end.

(** The identifier is not present under the index of the mode. *)
Definition unresolved (mode : Mode) (fp : @H5File V) (id : string) : bool :=
  match mode with
  | PASSAGE => match psg_lookup fp id with None => true | _ => false end
  | _ => match doc_lookup fp id with None => true | _ => false end
  end.

(** The identifier can be looked up: it is a relative link path, it does
    not name an intermediate group, and what is stored for it is a
    selection h5py accepts (increasing offsets inside the dataset, at
    least one of them for [FIRSTP]). *)
Definition readable (mode : Mode) (fp : @H5File V) (d : @Dataset V) (id : string)
  : bool :=
  h5_relative id
  && match mode with
     | PASSAGE => match psg_lookup fp id with Some Grp => false | _ => true end
     | FIRSTP => match doc_lookup fp id with
                 | Some Grp | Some (Dset []) => false
                 | _ => true
                 end
     | _ => match doc_lookup fp id with Some Grp => false | _ => true end
     end
  && increasing (resolve mode fp id)
  && forallb (fun k => (0 <=? k) && (k <? capacity d)) (resolve mode fp id).

(** The identifier can be looked up in the id group of the mode: it is a
    relative link path and does not name an intermediate group. *)
Definition lookable (mode : Mode) (fp : @H5File V) (id : string) : bool :=
  h5_relative id
  && match mode with
     | PASSAGE => match psg_lookup fp id with Some Grp => false | _ => true end
     | _ => match doc_lookup fp id with Some Grp => false | _ => true end
     end.

(** The vectors stored at a list of offsets. *)
Definition rows_at (d : @Dataset V) (idxs : list Z) : list V :=
  List.map (fun k => nth (Z.to_nat k) (data d) fill) idxs.

(** Consecutive ranges of the given lengths, from position [c] on. *)
Fixpoint group_ranges (c : nat) (lens : list nat) : list (list nat) :=
  match lens with
  | [] => []
  | n :: rest => List.seq c n :: group_ranges (c + n) rest
  end.

(** The specification's reading of a failed append: nothing of it can
    be observed afterwards. *)
Definition append_is_atomic (self : OnDiskIndex) (w : World V) (vecs : list V)
    (doc_ids psg_ids : list (option string)) : Prop :=
  forall e,
    snd (_add fill self vecs doc_ids psg_ids w) = Raise e ->
    let w' := fst (_add fill self vecs doc_ids psg_ids w) in
    snd (__len__ self w') = snd (__len__ self w)
    /\ snd (_get_doc_ids self w') = snd (_get_doc_ids self w)
    /\ snd (_get_psg_ids self w') = snd (_get_psg_ids self w).

(** The specification's reading of [open]: a missing file, or one whose
    layout or version tag is not the expected one, is refused. *)
Definition load_refuses_missing (index_file : string) (mode : Mode) (r : Z)
    (w : World V) : Prop :=
  fs w !! index_file = None ->
  exists e, snd (load index_file mode r w) = Raise e.

Definition load_refuses_unknown_layout (index_file : string) (mode : Mode) (r : Z)
    (w : World V) : Prop :=
  forall fp, fs w !! index_file = Some fp ->
             vectors fp = None \/ ff_version fp = None ->
             exists e, snd (load index_file mode r w) = Raise e.

(** The warnings a lookup of [ids] logs: one per unresolved id. *)
Definition warnings (mode : Mode) (fp : @H5File V) (ids : list string)
  : list string :=
  List.map (fun id => "no vectors for " +:+ id)
           (List.filter (unresolved mode fp) ids).

(** The specification's reading of [get_vectors], for every list of
    identifiers. *)
Definition lookup_as_specified (self : OnDiskIndex) (w : World V)
    (fp : @H5File V) (d : @Dataset V) (ids : list string) : Prop :=
  snd (_get_vectors fill self ids w)
  = Ok (concat (List.map (fun id => rows_at d (resolve (mode self) fp id)) ids),
        group_ranges 0 (List.map (fun id => length (resolve (mode self) fp id)) ids)).
End StoreSpec.

(** ** The identifier index, as its users see it *)

Section IdsSpec.
Context {V : Type}.

(** The payload of a dataset; nothing for a group or for no object. *)
Definition dset_payload {P} (o : option (node P)) : option P :=
  match o with Some (Dset v) => Some v | _ => None end.

(** The offsets recorded for the document at link path [p], in stored
    order; none when there is no dataset at [p]. *)
Definition doc_offsets (fp : @H5File V) (p : list string) : list Z :=
  default [] (dset_payload (ids_doc fp ≫= (fun ns => ns !! p))).

(** The offset recorded for the passage at link path [p], if any. *)
Definition psg_offset (fp : @H5File V) (p : list string) : option Z :=
  dset_payload (ids_psg fp ≫= (fun ns => ns !! p)).

(** The offsets the id loop of [_add] gives to the document at [p]: one
    for every pair whose doc id names [p], in pair order. *)
Fixpoint new_doc_offsets (cur i : Z) (pairs : list (option string * option string))
    (p : list string) : list Z :=
  match pairs with
  | [] => []
  | (doc_id, _) :: rest =>
      match doc_id with
      | Some s => if bool_decide (h5_path s = p) then [cur + i] else []
      | None => []
      end ++ new_doc_offsets cur (i + 1) rest p
  end.

(** The offset of the last pair whose passage id names [p]. *)
Fixpoint last_psg_offset (cur i : Z) (pairs : list (option string * option string))
    (p : list string) : option Z :=
  match pairs with
  | [] => None
  | (_, psg_id) :: rest =>
      match last_psg_offset cur (i + 1) rest p with
      | Some k => Some k
      | None => match psg_id with
                | Some s => if bool_decide (h5_path s = p) then Some (cur + i) else None
                | None => None
                end
      end
  end.

(** The vectors of a batch whose doc id names [p], in batch order. *)
Fixpoint batch_rows_for (vecs : list V) (pairs : list (option string * option string))
    (p : list string) : list V :=
  match vecs, pairs with
  | v :: vecs', (doc_id, _) :: rest =>
      match doc_id with
      | Some s => if bool_decide (h5_path s = p) then [v] else []
      | None => []
      end ++ batch_rows_for vecs' rest p
  | _, _ => []
  end.

(** The vector of a batch that comes last with a passage id naming [p]. *)
Fixpoint last_row_for (vecs : list V) (pairs : list (option string * option string))
    (p : list string) : option V :=
  match vecs, pairs with
  | v :: vecs', (_, psg_id) :: rest =>
      match last_row_for vecs' rest p with
      | Some v' => Some v'
      | None => match psg_id with
                | Some s => if bool_decide (h5_path s = p) then Some v else None
                | None => None
                end
      end
  | _, _ => None
  end.

(** The file of an index, if it exists. *)
Definition file_at (w : World V) (self : OnDiskIndex) : option (@H5File V) :=
  fs w !! _index_file self.
End IdsSpec.

Section CoalescingSpec.
Context {V D : Type}.
Context (np_mean : list V -> V) (np_empty : V).
Context (distance_function : V -> V -> D) (ge : D -> D -> bool) (delta : D).

(** The clusters of the specification, in one pass from left to right:
    [cur] is the cluster being built.  A vector at distance [>= delta]
    from the mean of [cur] closes it and starts a cluster of its own;
    any other vector joins [cur]. *)
Fixpoint clusters_from (cur : list V) (rest : list V) : list (list V) :=
  match rest with
  | [] => [cur]
  | v :: rest' =>
      if ge (distance_function v (np_mean cur)) delta
      then cur :: clusters_from [v] rest'
      else clusters_from (cur ++ [v]) rest'
  end.

Definition clusters (P : list V) : list (list V) :=
  match P with
  | [] => []
  | v :: P' => clusters_from [v] P'
  end.

(** The two ends of the threshold, read along the vectors of a document.
    Every vector is at distance [>= delta] from the mean of the vector
    before it alone ... *)
Fixpoint each_far_from_previous (prev : V) (rest : list V) : bool :=
  match rest with
  | [] => true
  | v :: rest' =>
      ge (distance_function v (np_mean [prev])) delta
      && each_far_from_previous v rest'
  end.

(** ... and every vector is at distance below [delta] from the mean of
    all the vectors before it, [cur] being the ones already seen. *)
Fixpoint all_near_running_mean (cur rest : list V) : bool :=
  match rest with
  | [] => true
  | v :: rest' =>
      negb (ge (distance_function v (np_mean cur)) delta)
      && all_near_running_mean (cur ++ [v]) rest'
  end.

(** *** Recording what a run does

    To speak about when the target is written, the interface is wrapped:
    the wrapped [add] and [_get_vectors] behave as the given ones and
    note each call in a trace carried next to the world. *)
Inductive event : Type :=
| Flush (vectors : list V) (doc_ids : list string)
| Fetch (ids : list string) (v_old : list V).

Context {I W : Type}.
Context (doc_ids : I -> W -> result (gset string)).
Context (get_vectors : I -> list string -> M W (list V * list (list nat))).
Context (add : I -> list V -> list string -> M W unit).

Definition rec_doc_ids (i : I) (s : W * list event) : result (gset string) :=
  doc_ids i (fst s).

Definition rec_get_vectors (i : I) (ids : list string)
  : M (W * list event) (list V * list (list nat)) :=
  fun s => let '(w', r) := get_vectors i ids (fst s) in
           ((w', snd s ++ match r with
                          | Ok x => [Fetch ids (fst x)]
                          | Raise _ => []
                          end), r).

Definition rec_add (i : I) (vectors : list V) (ids : list string)
  : M (W * list event) unit :=
  fun s => let '(w', r) := add i vectors ids (fst s) in
           ((w', snd s ++ [Flush vectors ids]), r).

(** A computation on the recording interface does what the plain one
    does: same world afterwards, same result. *)
Definition erases {A} (m' : M (W * list event) A) (m : M W A) : Prop :=
  forall s, fst (fst (m' s)) = fst (m (fst s)) /\ snd (m' s) = snd (m (fst s)).

(** The batches written to the target, in order. *)
Definition flushes (tr : list event) : list (list V * list string) :=
  omap (fun e => match e with
                 | Flush v d => Some (v, d)
                 | Fetch _ _ => None
                 end) tr.

(** The vectors and doc ids coalescing has produced, in order. *)
Definition emitted (tr : list event) : list (list V * list string) :=
  omap (fun e => match e with
                 | Fetch ids v_old =>
                     let v_new := _coalesce np_mean np_empty distance_function
                                            ge delta v_old in
                     Some (v_new, concat (List.map (replicate (length v_new)) ids))
                 | Flush _ _ => None
                 end) tr.

Definition fetched (tr : list event) : list string :=
  concat (omap (fun e => match e with
                         | Fetch ids _ => Some ids
                         | Flush _ _ => None
                         end) tr).

(** The flush discipline of the loop, checked along a trace that starts
    with [pend] vectors pending: a flush writes all that is pending, and
    not before [batch_size] vectors are pending; no document is fetched
    while exactly [batch_size] vectors are pending.  The result is the
    number of vectors pending at the end of the trace. *)
Fixpoint loop_discipline (batch_size : Z) (pend : nat) (tr : list event)
  : option nat :=
  match tr with
  | [] => Some pend
  | Flush v _ :: tr' =>
      if (length v =? pend)%nat && (batch_size <=? Z.of_nat pend)
      then loop_discipline batch_size 0 tr'
      else None
  | Fetch _ v_old :: tr' =>
      if Z.of_nat pend =? batch_size then None
      else loop_discipline batch_size
             (pend + length (_coalesce np_mean np_empty distance_function
                                       ge delta v_old)) tr'
  end.

(** The specification's reading of the flushes: no document is taken up
    once [batch_size] vectors or more are pending ... *)
Fixpoint flushed_as_soon_as_full (batch_size : Z) (pend : nat) (tr : list event)
  : bool :=
  match tr with
  | [] => true
  | Flush v _ :: tr' => flushed_as_soon_as_full batch_size (pend - length v) tr'
  | Fetch _ v_old :: tr' =>
      (Z.of_nat pend <? batch_size)
      && flushed_as_soon_as_full batch_size
           (pend + length (_coalesce np_mean np_empty distance_function
                                     ge delta v_old)) tr'
  end.

(** ... and without a batch size everything is written by one flush at
    the end. *)
Definition one_flush_at_the_end (tr : list event) : Prop :=
  exists ev v d, tr = ev ++ [Flush v d] /\ flushes ev = [].

(** The batch size in force: the one given, or the number of documents
    of the source when none (or [0]) is given. *)
Definition batch_size_in_force (batch_size : option Z) (s : gset string) : Z :=
  match batch_size with
  | Some b => if b =? 0 then Z.of_nat (size s) else b
  | None => Z.of_nat (size s)
  end.
End CoalescingSpec.

(** ** Coalescing between two on-disk indexes *)

Section OnDiskCoalescing.
Context {V : Type} (fill : V).

(** Modelled from the spec: the property [doc_ids] and the method [add]
    of the base class [Index] (module [fast_forward.index], not embedded
    here).  [doc_ids] is "the set of document ids" ([_get_doc_ids] here), and
    [add(vectors, doc_ids=...)] appends the vectors with their doc ids and
    no passage id ([_add] here). *)
Definition ondisk_doc_ids (self : OnDiskIndex) (w : World V) : result (gset string) :=
  snd (_get_doc_ids self w).

Definition ondisk_add (self : OnDiskIndex) (vecs : list V) (ids : list string)
  : M (World V) unit :=
  _add fill self vecs (List.map Some ids) (replicate (length vecs) None).
End OnDiskCoalescing.

(** ** What a coalesced store holds *)

(** An identifier that is one link name of its id group: HDF5 resolves
    it relative to the group, and it has no slash in it.  The keys of a
    group are such names. *)
Definition plain_id (id : string) : bool :=
  h5_relative id && bool_decide (h5_path id = [id]).

Section CoalescedStoreSpec.
Context {V D : Type} (fill : V).
Context (np_mean : list V -> V) (np_empty : V).
Context (distance_function : V -> V -> D) (ge : D -> D -> bool) (delta : D).

(** The vectors a file holds for the document at link path [p], in
    stored order. *)
Definition stored (fp : @H5File V) (p : list string) : list V :=
  match vectors fp with
  | Some d => rows_at fill d (doc_offsets fp p)
  | None => []
  end.

(** The id pairs of [add(vectors, doc_ids=ids)]: a doc id and no passage
    id for every vector. *)
Definition doc_pairs (ids : list string) : list (option string * option string) :=
  List.map (fun id => (Some id, None)) ids.

(** What the source gives for one document, [[]] when the lookup
    raises. *)
Definition source_vectors (source_index : OnDiskIndex) (w : World V) (id : string)
  : list V :=
  match snd (_get_vectors fill source_index [id] w) with
  | Ok r => fst r
  | Raise _ => []
  end.

(** The coalesced vectors of those documents of [ids] whose id names the
    link path [p], in the order of [ids]. *)
Definition coalesced_for (source_index : OnDiskIndex) (w : World V)
    (ids : list string) (p : list string) : list V :=
  concat (List.map
            (fun id => if bool_decide (h5_path id = p)
                       then _coalesce np_mean np_empty distance_function ge delta
                                      (source_vectors source_index w id)
                       else [])
            ids).
End CoalescedStoreSpec.

(** ** Tokenizer inputs of the encoders (encoder/transformer.py) *)

(** [s * n] on a string: [n] copies of [s], none when [n <= 0]. *)
Fixpoint str_repeat (s : string) (n : nat) : string :=
  match n with
  | O => EmptyString
  | S n' => s +:+ str_repeat s n'
  end.

Definition str_mul (s : string) (n : Z) : string := str_repeat s (Z.to_nat n).

Module TransformerEncoder.
(** [TransformerEncoder._get_tokenizer_inputs] *)
Definition _get_tokenizer_inputs (texts : list string) : list string := texts.
End TransformerEncoder.

Module TCTColBERTQueryEncoder.
Record t : Type := mk { _max_length : Z }.

(** [TCTColBERTQueryEncoder._get_tokenizer_inputs] *)
Definition _get_tokenizer_inputs (self : t) (texts : list string) : list string :=
  List.map (fun q => ("[CLS] [Q] " +:+ q) +:+ str_mul "[MASK]" (_max_length self))
           texts.
End TCTColBERTQueryEncoder.

Module TCTColBERTDocumentEncoder.
(** [TCTColBERTDocumentEncoder._get_tokenizer_inputs] *)
Definition _get_tokenizer_inputs (texts : list string) : list string :=
  List.map (fun d => "[CLS] [D] " +:+ d) texts.
End TCTColBERTDocumentEncoder.

(** ** Concrete stores and runs

    One-dimensional vectors: integers for the store, rationals for
    coalescing (mean of the values, distance [|a - b|]). *)

Module Examples.
Definition version : string := "0.1.0".
Definition world0 : World Z := mkWorld ∅ [].

(** A store of 4 slots that grows by at least 2. *)
Definition ix : OnDiskIndex := mkIndex "/index.h5" 2 MAXP.
Definition world1 : World Z :=
  fst (__init__ 0 version "/index.h5" 1 MAXP 4 2 false world0).

Definition batches : list (@batch Z) :=
  [ ([10; 11; 12], [Some "d1"; Some "d1"; Some "d2"], [Some "p1"; None; Some "p2"]);
    ([13; 14], [Some "d2"; Some "d3"], [None; None]);
    ([], [], []);
    ([15], [None], [Some "p1"]) ].

(** A full store of 16 slots, and 20 more vectors. *)
Definition ix16 : OnDiskIndex := mkIndex "/sixteen.h5" 8 PASSAGE.
Definition sixteen : list Z := seqZ 100 16.
Definition twenty : list Z := seqZ 200 20.
Definition world16 : World Z :=
  fst (_add 0 ix16 sixteen [] []
         (fst (__init__ 0 version "/sixteen.h5" 1 PASSAGE 16 8 false world0))).

(** The store of the specification's resolution table: a document with
    the offsets 5, 6, 7 and a passage at offset 9. *)
Definition table_world : World Z :=
  fst (add_batches 0 ix
         [ ([0; 1; 2; 3; 4], [Some "other"; None; None; None; None],
            [None; None; None; None; None]);
           ([50; 60; 70; 80; 90],
            [Some "doc"; Some "doc"; Some "doc"; None; None],
            [None; None; None; None; Some "psg"]) ]
         world1).
Definition with_mode (m : Mode) : OnDiskIndex := mkIndex "/index.h5" 2 m.
Definition file_of (w : World Z) (path : string) : @H5File Z :=
  default empty_file (fs w !! path).
Definition vectors_of (w : World Z) (path : string) : @Dataset Z :=
  default (mkDataset [] 0 0) (vectors (file_of w path)).

(** An append that fails half way: the document id [a/b] has made [a]
    a group of [/ids/doc], so the dataset [/ids/doc/a] cannot be
    made. *)
Definition nested_world : World Z :=
  fst (_add 0 ix [10] [Some "a/b"] [None] world1).
Definition failing_vectors : list Z := [20; 30].
Definition failing_doc_ids : list (option string) := [Some "c"; Some "a"].
Definition failing_psg_ids : list (option string) := [None; None].

(** Coalescing: vectors are rationals. *)
Definition q_mean (A : list Q) : Q :=
  (List.fold_right Qplus 0 A / inject_Z (Z.of_nat (length A)))%Q.
Definition q_dist (a b : Q) : Q := Qabs (a - b).
Definition q_ge (a b : Q) : bool := Qle_bool b a.

Definition qworld0 : World Q := mkWorld ∅ [].
Definition source : OnDiskIndex := mkIndex "/source.h5" 4 MAXP.
Definition target : OnDiskIndex := mkIndex "/target.h5" 4 MAXP.

(** Two documents of two vectors each, far apart. *)
Definition qworld : World Q :=
  let w := fst (__init__ 0%Q version "/source.h5" 1 MAXP 4 4 false qworld0) in
  let w := fst (__init__ 0%Q version "/target.h5" 1 MAXP 4 4 false w) in
  fst (_add 0%Q source [0; 10; 20; 30]%Q
            [Some "d1"; Some "d1"; Some "d2"; Some "d2"] [None; None; None; None] w).

(** Three documents of two vectors each. *)
Definition qworld3 : World Q :=
  fst (_add 0%Q source [40; 50]%Q [Some "d3"; Some "d3"] [None; None] qworld).

(** The same, with the target already holding a document. *)
Definition qworld_taken : World Q :=
  fst (_add 0%Q target [1]%Q [Some "old"] [None] qworld).

(** [create_coalesced_index] between on-disk indexes, with threshold 1,
    and the same on the recording interface. *)
Definition coalesce_on_disk (batch_size : option Z) : M (World Q) unit :=
  create_coalesced_index q_mean 0%Q q_dist q_ge 1%Q
    ondisk_doc_ids (_get_vectors 0%Q) (ondisk_add 0%Q) elements
    source target batch_size.

Definition coalesce_recorded (batch_size : option Z)
  : M (World Q * list (@event Q)) unit :=
  create_coalesced_index q_mean 0%Q q_dist q_ge 1%Q
    (rec_doc_ids ondisk_doc_ids) (rec_get_vectors (_get_vectors 0%Q))
    (rec_add (ondisk_add 0%Q)) elements
    source target batch_size.

Definition flush_sizes (st : World Q * list (@event Q)) : list nat :=
  List.map (fun b => length (fst b)) (flushes (snd st)).

(** The first batch of [batches] appended, and a second batch that
    comes back to the document [d2] and to the passage [p1]. *)
Definition first_vectors : list Z := [10; 11; 12].
Definition first_doc_ids : list (option string) := [Some "d1"; Some "d1"; Some "d2"].
Definition first_psg_ids : list (option string) := [Some "p1"; None; Some "p2"].
Definition world2 : World Z :=
  fst (_add 0 ix first_vectors first_doc_ids first_psg_ids world1).
Definition more_vectors : list Z := [13; 14].
Definition more_doc_ids : list (option string) := [Some "d2"; Some "d3"].
Definition more_psg_ids : list (option string) := [Some "p1"; None].
Definition world3 : World Z :=
  fst (_add 0 ix more_vectors more_doc_ids more_psg_ids world2).

(** Coalescing with threshold 20, under which the two vectors of each
    document of [qworld] fall into one cluster. *)
Definition coalesce_loosely : M (World Q) unit :=
  create_coalesced_index q_mean 0%Q q_dist q_ge 20%Q
    ondisk_doc_ids (_get_vectors 0%Q) (ondisk_add 0%Q) elements
    source target (Some 1).
Definition qfile_of (w : World Q) (path : string) : @H5File Q :=
  default empty_file (fs w !! path).
Definition qvectors_of (w : World Q) (path : string) : @Dataset Q :=
  default (mkDataset [] 0 0) (vectors (qfile_of w path)).

(** Two stores that hold nothing. *)
Definition qworld_empty : World Q :=
  let w := fst (__init__ 0%Q version "/source.h5" 1 MAXP 4 4 false qworld0) in
  fst (__init__ 0%Q version "/target.h5" 1 MAXP 4 4 false w).

(** The loop of [create_coalesced_index] on the recording interface. *)
Definition loop_recorded (batch_size : Z) (ids : list string)
    (vectors : list Q) (doc_ids : list string)
  : M (World Q * list (@event Q)) (list Q * list string) :=
  coalesce_docs q_mean 0%Q q_dist q_ge 1%Q
    (rec_get_vectors (_get_vectors 0%Q)) (rec_add (ondisk_add 0%Q))
    source target batch_size ids vectors doc_ids.
End Examples.

(** ** Properties of the vector store *)

Section StoreFacts.
Context {V : Type} (fill : V).
Implicit Types (d : @Dataset V) (fp : @H5File V) (vecs : list V).

Lemma length_resize_rows new_size (rows : list V) :
  length (resize_rows fill new_size rows) = Z.to_nat new_size.
Proof.
  unfold resize_rows. rewrite length_take, length_app, length_replicate. lia.
Qed.

Lemma resize_rows_grow new_size (rows : list V) :
  Z.of_nat (length rows) <= new_size ->
  resize_rows fill new_size rows
  = rows ++ replicate (Z.to_nat new_size - length rows)%nat fill.
Proof.
  intros H. unfold resize_rows. apply take_ge.
  rewrite length_app, length_replicate. lia.
Qed.

Lemma grown_prefix r n d :
  0 <= num_vectors d ->
  exists pad, grown fill r n d = data d ++ pad
              /\ (num_vectors d + Z.of_nat n <= Z.of_nat (length (data d ++ pad))).
Proof.
  intros H0. unfold grown, capacity.
  destruct (Z.gtb_spec (Z.of_nat n) (Z.of_nat (length (data d)) - num_vectors d)) as [Hgt|Hle].
  - eexists. split.
    + apply resize_rows_grow. lia.
    + rewrite length_app, length_replicate. lia.
  - exists []. rewrite app_nil_r. split; [done | lia].
Qed.

Lemma capacity_appended r vecs d :
  0 <= num_vectors d ->
  capacity (appended fill r vecs d) = Z.of_nat (length (grown fill r (length vecs) d)).
Proof.
  intros H0. destruct (grown_prefix r (length vecs) d H0) as (pad & Hg & Hlen).
  unfold capacity, appended. simpl. rewrite Hg in *.
  rewrite !length_app, length_take, length_drop, !length_app in *. lia.
Qed.

Lemma bind_ok {S A B} (m : M S A) (k : A -> M S B) s s' a :
  m s = (s', Ok a) -> bind m k s = k a s'.
Proof. intros H. unfold bind. by rewrite H. Qed.

Lemma bind_raise {S A B} (m : M S A) (k : A -> M S B) s s' e :
  m s = (s', Raise e) -> bind m k s = (s', Raise e).
Proof. intros H. unfold bind. by rewrite H. Qed.

Lemma fp_vectors_ok fp d : vectors fp = Some d -> fp_vectors fp = (fp, Ok d).
Proof. intros H. unfold fp_vectors. by rewrite H. Qed.

Lemma resize_ok new_size fp d :
  vectors fp = Some d -> 0 <= new_size ->
  resize fill new_size fp
  = (set_dataset {| data := resize_rows fill new_size (data d);
                    width := width d; num_vectors := num_vectors d |} fp, Ok tt).
Proof.
  intros Hd H0. unfold resize. rewrite (bind_ok _ _ _ _ _ (fp_vectors_ok _ _ Hd)).
  destruct (Z.ltb_spec new_size 0); [lia | done].
Qed.

Lemma write_rows_ok start vecs fp d :
  vectors fp = Some d -> 0 <= start ->
  start + Z.of_nat (length vecs) <= capacity d ->
  write_rows start vecs fp
  = (set_dataset {| data := take (Z.to_nat start) (data d) ++ vecs
                            ++ drop (Z.to_nat start + length vecs)%nat (data d);
                    width := width d; num_vectors := num_vectors d |} fp, Ok tt).
Proof.
  intros Hd H0 H1. unfold write_rows.
  rewrite (bind_ok _ _ _ _ _ (fp_vectors_ok _ _ Hd)).
  destruct (Z.leb_spec 0 start); [|lia].
  destruct (Z.leb_spec (start + Z.of_nat (length vecs)) (capacity d)); [|lia].
  done.
Qed.

Lemma set_num_vectors_ok n fp d :
  vectors fp = Some d ->
  set_num_vectors n fp
  = (set_dataset {| data := data d; width := width d; num_vectors := n |} fp, Ok tt).
Proof.
  intros Hd. unfold set_num_vectors.
  by rewrite (bind_ok _ _ _ _ _ (fp_vectors_ok _ _ Hd)).
Qed.

(** The vector phase of [_add]: from a dataset with a non-negative count
    it cannot fail, and it leaves [appended] behind for the id loop. *)
Lemma _add_fp_vectors r vecs doc_ids psg_ids fp d :
  vectors fp = Some d ->
  0 <= num_vectors d ->
  _add_fp fill r vecs doc_ids psg_ids fp
  = add_ids (num_vectors d) 0 (zip doc_ids psg_ids)
            (set_dataset (appended fill r vecs d) fp).
Proof.
  intros Hd H0.
  destruct (grown_prefix r (length vecs) d H0) as (pad & Hg & Hlen).
  unfold _add_fp, appended.
  rewrite (bind_ok _ _ _ _ _ (fp_vectors_ok _ _ Hd)).
  unfold grown in *.
  destruct (Z.of_nat (length vecs) >? capacity d - num_vectors d) eqn:Hgt.
  - erewrite bind_ok; [|apply (resize_ok _ _ d Hd); lia].
    erewrite bind_ok; [|eapply write_rows_ok; [done|done|]]; cycle 1.
    { unfold capacity at 1. cbn [data]. rewrite Hg. lia. }
    erewrite bind_ok; [|by apply fp_vectors_ok].
    erewrite bind_ok; [|by eapply set_num_vectors_ok].
    reflexivity.
  - erewrite bind_ok; [|reflexivity].
    assert (pad = []) as -> by (apply (app_inv_head (data d)); rewrite app_nil_r; done).
    rewrite app_nil_r in *.
    erewrite bind_ok; [|eapply write_rows_ok; [done|done|]]; cycle 1.
    { unfold capacity. lia. }
    erewrite bind_ok; [|by apply fp_vectors_ok].
    erewrite bind_ok; [|by eapply set_num_vectors_ok].
    reflexivity.
Qed.

Lemma add_ids_vectors cur i pairs fp :
  vectors (fst (add_ids cur i pairs fp)) = vectors fp.
Proof.
  revert i fp. induction pairs as [|[doc_id psg_id] rest IH]; intros i fp; [done|].
  cbn [add_ids]. unfold bind at 1.
  assert (forall (m : M (@H5File V) unit),
             (forall fp, vectors (fst (m fp)) = vectors fp) ->
             forall (k : M (@H5File V) unit),
               (forall fp, vectors (fst (k fp)) = vectors fp) ->
               forall fp, vectors (fst (bind m (fun _ => k) fp)) = vectors fp) as Hseq.
  { intros m Hm k Hk fp0. unfold bind. specialize (Hm fp0).
    destruct (m fp0) as [s' [a|e]]; simpl in *; [by rewrite Hk | done]. }
  assert (forall fp, vectors (fst (match doc_id with
            | Some d => (ds <- require_doc (h5_path d);;
                         assign_doc (h5_path d) (ds ++ [cur + i]))%M
            | None => ret tt end fp)) = vectors fp) as Hdoc.
  { intros fp0. destruct doc_id as [d|]; [|done].
    unfold bind, require_doc, assign_doc, modify.
    destruct (require_dataset [] (h5_path d) (ids_doc fp0)) as [g [v|e]]; done. }
  assert (forall fp, vectors (fst (match psg_id with
            | Some p => (_ <- require_psg (h5_path p);;
                         assign_psg (h5_path p) (cur + i))%M
            | None => ret tt end fp)) = vectors fp) as Hpsg.
  { intros fp0. destruct psg_id as [p|]; [|done].
    unfold bind, require_psg, assign_psg, modify.
    destruct (require_dataset 0 (h5_path p) (ids_psg fp0)) as [g [v|e]]; done. }
  fold (@bind (@H5File V) unit unit).
  apply (Hseq _ Hdoc). intros fp0. apply (Hseq _ Hpsg). intros fp1. apply IH.
Qed.

Lemma num_vectors_appended r vecs d :
  num_vectors (appended fill r vecs d) = num_vectors d + Z.of_nat (length vecs).
Proof. done. Qed.

Lemma count_ok_appended r vecs d :
  0 <= num_vectors d -> count_ok (appended fill r vecs d).
Proof.
  intros H0. unfold count_ok. rewrite capacity_appended by done.
  destruct (grown_prefix r (length vecs) d H0) as (pad & Hg & Hlen).
  rewrite Hg, num_vectors_appended. lia.
Qed.

(** What was stored below the old count is still there. *)
Lemma appended_lookup_old r vecs d (i : nat) :
  count_ok d -> (i < Z.to_nat (num_vectors d))%nat ->
  data (appended fill r vecs d) !! i = data d !! i.
Proof.
  intros [H0 H1] Hi. unfold capacity in H1.
  destruct (grown_prefix r (length vecs) d H0) as (pad & Hg & Hlen).
  unfold appended. cbn [data]. rewrite Hg.
  rewrite lookup_app_l by (rewrite length_take, length_app; lia).
  rewrite lookup_take_lt by done.
  apply lookup_app_l. lia.
Qed.

(** The occupied slots after the append: the old ones, then the batch. *)
Lemma appended_take r vecs d :
  count_ok d ->
  take (Z.to_nat (num_vectors (appended fill r vecs d))) (data (appended fill r vecs d))
  = take (Z.to_nat (num_vectors d)) (data d) ++ vecs.
Proof.
  intros [H0 H1]. unfold capacity in H1.
  destruct (grown_prefix r (length vecs) d H0) as (pad & Hg & Hlen).
  unfold appended. cbn [data num_vectors]. rewrite Hg.
  rewrite (take_app_le (data d) pad (Z.to_nat (num_vectors d))) by lia.
  assert (length (take (Z.to_nat (num_vectors d)) (data d)) = Z.to_nat (num_vectors d))
    as Hl by (rewrite length_take; lia).
  rewrite app_assoc.
  rewrite take_app_le by (rewrite length_app, Hl; lia).
  apply take_ge. rewrite length_app, Hl. lia.
Qed.

Lemma capacity_appended_resized r vecs d :
  0 <= num_vectors d ->
  capacity d - num_vectors d < Z.of_nat (length vecs) ->
  capacity (appended fill r vecs d)
  = Z.max (capacity d + Z.of_nat (length vecs) - (capacity d - num_vectors d)) r.
Proof.
  intros H0 Hlt. rewrite capacity_appended by done. unfold grown.
  destruct (Z.gtb_spec (Z.of_nat (length vecs)) (capacity d - num_vectors d)); [|lia].
  rewrite length_resize_rows. lia.
Qed.

Lemma with_file_a_eq {A} path (body : M (@H5File V) A) (w : World V) fp :
  fs w !! path = Some fp ->
  with_file_a path body w
  = (mkWorld (<[path := fst (body fp)]> (fs w)) (log w), snd (body fp)).
Proof.
  intros H. unfold with_file_a. rewrite H. simpl. by destruct (body fp).
Qed.

(** [_add] on an index whose dataset has a non-negative count: whether
    or not the id loop completes, the dataset left behind is
    [appended]. *)
Lemma _add_dataset (self : OnDiskIndex) vecs doc_ids psg_ids (w : World V) d :
  dataset_of w self = Some d ->
  0 <= num_vectors d ->
  dataset_of (fst (_add fill self vecs doc_ids psg_ids w)) self
  = Some (appended fill (_resize_min_val self) vecs d).
Proof.
  unfold dataset_of. intros Hd H0.
  destruct (fs w !! _index_file self) as [fp|] eqn:Hfp; [|done].
  simpl in Hd. unfold _add. rewrite (with_file_a_eq _ _ _ _ Hfp). cbn [fst fs].
  rewrite lookup_insert_eq. simpl.
  rewrite (_add_fp_vectors _ _ _ _ _ _ Hd H0), add_ids_vectors. done.
Qed.

Lemma increasing_seqZ m (k : nat) : increasing (seqZ m (Z.of_nat k)) = true.
Proof.
  revert m. induction k as [|k IH]; intros m; [done|].
  rewrite seqZ_cons by lia.
  replace (Z.pred (Z.of_nat (S k))) with (Z.of_nat k) by lia.
  specialize (IH (Z.succ m)). destruct k as [|k]; [done|].
  rewrite seqZ_cons in IH |- * by lia. cbn [increasing] in *.
  rewrite IH. destruct (Z.ltb_spec m (Z.succ m)); [done | lia].
Qed.

Lemma map_nth_seqZ (rows : list V) (a k : nat) :
  (a + k <= length rows)%nat ->
  List.map (fun z => nth (Z.to_nat z) rows fill) (seqZ (Z.of_nat a) (Z.of_nat k))
  = take k (drop a rows).
Proof.
  revert a. induction k as [|k IH]; intros a Hle; [done|].
  rewrite seqZ_cons by lia.
  replace (Z.pred (Z.of_nat (S k))) with (Z.of_nat k) by lia.
  replace (Z.succ (Z.of_nat a)) with (Z.of_nat (S a)) by lia.
  cbn [List.map]. rewrite IH by lia. rewrite Nat2Z.id.
  destruct (lookup_lt_is_Some_2 rows a) as [x Hx]; [lia|].
  rewrite (nth_lookup_Some _ _ _ _ Hx), (drop_S _ _ _ Hx). done.
Qed.

(** Reading a run of consecutive offsets inside the dataset. *)
Lemma read_rows_seqZ d (a k : nat) :
  (a + k <= length (data d))%nat ->
  read_rows fill d (seqZ (Z.of_nat a) (Z.of_nat k)) = Ok (take k (drop a (data d))).
Proof.
  intros Hle. unfold read_rows. rewrite increasing_seqZ. cbn [negb].
  rewrite map_nth_seqZ by done.
  destruct (forallb _ _) eqn:Hall; [done|].
  apply not_true_iff_false in Hall. exfalso. apply Hall.
  apply forallb_forall. intros z Hz. apply list_elem_of_In, elem_of_seqZ in Hz.
  unfold capacity.
  destruct (Z.leb_spec 0 z); [|lia]. destruct (Z.ltb_spec z (Z.of_nat (length (data d)))); [done|lia].
Qed.

(** After any run of appends the count has grown by the number of
    vectors handed over, and the occupied slots hold them in order. *)
Lemma add_batches_dataset (self : OnDiskIndex) (bs : list (@batch V)) :
  forall (w : World V) d w2 rs,
    dataset_of w self = Some d ->
    count_ok d ->
    add_batches fill self bs w = (w2, rs) ->
    exists d2,
      dataset_of w2 self = Some d2 /\ count_ok d2
      /\ num_vectors d2
         = num_vectors d + Z.of_nat (length (concat (List.map batch_vectors bs)))
      /\ take (Z.to_nat (num_vectors d2)) (data d2)
         = take (Z.to_nat (num_vectors d)) (data d)
           ++ concat (List.map batch_vectors bs).
Proof.
  induction bs as [|[[vecs doc_ids] psg_ids] rest IH]; intros w d w2 rs Hd Hok Hrun.
  - injection Hrun as <- <-. exists d. simpl. rewrite app_nil_r.
    repeat split; try done; try apply Hok. lia.
  - cbn [add_batches] in Hrun.
    pose proof (_add_dataset self vecs doc_ids psg_ids w d Hd (proj1 Hok)) as Hd1.
    destruct (_add fill self vecs doc_ids psg_ids w) as [w1 r1]. cbn [fst] in Hd1.
    destruct (add_batches fill self rest w1) as [w2' rs'] eqn:Hrest.
    injection Hrun as <- <-.
    destruct (IH _ _ _ _ Hd1 (count_ok_appended _ _ _ (proj1 Hok)) Hrest)
      as (d2 & Hd2 & Hok2 & Hn2 & Ht2).
    exists d2. split; [done|]. split; [done|].
    cbn [List.map concat batch_vectors fst]. split.
    + rewrite Hn2, num_vectors_appended, length_app. lia.
    + rewrite Ht2, appended_take by done. by rewrite app_assoc.
Qed.

Lemma with_file_r_eq {A} path (body : @H5File V -> M (list string) A) (w : World V) fp :
  fs w !! path = Some fp ->
  with_file_r path body w = (mkWorld (fs w) (fst (body fp (log w))), snd (body fp (log w))).
Proof.
  intros H. unfold with_file_r. rewrite H. by destruct (body fp (log w)).
Qed.

Lemma __len___eq (self : OnDiskIndex) (w : World V) d :
  dataset_of w self = Some d -> snd (__len__ self w) = Ok (num_vectors d).
Proof.
  unfold dataset_of. intros Hd.
  destruct (fs w !! _index_file self) as [fp|] eqn:Hfp; [|done]. simpl in Hd.
  unfold __len__. rewrite (with_file_r_eq _ _ _ _ Hfp). cbn [snd].
  unfold bind, lift, ret. by rewrite Hd.
Qed.

(** *** The invariant is kept *)

Lemma increasing_snoc (l : list Z) x :
  increasing l = true -> forallb (fun k => k <? x) l = true ->
  increasing (l ++ [x]) = true.
Proof.
  induction l as [|a [|b l'] IH]; intros Hinc Hlt; [done| |].
  - cbn in *. by rewrite andb_true_r in Hlt |- *.
  - cbn [app increasing] in *. apply andb_prop in Hinc as [-> Hinc].
    cbn [forallb] in Hlt. apply andb_prop in Hlt as [_ Hlt].
    cbn [andb]. by apply IH.
Qed.

Lemma offsets_ok_snoc b (l : list Z) x :
  l = [] \/ offsets_ok b l = true -> 0 <= x -> b <= x ->
  offsets_ok (x + 1) (l ++ [x]) = true.
Proof.
  intros Hl H0 Hb. unfold offsets_ok.
  assert (increasing l = true
          /\ forallb (fun k => (0 <=? k) && (k <? b)) l = true) as [Hinc Hin].
  { destruct Hl as [->|Hok]; [done|]. unfold offsets_ok in Hok.
    apply andb_prop in Hok as [Hok ?]. by apply andb_prop in Hok as [_ ?]. }
  assert (forallb (fun k => (0 <=? k) && (k <? x)) l = true) as Hx.
  { apply forallb_forall. intros k Hk.
    pose proof (proj1 (forallb_forall _ _) Hin k Hk) as Hkb.
    apply andb_prop in Hkb as [-> Hkb%Z.ltb_lt]. cbn. apply Z.ltb_lt. lia. }
  rewrite increasing_snoc; [|done|].
  2:{ apply forallb_forall. intros k Hk.
      pose proof (proj1 (forallb_forall _ _) Hx k Hk) as Hkx.
      by apply andb_prop in Hkx as [_ ->]. }
  rewrite forallb_app. cbn [forallb].
  replace (forallb (fun k => (0 <=? k) && (k <? x + 1)) l) with true.
  - destruct l; cbn [app]; (destruct (Z.leb_spec 0 x); [|lia]);
      (destruct (Z.ltb_spec x (x + 1)); [done|lia]).
  - symmetry. apply forallb_forall. intros k Hk.
    pose proof (proj1 (forallb_forall _ _) Hx k Hk) as Hkx.
    apply andb_prop in Hkx as [-> Hkx%Z.ltb_lt]. cbn. apply Z.ltb_lt. lia.
Qed.

Lemma doc_node_ok_mono b b' (n : node (list Z)) :
  b <= b' -> doc_node_ok b n = true -> doc_node_ok b' n = true.
Proof.
  intros Hb. destruct n as [|l]; [done|]. cbn. unfold offsets_ok. intros H.
  apply andb_prop in H as [-> Hin]. cbn [andb].
  apply forallb_forall. intros k Hk.
  pose proof (proj1 (forallb_forall _ _) Hin k Hk) as Hkb.
  apply andb_prop in Hkb as [-> Hkb%Z.ltb_lt]. cbn. apply Z.ltb_lt. lia.
Qed.

Lemma psg_node_ok_mono b b' (n : node Z) :
  b <= b' -> psg_node_ok b n = true -> psg_node_ok b' n = true.
Proof.
  intros Hb. destruct n as [|k]; [done|]. cbn. intros H.
  apply andb_prop in H as [-> Hkb%Z.ltb_lt]. cbn. apply Z.ltb_lt. lia.
Qed.

Lemma ids_ok_mono b b' fp : b <= b' -> ids_ok b fp -> ids_ok b' fp.
Proof.
  intros Hb [Hd Hp]. split.
  - destruct (ids_doc fp) as [ns|]; [|done]. cbn in *.
    intros p n Hn. eapply doc_node_ok_mono; [done|]. by eapply Hd.
  - destruct (ids_psg fp) as [ns|]; [|done]. cbn in *.
    intros p n Hn. eapply psg_node_ok_mono; [done|]. by eapply Hp.
Qed.

Lemma add_groups_Forall {P} (Q : node P -> Prop) (ps : list (list string)) :
  Q Grp ->
  forall ns : gmap (list string) (node P),
    map_Forall (fun _ n => Q n) ns ->
    map_Forall (fun _ n => Q n) (add_groups ps ns).
Proof.
  intros HG. unfold add_groups. induction ps as [|a ps IH]; intros ns Hns; [done|].
  cbn [fold_left]. apply IH. destruct (ns !! a); [done|].
  by apply map_Forall_insert_2.
Qed.

(** Opening a dataset for an identifier and writing a new payload: the
    other objects of the group stay as they are. *)
Lemma require_assign_Forall {P} (Q : node P -> Prop) (fresh : P) (p : list string)
    (g g' : option (gmap (list string) (node P))) (r : result P) :
  Q Grp ->
  from_option (map_Forall (fun _ n => Q n)) True g ->
  require_dataset fresh p g = (g', r) ->
  from_option (map_Forall (fun _ n => Q n)) True
    (match r with Ok _ => None | Raise _ => g' end)
  /\ forall v, r = Ok v ->
               (v = fresh \/ Q (Dset v))
               /\ forall v', Q (Dset v') ->
                             from_option (map_Forall (fun _ n => Q n)) True
                               (assign p v' g').
Proof.
  intros HG Hg Hreq. unfold require_dataset in Hreq.
  assert (map_Forall (fun _ n => Q n) (default ∅ g)) as Hns.
  { destruct g; [done|]. cbn. apply map_Forall_empty. }
  destruct g as [ns|], p as [|c p']; cbn [default from_option id] in Hreq, Hns;
    try (injection Hreq as <- <-; split; [cbn; done || apply map_Forall_empty | done]).
  - destruct (ns !! (c :: p')) as [[|v]|] eqn:Hl.
    + injection Hreq as <- <-. split; [done|]. done.
    + injection Hreq as <- <-. split; [done|]. intros v0 [= <-]. split.
      * right. by eapply Hns.
      * intros v' Hv'. cbn. by apply map_Forall_insert_2.
    + destruct (existsb _ _).
      * injection Hreq as <- <-. split; [done|]. done.
      * injection Hreq as <- <-. split; [done|]. intros v0 [= <-]. split; [by left|].
        intros v' Hv'. cbn. rewrite insert_insert_eq.
        apply map_Forall_insert_2; [done|]. by apply add_groups_Forall.
  - rewrite lookup_empty in Hreq.
    destruct (existsb _ _).
    + injection Hreq as <- <-. split; [cbn; apply map_Forall_empty|]. done.
    + injection Hreq as <- <-. split; [done|]. intros v0 [= <-]. split; [by left|].
      intros v' Hv'. cbn. rewrite insert_insert_eq.
      apply map_Forall_insert_2; [done|]. by apply add_groups_Forall.
Qed.

Lemma doc_step_ok x (p : list string) fp :
  0 <= x -> ids_ok x fp ->
  ids_ok (x + 1)
    (fst ((ds <- require_doc p;; assign_doc p (ds ++ [x]))%M fp)).
Proof.
  intros H0 Hok. pose proof (ids_ok_mono x (x + 1) fp ltac:(lia) Hok) as [Hd1 Hp1].
  destruct Hok as [Hd _].
  unfold bind, require_doc, assign_doc, modify.
  destruct (require_dataset [] p (ids_doc fp)) as [g' r] eqn:Hreq.
  destruct (require_assign_Forall (fun n => doc_node_ok x n = true)
              [] p _ _ _ eq_refl Hd Hreq) as [_ Hv].
  destruct (require_assign_Forall (fun n => doc_node_ok (x + 1) n = true)
              [] p _ _ _ eq_refl Hd1 Hreq) as [Hraise Hassign].
  destruct r as [v|e]; cbn [fst]; split; cbn [ids_doc ids_psg]; try done.
  destruct (Hv v eq_refl) as [Hvok _]. destruct (Hassign v eq_refl) as [_ Hins].
  apply Hins. cbn. apply (offsets_ok_snoc x); [|done|lia].
  destruct Hvok as [->|Hvok]; [by left | by right].
Qed.

Lemma psg_step_ok x (p : list string) fp :
  0 <= x -> ids_ok (x + 1) fp ->
  ids_ok (x + 1)
    (fst ((_ <- require_psg p;; assign_psg p x)%M fp)).
Proof.
  intros H0 [Hd Hp].
  unfold bind, require_psg, assign_psg, modify.
  destruct (require_dataset 0 p (ids_psg fp)) as [g' r] eqn:Hreq.
  destruct (require_assign_Forall (fun n => psg_node_ok (x + 1) n = true)
              0 p _ _ _ eq_refl Hp Hreq) as [Hraise Hassign].
  destruct r as [v|e]; cbn [fst]; split; cbn [ids_doc ids_psg]; try done.
  destruct (Hassign v eq_refl) as [_ Hins]. apply Hins. cbn.
  destruct (Z.leb_spec 0 x); [|lia]. destruct (Z.ltb_spec x (x + 1)); [done|lia].
Qed.

(** The id loop records offsets below [cur + i + (number of pairs)],
    whether it completes or raises on the way. *)
Lemma add_ids_ok cur (pairs : list (option string * option string)) :
  forall i fp,
    0 <= cur + i ->
    ids_ok (cur + i) fp ->
    ids_ok (cur + i + Z.of_nat (length pairs)) (fst (add_ids cur i pairs fp)).
Proof.
  induction pairs as [|[doc_id psg_id] rest IH]; intros i fp H0 Hok.
  - cbn. by rewrite Z.add_0_r.
  - cbn [add_ids length].
    replace (cur + i + Z.of_nat (S (length rest)))
      with (cur + (i + 1) + Z.of_nat (length rest)) by lia.
    set (doc_step := match doc_id with
                     | Some d0 => (ds <- require_doc (h5_path d0);;
                                   assign_doc (h5_path d0) (ds ++ [cur + i]))%M
                     | None => ret tt end).
    set (psg_step := match psg_id with
                     | Some p => (_ <- require_psg (h5_path p);;
                                  assign_psg (h5_path p) (cur + i))%M
                     | None => ret tt end).
    assert (ids_ok (cur + i + 1) (fst (doc_step fp))) as Hdoc.
    { subst doc_step. destruct doc_id; [by apply doc_step_ok|].
      cbn. eapply ids_ok_mono; [|done]. lia. }
    assert (forall fp2, ids_ok (cur + i + 1) fp2 ->
                        ids_ok (cur + i + 1) (fst (psg_step fp2))) as Hpsg.
    { intros fp2 H2. subst psg_step. destruct psg_id; [by apply psg_step_ok|done]. }
    unfold bind at 1. destruct (doc_step fp) as [fp2 [[]|e]]; cbn [fst] in *.
    2:{ eapply ids_ok_mono; [|done]. lia. }
    unfold bind at 1. specialize (Hpsg fp2 Hdoc).
    destruct (psg_step fp2) as [fp3 [[]|e]]; cbn [fst] in *.
    2:{ eapply ids_ok_mono; [|done]. lia. }
    apply IH; [lia|]. by replace (cur + (i + 1)) with (cur + i + 1) by lia.
Qed.

Lemma ids_ok_set_dataset b d fp : ids_ok b (set_dataset d fp) <-> ids_ok b fp.
Proof. done. Qed.

(** [_add] keeps the invariant when it is handed no more identifier pairs
    than vectors (as [Index.add] does), also when it raises. *)
Lemma _add_fp_store_ok r vecs (doc_ids psg_ids : list (option string)) fp :
  store_ok fp ->
  (length (zip doc_ids psg_ids) <= length vecs)%nat ->
  store_ok (fst (_add_fp fill r vecs doc_ids psg_ids fp)).
Proof.
  unfold store_ok. intros Hok Hlen.
  destruct (vectors fp) as [d|] eqn:Hd; [|done]. destruct Hok as [Hc Hids].
  rewrite (_add_fp_vectors _ _ _ _ _ _ Hd (proj1 Hc)), add_ids_vectors.
  cbn [vectors set_dataset]. split; [apply count_ok_appended, Hc|].
  rewrite num_vectors_appended.
  eapply (ids_ok_mono (num_vectors d + 0 + Z.of_nat (length (zip doc_ids psg_ids))));
    [lia|].
  apply add_ids_ok; [destruct Hc; lia|]. by rewrite Z.add_0_r.
Qed.

Lemma _add_store_ok (self : OnDiskIndex) vecs (doc_ids psg_ids : list (option string))
    (w : World V) fp :
  fs w !! _index_file self = Some fp ->
  store_ok fp ->
  (length (zip doc_ids psg_ids) <= length vecs)%nat ->
  exists fp', fs (fst (_add fill self vecs doc_ids psg_ids w)) !! _index_file self
              = Some fp'
              /\ store_ok fp'.
Proof.
  intros Hfp Hok Hlen. unfold _add. rewrite (with_file_a_eq _ _ _ _ Hfp).
  cbn [fst fs]. rewrite lookup_insert_eq. eexists. split; [done|].
  by apply _add_fp_store_ok.
Qed.
End StoreFacts.

Section StoreTheorems.
Context {V : Type} (fill : V) (version : string).
Implicit Types (d : @Dataset V) (w : World V) (self : OnDiskIndex).

Lemma length_concat_batches (bs : list (@batch V)) :
  length (concat (List.map batch_vectors bs)) = total_size bs.
Proof.
  unfold total_size. induction bs as [|b bs IH]; [done|].
  cbn [List.map concat sum_list_with]. rewrite length_app, IH. done.
Qed.

(** [__init__], evaluated. *)
Lemma __init___eq w0 index_file dim mode init_size r overwrite :
  __init__ fill version index_file dim mode init_size r overwrite w0
  = if bool_decide (is_Some (fs w0 !! index_file)) && negb overwrite
    then (w0, Raise ValueError)
    else if (init_size <? 0) || (dim <? 0)
         then (mkWorld (<[index_file := empty_file]> (fs w0)) (log w0),
               Raise ValueError)
         else (mkWorld (<[index_file :=
                           {| vectors := Some {| data := replicate (Z.to_nat init_size) fill;
                                                 width := dim; num_vectors := 0 |};
                              ids_doc := None; ids_psg := None;
                              ff_version := Some version |}]> (fs w0)) (log w0),
               Ok (mkIndex index_file r mode)).
Proof.
  unfold __init__, bind at 1, get.
  destruct (bool_decide _ && negb overwrite); [done|].
  unfold bind, with_file_w, create_store.
  destruct ((init_size <? 0) || (dim <? 0)); done.
Qed.

(** A successful [__init__] leaves an empty store of [init_size] slots. *)
Lemma __init___dataset w0 index_file dim mode init_size r overwrite self :
  snd (__init__ fill version index_file dim mode init_size r overwrite w0) = Ok self ->
  self = mkIndex index_file r mode
  /\ 0 <= init_size
  /\ dataset_of (fst (__init__ fill version index_file dim mode init_size r overwrite w0))
                self
     = Some {| data := replicate (Z.to_nat init_size) fill;
               width := dim; num_vectors := 0 |}.
Proof.
  rewrite __init___eq.
  destruct (bool_decide _ && negb overwrite); [done|].
  destruct (Z.ltb_spec init_size 0) as [Hneg|Hpos]; [done|].
  destruct (dim <? 0); [done|].
  cbn [orb fst snd]. intros [= <-]. split; [done|]. split; [done|].
  unfold dataset_of. cbn [fs _index_file]. rewrite lookup_insert_eq. done.
Qed.

(** A store that was just created keeps the invariant, and so does every
    store reached from it by appends that hand over no more identifier
    pairs than vectors. *)
Lemma __init___store_ok w0 index_file dim mode init_size r overwrite self :
  snd (__init__ fill version index_file dim mode init_size r overwrite w0) = Ok self ->
  exists fp,
    fs (fst (__init__ fill version index_file dim mode init_size r overwrite w0))
      !! _index_file self = Some fp
    /\ store_ok fp.
Proof.
  rewrite __init___eq.
  destruct (bool_decide _ && negb overwrite); [done|].
  destruct (Z.ltb_spec init_size 0) as [Hneg|Hpos]; [done|].
  destruct (dim <? 0); [done|].
  cbn [orb fst snd]. intros [= <-]. cbn [fs _index_file].
  rewrite lookup_insert_eq. eexists. split; [done|].
  unfold store_ok, count_ok, capacity, ids_ok. cbn. rewrite length_replicate.
  repeat split; lia.
Qed.

Lemma add_batches_store_ok self (bs : list (@batch V)) :
  forall w fp,
    fs w !! _index_file self = Some fp ->
    store_ok fp ->
    Forall (fun b : @batch V =>
              (length (zip (snd (fst b)) (snd b)) <= length (batch_vectors b))%nat) bs ->
    exists fp', fs (fst (add_batches fill self bs w)) !! _index_file self = Some fp'
                /\ store_ok fp'.
Proof.
  induction bs as [|[[vecs doc_ids] psg_ids] rest IH]; intros w fp Hfp Hok Hall.
  - by exists fp.
  - apply Forall_cons in Hall as [Hlen Hall]. cbn [add_batches].
    destruct (_add_store_ok fill self vecs doc_ids psg_ids w fp Hfp Hok Hlen)
      as (fp1 & Hfp1 & Hok1).
    destruct (_add fill self vecs doc_ids psg_ids w) as [w1 r1]. cbn [fst] in Hfp1.
    destruct (IH w1 fp1 Hfp1 Hok1 Hall) as (fp' & Hfp' & Hok').
    destruct (add_batches fill self rest w1) as [w2 rs]. by exists fp'.
Qed.

(** C1.  Whatever batches are appended to a store that was just created,
    once the appends have completed [len()] is the sum of the batch sizes,
    reading the offsets [0 .. len()) returns the appended vectors in
    append order, and each batch sits contiguously at the offsets from
    the value [len()] had when it was appended. *)
Theorem C1_appends_are_counted_and_kept_in_order
    w0 index_file dim mode init_size r overwrite self (bs : list (@batch V)) :
  snd (__init__ fill version index_file dim mode init_size r overwrite w0) = Ok self ->
  forallb is_ok
    (snd (add_batches fill self bs
            (fst (__init__ fill version index_file dim mode init_size r overwrite w0))))
  = true ->
  let w1 := fst (__init__ fill version index_file dim mode init_size r overwrite w0) in
  let w := fst (add_batches fill self bs w1) in
  snd (__len__ self w) = Ok (Z.of_nat (total_size bs))
  /\ exists d,
      dataset_of w self = Some d
      /\ read_rows fill d (seqZ 0 (Z.of_nat (total_size bs)))
         = Ok (concat (List.map batch_vectors bs))
      /\ forall pre b post,
          bs = pre ++ b :: post ->
          snd (__len__ self (fst (add_batches fill self pre w1)))
          = Ok (Z.of_nat (total_size pre))
          /\ read_rows fill d (seqZ (Z.of_nat (total_size pre))
                                    (Z.of_nat (length (batch_vectors b))))
             = Ok (batch_vectors b).
Proof.
  intros Hinit _ w1 w.
  destruct (__init___dataset _ _ _ _ _ _ _ _ Hinit) as (_ & Hsz & Hd0).
  fold w1 in Hd0.
  set (d0 := {| data := replicate (Z.to_nat init_size) fill; width := dim;
                num_vectors := 0 |}) in *.
  assert (count_ok d0) as Hok0.
  { unfold count_ok, capacity, d0. cbn. rewrite length_replicate. lia. }
  destruct (add_batches fill self bs w1) as [w2 rs] eqn:Hrun.
  destruct (add_batches_dataset fill self bs w1 d0 w2 rs Hd0 Hok0 Hrun)
    as (d2 & Hd2 & Hok2 & Hn2 & Ht2).
  subst w. cbn [fst].
  change (take (Z.to_nat (num_vectors d0)) (data d0)) with (@nil V) in Ht2.
  change (num_vectors d0) with 0 in Hn2. cbn [app] in Ht2.
  rewrite length_concat_batches in Hn2. rewrite Z.add_0_l in Hn2.
  rewrite Hn2, Nat2Z.id in Ht2.
  assert (total_size bs <= length (data d2))%nat as Hle.
  { destruct Hok2 as [_ Hc]. unfold capacity in Hc. lia. }
  split; [by rewrite (__len___eq _ _ _ Hd2), Hn2|].
  exists d2. split; [done|]. split.
  - change 0 with (Z.of_nat 0). rewrite read_rows_seqZ by lia.
    by rewrite drop_0, Ht2.
  - intros pre b post ->. split.
    + destruct (add_batches fill self pre w1) as [wp rp] eqn:Hpre.
      destruct (add_batches_dataset fill self pre w1 d0 wp rp Hd0 Hok0 Hpre)
        as (dp & Hdp & _ & Hnp & _).
      cbn [fst]. rewrite (__len___eq _ _ _ Hdp), Hnp, length_concat_batches.
      done.
    + rewrite List.map_app, concat_app in Ht2. cbn [List.map concat] in Ht2.
      unfold total_size in Hle. rewrite sum_list_with_app in Hle.
      cbn [sum_list_with] in Hle. fold (total_size pre) (total_size post) in Hle.
      rewrite read_rows_seqZ by lia. f_equal.
      rewrite <- (take_drop (total_size (pre ++ b :: post)) (data d2)), Ht2.
      rewrite <- length_concat_batches.
      rewrite <- !app_assoc, drop_app_length.
      by rewrite take_app_length.
Qed.

(** C2.  An append of [n] vectors that does not fit ([capacity - count <
    n]) leaves the capacity at [max(capacity + n - (capacity - count),
    resize_min_val)] and every vector stored before at its offset; so 20
    vectors appended to a full store of 16 slots leave the first 16 as
    they were, in a store of at least 36 slots. *)
Theorem C2_resize_keeps_stored_vectors
    self w d (vecs : list V) (doc_ids psg_ids : list (option string)) :
  dataset_of w self = Some d ->
  count_ok d ->
  capacity d - num_vectors d < Z.of_nat (length vecs) ->
  exists d',
    dataset_of (fst (_add fill self vecs doc_ids psg_ids w)) self = Some d'
    /\ capacity d'
       = Z.max (capacity d + Z.of_nat (length vecs) - (capacity d - num_vectors d))
               (_resize_min_val self)
    /\ (forall i : nat, (i < Z.to_nat (num_vectors d))%nat ->
                        data d' !! i = data d !! i)
    /\ (capacity d = 16 -> num_vectors d = 16 -> length vecs = 20%nat ->
        take 16 (data d') = data d /\ 36 <= capacity d').
Proof.
  intros Hd Hok Hlt. exists (appended fill (_resize_min_val self) vecs d).
  split; [by apply _add_dataset; [|apply Hok]|].
  split; [by apply capacity_appended_resized; [apply Hok|]|].
  split; [intros i Hi; by apply appended_lookup_old|].
  intros Hc Hn Hv. split.
  - pose proof (appended_take fill (_resize_min_val self) vecs d Hok) as Ht.
    rewrite num_vectors_appended, Hn, Hv in Ht.
    apply (f_equal (take 16)) in Ht. rewrite take_take in Ht.
    change (Z.to_nat (16 + Z.of_nat 20)) with 36%nat in Ht.
    change (16 `min` 36)%nat with 16%nat in Ht. rewrite Ht.
    change (Z.to_nat 16) with 16%nat.
    unfold capacity in Hc.
    rewrite take_app_le by (rewrite length_take; lia).
    rewrite take_take. change (16 `min` 16)%nat with 16%nat.
    apply take_ge. lia.
  - rewrite capacity_appended_resized by (done || apply Hok). lia.
Qed.

(** [_get_vectors] on an existing file is its body run on the content. *)
Lemma _get_vectors_eq self ids w fp :
  fs w !! _index_file self = Some fp ->
  _get_vectors fill self ids w
  = (mkWorld (fs w) (fst (_get_vectors_fp fill (mode self) ids fp (log w))),
     snd (_get_vectors_fp fill (mode self) ids fp (log w))).
Proof. intros H. unfold _get_vectors. by rewrite (with_file_r_eq _ _ _ _ H). Qed.

(** C10.  With no identifier asked for, [_get_vectors] does not return an
    empty result: [np.concatenate] is handed an empty list and raises
    [ValueError] (when the file is missing, opening it has raised
    before). *)
Theorem C10_no_identifier_raises self w :
  snd (_get_vectors fill self [] w)
  = match fs w !! _index_file self with
    | Some _ => Raise ValueError
    | None => Raise OSError
    end.
Proof.
  destruct (fs w !! _index_file self) as [fp|] eqn:Hfp.
  - by rewrite (_get_vectors_eq _ _ _ _ Hfp).
  - unfold _get_vectors, with_file_r. by rewrite Hfp.
Qed.

(** C6, the failing case.  When the id group of the active mode does not
    exist in the file (no document id, or no passage id, was ever
    recorded), the first identifier looked up raises [KeyError]: no
    warning, no empty group, and the batch lookup is aborted. *)
Theorem C6_lookup_without_id_group_raises self w fp id ids :
  fs w !! _index_file self = Some fp ->
  group_present (mode self) fp = false ->
  _get_vectors fill self (id :: ids) w = (w, Raise KeyError).
Proof.
  intros Hfp Hg. rewrite (_get_vectors_eq _ _ _ _ Hfp).
  assert (_get_vectors_fp fill (mode self) (id :: ids) fp (log w)
          = (log w, Raise KeyError)) as ->.
  { unfold _get_vectors_fp, group_present in *. cbn [get_loop].
    unfold id_idxs.
    destruct (mode self); cbn [mode_eqb orb] in *.
    - destruct (ids_psg fp); [done|]. reflexivity.
    - destruct (ids_doc fp); [done|]. reflexivity.
    - destruct (ids_doc fp); [done|]. reflexivity.
    - destruct (ids_doc fp); [done|]. reflexivity. }
  by destruct w.
Qed.

(** C7, as the code has it.  [load] never fails and does not look at the
    file: it returns the index object for the path whatever is there, and
    the world is untouched.  A missing file shows only when the file is
    opened by a later operation ([OSError] from [__len__]), a file
    without the [vectors] dataset when that dataset is read ([KeyError]);
    the version tag is never read. *)
Theorem C7_load_performs_no_check index_file mode r w :
  load index_file mode r w = (w, Ok (mkIndex index_file r mode))
  /\ snd (__len__ (mkIndex index_file r mode) w)
     = match fs w !! index_file with
       | None => Raise OSError
       | Some fp => match vectors fp with
                    | None => Raise KeyError
                    | Some d => Ok (num_vectors d)
                    end
       end.
Proof.
  split; [done|]. unfold __len__, with_file_r. cbn [_index_file].
  destruct (fs w !! index_file) as [fp|]; [|done].
  unfold bind, lift, ret. by destruct (vectors fp).
Qed.

Lemma h5_relative_path id : h5_relative id = true -> h5_path id <> [].
Proof.
  unfold h5_relative. destruct id as [|c id']; [done|].
  destruct (h5_path (String c id')); [|done].
  rewrite andb_false_r. done.
Qed.

Lemma contains_relative {P} (ns : gmap (list string) (node P)) id :
  h5_relative id = true ->
  contains ns (h5_path id)
  = match ns !! h5_path id with Some _ => true | None => false end.
Proof.
  intros H%h5_relative_path. unfold contains. by destruct (h5_path id).
Qed.

Lemma read_dset_relative {P} (ns : gmap (list string) (node P)) id v :
  h5_relative id = true -> ns !! h5_path id = Some (Dset v) ->
  read_dset ns (h5_path id) = Ok v.
Proof.
  intros H%h5_relative_path Hl. unfold read_dset. rewrite Hl.
  by destruct (h5_path id).
Qed.

(** One identifier: the offsets of the table, and a warning exactly when
    the identifier is not there. *)
Lemma id_idxs_ok mode fp d id l :
  group_present mode fp = true ->
  readable mode fp d id = true ->
  id_idxs mode fp id l
  = (l ++ (if unresolved mode fp id then ["no vectors for " +:+ id] else []),
     Ok (resolve mode fp id)).
Proof.
  unfold group_present, readable, unresolved, resolve, doc_lookup, psg_lookup, id_idxs.
  intros Hg Hr. apply andb_prop in Hr as [Hr _]. apply andb_prop in Hr as [Hr _].
  apply andb_prop in Hr as [Hrel Hr].
  destruct mode; cbn [mode_eqb orb].
  - destruct (ids_psg fp) as [ns|]; [|done]. cbn [mbind option_bind] in *.
    unfold bind at 1, ret at 1. unfold bind at 1, ret at 1.
    unfold bind at 1, lift at 1, id_in. rewrite (contains_relative _ _ Hrel).
    destruct (ns !! h5_path id) as [[|k]|] eqn:Hl; [done| |].
    + unfold bind, lift, open_group, ret.
      rewrite (read_dset_relative _ _ _ Hrel Hl). by rewrite app_nil_r.
    + unfold bind, warning, modify, ret. done.
  - destruct (ids_doc fp) as [ns|]; [|done]. cbn [mbind option_bind] in *.
    unfold bind at 1, ret at 1.
    unfold bind at 1, lift at 1, id_in. rewrite (contains_relative _ _ Hrel).
    destruct (ns !! h5_path id) as [[|v]|] eqn:Hl; [done| |].
    + unfold bind, lift, open_group, ret.
      rewrite (read_dset_relative _ _ _ Hrel Hl).
      destruct v; [done|]. by rewrite app_nil_r.
    + unfold bind, warning, modify, ret. done.
  - destruct (ids_doc fp) as [ns|]; [|done]. cbn [mbind option_bind] in *.
    unfold bind at 1, lift at 1, id_in. rewrite (contains_relative _ _ Hrel).
    destruct (ns !! h5_path id) as [[|v]|] eqn:Hl; [done| |].
    + unfold bind, lift, open_group, ret.
      rewrite (read_dset_relative _ _ _ Hrel Hl). by rewrite app_nil_r.
    + unfold bind, warning, modify, ret. done.
  - destruct (ids_doc fp) as [ns|]; [|done]. cbn [mbind option_bind] in *.
    unfold bind at 1, lift at 1, id_in. rewrite (contains_relative _ _ Hrel).
    destruct (ns !! h5_path id) as [[|v]|] eqn:Hl; [done| |].
    + unfold bind, lift, open_group, ret.
      rewrite (read_dset_relative _ _ _ Hrel Hl). by rewrite app_nil_r.
    + unfold bind, warning, modify, ret. done.
Qed.

Lemma read_rows_readable mode fp d id :
  readable mode fp d id = true ->
  read_rows fill d (resolve mode fp id) = Ok (rows_at fill d (resolve mode fp id)).
Proof.
  unfold readable. intros Hr. apply andb_prop in Hr as [Hr Hin].
  apply andb_prop in Hr as [_ Hinc].
  unfold read_rows. by rewrite Hinc, Hin.
Qed.

Lemma forallb_range_mono b b' (l : list Z) :
  b <= b' ->
  forallb (fun k => (0 <=? k) && (k <? b)) l = true ->
  forallb (fun k => (0 <=? k) && (k <? b')) l = true.
Proof.
  intros Hb Hin. apply forallb_forall. intros k Hk.
  pose proof (proj1 (forallb_forall _ _) Hin k Hk) as Hkb.
  apply andb_prop in Hkb as [-> Hkb%Z.ltb_lt]. cbn. apply Z.ltb_lt. lia.
Qed.

(** On a file that keeps the invariant, what is stored for an identifier
    is a selection that can be read. *)
Lemma lookable_readable mode fp d id :
  vectors fp = Some d -> store_ok fp ->
  lookable mode fp id = true -> readable mode fp d id = true.
Proof.
  unfold store_ok, lookable, readable. intros Hd Hok Hl. rewrite Hd in Hok.
  destruct Hok as [[_ Hcap] [Hdoc Hpsg]].
  apply andb_prop in Hl as [-> Hl]. cbn [andb].
  assert (forall l, doc_lookup fp id = Some (Dset l) ->
                    l <> [] /\ increasing l = true
                    /\ forallb (fun k => (0 <=? k) && (k <? capacity d)) l = true)
    as Hdocs.
  { unfold doc_lookup. intros l Hlk. destruct (ids_doc fp) as [ns|]; [|done].
    cbn in Hlk, Hdoc. pose proof (Hdoc _ _ Hlk) as Hn. cbn in Hn.
    unfold offsets_ok in Hn. apply andb_prop in Hn as [Hn Hin].
    apply andb_prop in Hn as [Hne Hinc]. split; [by destruct l|]. split; [done|].
    by eapply forallb_range_mono. }
  unfold resolve. destruct mode.
  - unfold psg_lookup in *. destruct (ids_psg fp) as [ns|]; [|done].
    cbn in Hl, Hpsg |- *. destruct (ns !! h5_path id) as [[|k]|] eqn:Hlk; try done.
    pose proof (Hpsg _ _ Hlk) as Hn. cbn in Hn |- *.
    apply andb_prop in Hn as [-> Hn%Z.ltb_lt]. cbn.
    destruct (Z.ltb_spec k (capacity d)); [done|lia].
  - destruct (doc_lookup fp id) as [[|l]|] eqn:Hlk; try done.
    destruct (Hdocs l eq_refl) as (Hne & Hinc & Hin).
    destruct l as [|k l]; [done|]. cbn [take forallb increasing andb] in *.
    apply andb_prop in Hin as [-> _]. done.
  - destruct (doc_lookup fp id) as [[|l]|] eqn:Hlk; try done.
    destruct (Hdocs l eq_refl) as (Hne & -> & ->). done.
  - destruct (doc_lookup fp id) as [[|l]|] eqn:Hlk; try done.
    destruct (Hdocs l eq_refl) as (Hne & -> & ->). done.
Qed.

Lemma get_loop_ok mode fp d ids :
  vectors fp = Some d ->
  group_present mode fp = true ->
  forallb (readable mode fp d) ids = true ->
  forall rv gi c l,
    get_loop fill mode fp ids rv gi c l
    = (l ++ warnings mode fp ids,
       Ok (rv ++ List.map (fun id => rows_at fill d (resolve mode fp id)) ids,
           gi ++ group_ranges c (List.map (fun id => length (resolve mode fp id)) ids))).
Proof.
  intros Hd Hg. induction ids as [|id ids IH]; intros Hall rv gi c l.
  - cbn. unfold ret, warnings. cbn. by rewrite !app_nil_r.
  - cbn [forallb] in Hall. apply andb_prop in Hall as [Hr Hall].
    cbn [get_loop].
    erewrite bind_ok; [|by eapply id_idxs_ok].
    rewrite Hd. erewrite bind_ok; [|reflexivity].
    erewrite bind_ok; [|unfold lift; by erewrite read_rows_readable].
    rewrite (IH Hall). unfold warnings. cbn [List.map List.filter group_ranges].
    rewrite <- !app_assoc. cbn [app].
    by destruct (unresolved mode fp id).
Qed.

(** Each range of [group_ranges] selects, from the concatenation, the
    list it stands for. *)
Lemma group_ranges_select {A} (rs : list (list A)) :
  forall (pre : list A) (i : nat) (r : list A),
    rs !! i = Some r ->
    exists g,
      group_ranges (length pre) (List.map (@length A) rs) !! i = Some g
      /\ g = List.seq (length (pre ++ concat (take i rs))) (length r)
      /\ List.map (fun j => (pre ++ concat rs) !! j) g = List.map Some r.
Proof.
  induction rs as [|r0 rs IH]; intros pre i r Hi; [done|].
  destruct i as [|i].
  - injection Hi as ->. eexists. split; [reflexivity|].
    cbn [take concat]. rewrite app_nil_r. split; [done|].
    cbn [concat]. rewrite app_assoc.
    generalize (concat rs). intros tl. clear IH.
    induction r as [|x r IHr] using rev_ind; [done|].
    rewrite length_app. cbn [length]. rewrite Nat.add_1_r, seq_S, !List.map_app.
    cbn [List.map]. f_equal.
    + rewrite <- IHr. apply List.map_ext_in. intros j Hj%in_seq.
      rewrite (app_assoc pre r [x]), <- app_assoc.
      rewrite !(lookup_app_l (pre ++ r)) by (rewrite length_app; lia). done.
    + f_equal. rewrite (app_assoc pre r [x]), <- app_assoc.
      rewrite lookup_app_r by (rewrite length_app; lia).
      rewrite length_app. by replace (_ - _)%nat with 0%nat by lia.
  - cbn [lookup list_lookup] in Hi.
    destruct (IH (pre ++ r0) i r Hi) as (g & Hg & Hseq & Hsel).
    exists g. cbn [List.map group_ranges]. rewrite length_app in Hg.
    split; [done|]. cbn [take concat]. rewrite <- !app_assoc in *. done.
Qed.

Lemma length_rows_at d idxs : length (rows_at fill d idxs) = length idxs.
Proof. unfold rows_at. apply length_map. Qed.

(** C3, as the code has it.  For a non-empty list of identifiers that can
    be looked up, on a file that keeps the invariant of the store and
    whose id group for the mode exists, [_get_vectors] returns the vectors of the identifiers concatenated in
    request order, each identifier resolved by the table ([FIRSTP]: the
    first offset of the document's list; [MAXP], [AVEP]: all of them in
    stored order; [PASSAGE]: the one offset of the passage), and
    [groups[i]] is the run of consecutive positions of the vectors of
    [ids[i]] in the result, empty (with a warning logged) when the
    identifier is not there. *)
Theorem C3_get_vectors_concatenates_in_request_order self w fp d ids :
  fs w !! _index_file self = Some fp ->
  vectors fp = Some d ->
  store_ok fp ->
  ids <> [] ->
  group_present (mode self) fp = true ->
  forallb (lookable (mode self) fp) ids = true ->
  let vs := concat (List.map (fun id => rows_at fill d (resolve (mode self) fp id)) ids) in
  let groups := group_ranges 0 (List.map (fun id => length (resolve (mode self) fp id)) ids) in
  _get_vectors fill self ids w
  = (mkWorld (fs w) (log w ++ warnings (mode self) fp ids), Ok (vs, groups))
  /\ forall (i : nat) id,
      ids !! i = Some id ->
      exists g,
        groups !! i = Some g
        /\ List.map (fun j => vs !! j) g
           = List.map Some (rows_at fill d (resolve (mode self) fp id))
        /\ (unresolved (mode self) fp id = true -> g = []).
Proof.
  intros Hfp Hd Hok Hne Hg Hlook vs groups.
  assert (forallb (readable (mode self) fp d) ids = true) as Hall.
  { apply forallb_forall. intros id Hid. apply (lookable_readable _ _ _ _ Hd Hok).
    by apply (proj1 (forallb_forall _ _) Hlook). }
  split.
  - rewrite (_get_vectors_eq _ _ _ _ Hfp). unfold _get_vectors_fp.
    erewrite bind_ok; [|by eapply get_loop_ok].
    cbn [fst snd app]. unfold np_concatenate, lift, bind, ret.
    destruct ids; [done|]. reflexivity.
  - intros i id Hi.
    destruct (group_ranges_select
                (List.map (fun id => rows_at fill d (resolve (mode self) fp id)) ids)
                [] i (rows_at fill d (resolve (mode self) fp id)))
      as (g & Hgi & Hseq & Hsel).
    { change (List.map ?f ids) with (f <$> ids). by rewrite list_lookup_fmap, Hi. }
    exists g. rewrite List.map_map in Hgi.
    erewrite List.map_ext in Hgi; [|intros; apply length_rows_at].
    split; [done|]. split; [done|].
    intros Hun. rewrite Hseq, length_rows_at.
    replace (resolve (mode self) fp id) with (@nil Z); [done|].
    unfold unresolved, resolve in *.
    destruct (mode self); [destruct (psg_lookup fp id) | destruct (doc_lookup fp id)
                           | destruct (doc_lookup fp id) | destruct (doc_lookup fp id)];
      done.
Qed.
End StoreTheorems.

(** ** Properties of sequential coalescing *)

Section CoalesceFacts.
Context {V D : Type}.
Context (np_mean : list V -> V) (np_empty : V).
Context (distance_function : V -> V -> D) (ge : D -> D -> bool) (delta : D).

Local Abbreviation loop := (coalesce_loop np_mean distance_function ge delta).
Local Abbreviation coalesce := (_coalesce np_mean np_empty distance_function ge delta).
Local Abbreviation greedy_from := (clusters_from np_mean distance_function ge delta).
Local Abbreviation greedy := (clusters np_mean distance_function ge delta).

(** Past its first iteration the loop holds the current cluster in [A]
    and its mean in [A_avg]; what it appends to [P_new] are the means of
    the clusters still to come. *)
Lemma coalesce_loop_clusters (rest : list V) :
  forall (cur P_new : list V),
    loop rest P_new cur (np_mean cur) false
    = P_new ++ List.map np_mean (greedy_from cur rest).
Proof.
  induction rest as [|v rest IH]; intros cur P_new; [done|].
  cbn [coalesce_loop clusters_from].
  destruct (ge (distance_function v (np_mean cur)) delta).
  - cbn [app List.map]. rewrite IH. by rewrite <- app_assoc.
  - apply IH.
Qed.

Lemma concat_clusters_from (rest cur : list V) :
  concat (greedy_from cur rest) = cur ++ rest.
Proof.
  revert cur. induction rest as [|v rest IH]; intros cur.
  - cbn. by rewrite !app_nil_r.
  - cbn [clusters_from].
    destruct (ge _ _); cbn [concat]; rewrite IH; [done|].
    by rewrite <- app_assoc.
Qed.

Lemma clusters_from_nonempty (rest cur : list V) :
  cur <> [] -> Forall (fun c => c <> []) (greedy_from cur rest).
Proof.
  revert cur. induction rest as [|v rest IH]; intros cur Hcur.
  - by constructor.
  - cbn [clusters_from]. destruct (ge _ _).
    + constructor; [done|]. by apply IH.
    + apply IH. by destruct cur.
Qed.

Lemma length_clusters_from (rest cur : list V) :
  (1 <= length (greedy_from cur rest) <= 1 + length rest)%nat.
Proof.
  revert cur. induction rest as [|v rest IH]; intros cur; [cbn; lia|].
  cbn [clusters_from length]. destruct (ge _ _).
  - specialize (IH [v]). cbn [length]. lia.
  - specialize (IH (cur ++ [v])). lia.
Qed.

(** [_coalesce] always emits something, also for no vector at all. *)
Lemma _coalesce_nonempty (P : list V) : coalesce P <> [].
Proof.
  unfold _coalesce. destruct P as [|v P].
  - done.
  - cbn [coalesce_loop app]. rewrite coalesce_loop_clusters. cbn [app].
    pose proof (length_clusters_from P [v]) as Hl.
    destruct (greedy_from [v] P); cbn in *; [lia | done].
Qed.

(** C4.  The vectors [_coalesce] emits for the vectors [P] of a document
    are the means of the clusters of one pass over [P] from left to
    right: a cluster is closed, and a new one started with [v], exactly
    when [distance_function(v, mean of the cluster) >= delta]; otherwise
    [v] joins the cluster, whose mean is taken over all its vectors.  The
    clusters split [P] in order, none is empty, the mean of the last one
    is emitted too, and so [n >= 1] vectors give between [1] and [n]. *)
Theorem C4_coalesce_emits_cluster_means (P : list V) :
  P <> [] ->
  _coalesce np_mean np_empty distance_function ge delta P
  = List.map np_mean (clusters np_mean distance_function ge delta P)
  /\ concat (clusters np_mean distance_function ge delta P) = P
  /\ Forall (fun c => c <> []) (clusters np_mean distance_function ge delta P)
  /\ (1 <= length (_coalesce np_mean np_empty distance_function ge delta P)
       <= length P)%nat.
Proof.
  intros HP. destruct P as [|v P]; [done|].
  assert (coalesce (v :: P) = List.map np_mean (greedy (v :: P))) as Heq.
  { unfold _coalesce, clusters. cbn [coalesce_loop app].
    by rewrite coalesce_loop_clusters. }
  split; [done|]. split; [apply concat_clusters_from|].
  split; [by apply clusters_from_nonempty|].
  rewrite Heq, length_map. unfold clusters. cbn [length].
  pose proof (length_clusters_from P [v]). lia.
Qed.
End CoalesceFacts.

Section CoalescingTheorems.
Context {V D : Type}.
Context (np_mean : list V -> V) (np_empty : V).
Context (distance_function : V -> V -> D) (ge : D -> D -> bool) (delta : D).
Context {I W : Type}.
Context (doc_ids : I -> W -> result (gset string)).
Context (get_vectors : I -> list string -> M W (list V * list (list nat))).
Context (add : I -> list V -> list string -> M W unit).
Context (set_iter : gset string -> list string).

Local Abbreviation coalesce := (_coalesce np_mean np_empty distance_function ge delta).
Local Abbreviation rdoc := (rec_doc_ids (V:=V) doc_ids).
Local Abbreviation rget := (rec_get_vectors get_vectors).
Local Abbreviation radd := (rec_add add).
Local Abbreviation rloop :=
  (coalesce_docs np_mean np_empty distance_function ge delta rget radd).
Local Abbreviation discipline :=
  (loop_discipline np_mean np_empty distance_function ge delta).
Local Abbreviation produced := (emitted np_mean np_empty distance_function ge delta).

Lemma flushes_app (t1 t2 : list (@event V)) :
  flushes (t1 ++ t2) = flushes t1 ++ flushes t2.
Proof. unfold flushes. apply omap_app. Qed.

Lemma emitted_app (t1 t2 : list (@event V)) :
  produced (t1 ++ t2) = produced t1 ++ produced t2.
Proof. unfold emitted. apply omap_app. Qed.

Lemma fetched_app (t1 t2 : list (@event V)) :
  fetched (t1 ++ t2) = fetched t1 ++ fetched t2.
Proof. unfold fetched. by rewrite omap_app, concat_app. Qed.

Lemma trace_flush (v : list V) d (tr : list (@event V)) :
  flushes (Flush v d :: tr) = (v, d) :: flushes tr
  /\ produced (Flush v d :: tr) = produced tr
  /\ fetched (Flush v d :: tr) = fetched tr.
Proof. done. Qed.

Lemma trace_fetch ids (v_old : list V) (tr : list (@event V)) :
  flushes (Fetch ids v_old :: tr) = flushes tr
  /\ produced (Fetch ids v_old :: tr)
     = (coalesce v_old,
        concat (List.map (replicate (length (coalesce v_old))) ids)) :: produced tr
  /\ fetched (Fetch ids v_old :: tr) = ids ++ fetched tr.
Proof. done. Qed.

(** The loop over the documents, on the recording interface. *)
Lemma coalesce_docs_trace (source_index target_index : I) (bs : Z) (ids : list string) :
  forall acc_v acc_d s st res,
    bs <> 0 \/ ids = [] ->
    rloop source_index target_index bs ids acc_v acc_d s = (st, res) ->
    exists ev,
      snd st = snd s ++ ev
      /\ forall v d,
          res = Ok (v, d) ->
          discipline bs (length acc_v) ev = Some (length v)
          /\ concat (List.map fst (flushes ev)) ++ v
             = acc_v ++ concat (List.map fst (produced ev))
          /\ concat (List.map snd (flushes ev)) ++ d
             = acc_d ++ concat (List.map snd (produced ev))
          /\ fetched ev = ids
          /\ (length acc_v = length acc_d -> length v = length d).
Proof.
  induction ids as [|doc_id rest IH]; intros acc_v acc_d s st res Hbs Hrun.
  - injection Hrun as <- <-. exists []. rewrite app_nil_r. split; [done|].
    intros v d [= <- <-]. cbn. by rewrite !app_nil_r.
  - destruct Hbs as [Hbs|]; [|done].
    cbn [coalesce_docs] in Hrun. unfold bind at 1 in Hrun.
    destruct (Z.of_nat (length acc_v) =? bs) eqn:Hfull.
    + unfold bind at 1, rec_add at 1 in Hrun.
      destruct (add target_index acc_v acc_d (fst s)) as [w1 [[]|e]].
      2:{ injection Hrun as <- <-. eexists. split; [reflexivity|]. done. }
      unfold ret at 1 in Hrun. cbn [fst snd] in Hrun.
      unfold bind at 1, rec_get_vectors at 1 in Hrun. cbn [fst snd] in Hrun.
      destruct (get_vectors source_index [doc_id] w1) as [w2 [r|e]].
      2:{ injection Hrun as <- <-. eexists. split; [|done]. cbn [snd].
          rewrite app_nil_r. reflexivity. }
      destruct (IH _ _ _ _ _ (or_introl Hbs) Hrun) as (ev & Hev & Hok).
      exists (Flush acc_v acc_d :: Fetch [doc_id] (fst r) :: ev). split.
      { rewrite Hev. cbn [snd]. by rewrite <- !app_assoc. }
      intros v d Hres. destruct (Hok v d Hres) as (Hd & Hv & Hi & Hf & Hlen).
      cbn [loop_discipline]. rewrite Nat.eqb_refl.
      apply Z.eqb_eq in Hfull as Hfull'. rewrite <- Hfull' at 1.
      rewrite Z.leb_refl. cbn [andb].
      destruct (Z.eqb_spec (Z.of_nat 0) bs) as [H0|_]; [by subst bs|].
      cbn [app length Nat.add] in *. rewrite Hd.
      split; [done|].
      destruct (trace_flush acc_v acc_d (Fetch [doc_id] (fst r) :: ev)) as (-> & -> & ->).
      destruct (trace_fetch [doc_id] (fst r) ev) as (-> & -> & ->).
      cbn [List.map concat fst snd app]. rewrite app_nil_r.
      rewrite <- !app_assoc, Hv, Hi, Hf. repeat split; try done.
      intros _. apply Hlen. by rewrite length_replicate.
    + unfold ret at 1 in Hrun.
      unfold bind at 1, rec_get_vectors at 1 in Hrun. cbn [fst snd] in Hrun.
      destruct (get_vectors source_index [doc_id] (fst s)) as [w2 [r|e]].
      2:{ injection Hrun as <- <-. eexists. split; [|done]. cbn [snd].
          reflexivity. }
      destruct (IH _ _ _ _ _ (or_introl Hbs) Hrun) as (ev & Hev & Hok).
      exists (Fetch [doc_id] (fst r) :: ev). split.
      { rewrite Hev. cbn [snd]. by rewrite <- !app_assoc. }
      intros v d Hres. destruct (Hok v d Hres) as (Hd & Hv & Hi & Hf & Hlen).
      cbn [loop_discipline]. rewrite Hfull. rewrite length_app in Hd. rewrite Hd.
      split; [done|].
      destruct (trace_fetch [doc_id] (fst r) ev) as (-> & -> & ->).
      cbn [List.map concat fst snd app]. rewrite app_nil_r.
      rewrite Hv, Hi, Hf. rewrite <- !app_assoc. repeat split; try done.
      intros Hl. apply Hlen. rewrite !length_app, length_replicate. lia.
Qed.

Lemma effective_batch_size_eq {W'} (ids_of : I -> W' -> result (gset string))
    (source_index : I) (batch_size : option Z) (s : W') (s0 : gset string) :
  ids_of source_index s = Ok s0 ->
  effective_batch_size ids_of source_index batch_size s
  = (s, Ok (batch_size_in_force batch_size s0)).
Proof.
  intros Hs. unfold effective_batch_size, batch_size_in_force, bind, read, ret.
  destruct batch_size as [b|]; [destruct (b =? 0)|]; by rewrite ?Hs.
Qed.

Lemma set_iter_empty (s : gset string) :
  (forall s, set_iter s ≡ₚ elements s) -> size s = 0%nat -> set_iter s = [].
Proof.
  intros Hperm Hsz. apply size_empty_iff in Hsz.
  apply Permutation_nil_r. rewrite Hperm.
  apply leibniz_equiv in Hsz. subst s. by rewrite elements_empty.
Qed.

(** C5, as the code has it.  On the recording interface, for a run that
    completes: with [bs] the batch size in force (the one given, or the
    number of source documents when it is [None] or [0]), the trace is
    the events of the loop, which keep the discipline (a flush writes all
    that is pending, and not before [bs] vectors are pending; no document
    is fetched with exactly [bs] vectors pending), followed by one last
    flush of what is still pending, if anything.  Each document is fetched once, in
    iteration order, and the flushed vectors and doc ids are the produced
    ones, in order. *)
Theorem C5_flushes_follow_the_batch_size
    (source_index target_index : I) (batch_size : option Z) (w : W) st :
  (forall s, set_iter s ≡ₚ elements s) ->
  create_coalesced_index np_mean np_empty distance_function ge delta
    rdoc rget radd set_iter source_index target_index batch_size (w, [])
  = (st, Ok tt) ->
  exists s ev last,
    doc_ids source_index w = Ok s
    /\ snd st = ev ++ last
    /\ discipline (batch_size_in_force batch_size s) 0 ev
       = Some (length (concat (List.map fst (flushes last))))
    /\ (last = [] \/ exists v d, last = [Flush v d] /\ v <> [])
    /\ fetched (snd st) = set_iter s
    /\ concat (List.map fst (flushes (snd st)))
       = concat (List.map fst (produced (snd st)))
    /\ concat (List.map snd (flushes (snd st)))
       = concat (List.map snd (produced (snd st))).
Proof.
  intros Hperm Hrun. unfold create_coalesced_index in Hrun.
  unfold bind at 1 in Hrun.
  destruct (coalesce_all _ _ _ _ _ _ _ _ _ _ _ _ _) as [st1 [[]|e]] eqn:Hall;
    [|done].
  assert (st = st1) as ->.
  { unfold bind, read, assert in Hrun.
    destruct (rdoc source_index st1); [|by injection Hrun].
    destruct (rdoc target_index st1); [|by injection Hrun].
    destruct (bool_decide _); by injection Hrun. }
  clear Hrun. unfold coalesce_all in Hall.
  unfold bind at 1, read at 1 in Hall.
  destruct (rdoc target_index (w, [])) as [t|]; [|done].
  unfold bind at 1, assert at 1 in Hall.
  destruct (bool_decide (size t = 0%nat)); [|done]. unfold ret at 1 in Hall.
  destruct (doc_ids source_index w) as [s|e] eqn:Hs.
  2:{ exfalso. unfold bind at 1 in Hall.
      unfold effective_batch_size, bind, read, rec_doc_ids, ret in Hall.
      destruct batch_size as [b|]; [destruct (b =? 0)|];
        cbn [fst] in Hall; rewrite Hs in Hall; done. }
  exists s.
  erewrite bind_ok in Hall; [|by apply (effective_batch_size_eq _ _ _ _ s)].
  unfold bind at 1, read at 1, rec_doc_ids at 1 in Hall. cbn [fst] in Hall.
  rewrite Hs in Hall. unfold bind at 1 in Hall.
  destruct (rloop _ _ _ _ _ _ _) as [st2 [[v d]|e]] eqn:Hloop; [|done].
  apply coalesce_docs_trace in Hloop as (ev & Hev & Hok).
  2:{ destruct (Z.eqb_spec (batch_size_in_force batch_size s) 0) as [H0|]; [|by left].
      right. apply set_iter_empty; [done|].
      unfold batch_size_in_force in H0.
      destruct batch_size as [b|]; [destruct (Z.eqb_spec b 0)|]; lia. }
  destruct (Hok v d eq_refl) as (Hd & Hv & Hi & Hf & Hlen). clear Hok.
  specialize (Hlen eq_refl).
  cbn [snd app length fst] in *.
  destruct (0 <? length v)%nat eqn:Hpos.
  - unfold rec_add in Hall.
    destruct (add target_index v d (fst st2)) as [w3 r3].
    injection Hall as <- Hr3. cbn [snd]. rewrite Hev.
    exists ev, [Flush v d]. split; [done|]. split; [done|].
    split.
    { change (flushes [Flush v d]) with [(v, d)]. cbn [List.map concat fst].
      by rewrite app_nil_r. }
    split.
    { right. exists v, d. split; [done|]. apply Nat.ltb_lt in Hpos.
      destruct v; [cbn in Hpos; lia | done]. }
    rewrite fetched_app, flushes_app, emitted_app, !List.map_app, !concat_app.
    change (flushes [Flush v d]) with [(v, d)].
    change (produced [Flush v d]) with (@nil (list V * list string)).
    change (fetched [Flush v d]) with (@nil string).
    cbn [concat List.map fst snd]. rewrite !app_nil_r. done.
  - injection Hall as <-. rewrite Hev.
    apply Nat.ltb_ge in Hpos. assert (v = []) as -> by (destruct v; [done|cbn in Hpos; lia]).
    exists ev, []. rewrite !app_nil_r in *. split; [done|]. split; [done|].
    split; [done|]. split; [by left|]. split; [done|]. split; [done|].
    assert (d = []) as -> by (by destruct d).
    by rewrite app_nil_r in Hi.
Qed.

Lemma erases_ret {A} (a : A) : erases (V:=V) (W:=W) (ret a) (ret a).
Proof. done. Qed.

Lemma erases_bind {A B} (m' : M (W * list (@event V)) A) (m : M W A)
    (k' : A -> M (W * list (@event V)) B) (k : A -> M W B) :
  erases m' m -> (forall a, erases (k' a) (k a)) -> erases (bind m' k') (bind m k).
Proof.
  intros Hm Hk s. unfold bind. destruct (Hm s) as [Hw Hr].
  destruct (m' s) as [s1 r1], (m (fst s)) as [w1 r2]. cbn [fst snd] in *. subst.
  destruct r2 as [a|e]; [|done]. apply Hk.
Qed.

Lemma erases_read (i : I) : erases (read (rdoc i)) (read (doc_ids i)).
Proof. done. Qed.

Lemma erases_assert (b : bool) : erases (V:=V) (W:=W) (assert b) (assert b).
Proof. by destruct b. Qed.

Lemma erases_get (i : I) ids : erases (rget i ids) (get_vectors i ids).
Proof.
  intros s. unfold rec_get_vectors. by destruct (get_vectors i ids (fst s)).
Qed.

Lemma erases_add (i : I) v d : erases (radd i v d) (add i v d).
Proof.
  intros s. unfold rec_add. by destruct (add i v d (fst s)).
Qed.

Lemma erases_coalesce_docs (source_index target_index : I) bs ids :
  forall acc_v acc_d,
    erases (rloop source_index target_index bs ids acc_v acc_d)
           (coalesce_docs np_mean np_empty distance_function ge delta
              get_vectors add source_index target_index bs ids acc_v acc_d).
Proof.
  induction ids as [|doc_id rest IH]; intros acc_v acc_d; [apply erases_ret|].
  cbn [coalesce_docs]. apply erases_bind.
  - destruct (_ =? _); [|apply erases_ret].
    apply erases_bind; [apply erases_add | intros; apply erases_ret].
  - intros acc. apply erases_bind; [apply erases_get | intros; apply IH].
Qed.

(** Recording changes nothing: the run on the recording interface leaves
    the world, and returns, what [create_coalesced_index] itself does. *)
Lemma recording_erases (source_index target_index : I) (batch_size : option Z) :
  erases (create_coalesced_index np_mean np_empty distance_function ge delta
            rdoc rget radd set_iter source_index target_index batch_size)
         (create_coalesced_index np_mean np_empty distance_function ge delta
            doc_ids get_vectors add set_iter source_index target_index batch_size).
Proof.
  unfold create_coalesced_index, coalesce_all, effective_batch_size.
  repeat first
    [ apply erases_read | apply erases_assert | apply erases_ret
    | apply erases_add | apply erases_coalesce_docs
    | apply erases_bind; [|intros ?]
    | match goal with
      | |- erases (match ?x with _ => _ end) _ => destruct x
      | |- erases (if ?x then _ else _) _ => destruct x
      end ].
Qed.

(** C9.  Coalescing into a target that holds a document raises the
    assertion error of the first line before anything else is done: the
    world, and so the target, is as before.  When coalescing completes,
    the target was empty and the document ids of source and target are
    the same set; and when everything up to the last flush has succeeded
    and the two sets differ, the assertion of the last line raises.  All
    this for every [delta] (and every distance function). *)
Theorem C9_target_must_be_empty_and_doc_ids_agree
    (source_index target_index : I) (batch_size : option Z) (w : W) :
  (forall t, doc_ids target_index w = Ok t -> size t <> 0%nat ->
     create_coalesced_index np_mean np_empty distance_function ge delta
       doc_ids get_vectors add set_iter source_index target_index batch_size w
     = (w, Raise AssertionError))
  /\ (forall w',
        create_coalesced_index np_mean np_empty distance_function ge delta
          doc_ids get_vectors add set_iter source_index target_index batch_size w
        = (w', Ok tt) ->
        doc_ids target_index w = Ok ∅
        /\ exists s, doc_ids source_index w' = Ok s /\ doc_ids target_index w' = Ok s)
  /\ (forall w1 s t,
        coalesce_all np_mean np_empty distance_function ge delta
          doc_ids get_vectors add set_iter source_index target_index batch_size w
        = (w1, Ok tt) ->
        doc_ids source_index w1 = Ok s -> doc_ids target_index w1 = Ok t ->
        s <> t ->
        create_coalesced_index np_mean np_empty distance_function ge delta
          doc_ids get_vectors add set_iter source_index target_index batch_size w
        = (w1, Raise AssertionError)).
Proof.
  split; [|split].
  - intros t Ht Hsize. unfold create_coalesced_index, coalesce_all.
    unfold bind at 1. unfold bind at 1, read at 1. rewrite Ht.
    unfold bind at 1, assert at 1. by rewrite bool_decide_eq_false_2.
  - intros w' Hrun. unfold create_coalesced_index in Hrun.
    unfold bind at 1 in Hrun.
    destruct (coalesce_all _ _ _ _ _ _ _ _ _ _ _ _ _) as [w1 [[]|e]] eqn:Hall;
      [|done].
    split.
    + unfold coalesce_all in Hall. unfold bind at 1, read at 1 in Hall.
      destruct (doc_ids target_index w) as [t|]; [|done].
      unfold bind at 1, assert at 1 in Hall.
      destruct (bool_decide_reflect (size t = 0%nat)) as [Hz|]; [|done].
      apply size_empty_iff, leibniz_equiv in Hz. by subst t.
    + unfold bind, read, assert in Hrun.
      destruct (doc_ids source_index w1) as [s|] eqn:Hs; [|done].
      destruct (doc_ids target_index w1) as [t|] eqn:Ht; [|done].
      destruct (bool_decide_reflect (s = t)) as [->|]; [|done].
      injection Hrun as <-. exists t. by rewrite Hs, Ht.
  - intros w1 s t Hall Hs Ht Hne. unfold create_coalesced_index.
    rewrite (bind_ok _ _ _ _ _ Hall). unfold bind, read, assert.
    rewrite Hs, Ht. by rewrite bool_decide_eq_false_2.
Qed.
End CoalescingTheorems.

(** ** A failed append *)

Section FailedAppend.
Context {V : Type} (fill : V).
Implicit Types (d : @Dataset V) (fp : @H5File V) (w : World V).

(** The id loop of an append that raises has recorded every pair before
    the one it fails on. *)
Lemma add_ids_raise_split cur (pairs : list (option string * option string)) :
  forall i fp fp' e,
    add_ids cur i pairs fp = (fp', Raise e) ->
    exists recorded bad rest fp1,
      pairs = recorded ++ bad :: rest
      /\ add_ids cur i recorded fp = (fp1, Ok tt)
      /\ add_ids cur (i + Z.of_nat (length recorded)) [bad] fp1 = (fp', Raise e).
Proof.
  induction pairs as [|[doc_id psg_id] rest IH]; intros i fp fp' e Hrun; [done|].
  cbn [add_ids] in Hrun.
  set (doc_step := match doc_id with
                   | Some d0 => (ds <- require_doc (h5_path d0);;
                                 assign_doc (h5_path d0) (ds ++ [cur + i]))%M
                   | None => ret tt end) in *.
  set (psg_step := match psg_id with
                   | Some p => (_ <- require_psg (h5_path p);;
                                assign_psg (h5_path p) (cur + i))%M
                   | None => ret tt end) in *.
  assert (forall fp0, add_ids cur i [(doc_id, psg_id)] fp0
                      = bind doc_step (fun _ => bind psg_step (fun _ => ret tt)) fp0)
    as Hone by done.
  unfold bind at 1 in Hrun.
  destruct (doc_step fp) as [fp2 [[]|e2]] eqn:Hdoc.
  2:{ injection Hrun as <- <-. exists [], (doc_id, psg_id), rest, fp.
      split; [done|]. split; [done|]. rewrite Z.add_0_r, Hone.
      by rewrite (bind_raise _ _ _ _ _ Hdoc). }
  unfold bind at 1 in Hrun.
  destruct (psg_step fp2) as [fp3 [[]|e3]] eqn:Hpsg.
  2:{ injection Hrun as <- <-. exists [], (doc_id, psg_id), rest, fp.
      split; [done|]. split; [done|]. rewrite Z.add_0_r, Hone.
      rewrite (bind_ok _ _ _ _ _ Hdoc). by rewrite (bind_raise _ _ _ _ _ Hpsg). }
  destruct (IH _ _ _ _ Hrun) as (recorded & bad & rest' & fp1 & -> & Hrec & Hbad).
  exists ((doc_id, psg_id) :: recorded), bad, rest', fp1.
  split; [done|]. split.
  - cbn [add_ids]. fold doc_step psg_step.
    rewrite (bind_ok _ _ _ _ _ Hdoc), (bind_ok _ _ _ _ _ Hpsg). done.
  - cbn [length]. by replace (i + Z.of_nat (S (length recorded)))
      with (i + 1 + Z.of_nat (length recorded)) by lia.
Qed.

(** [_add] is its vector part followed by the id loop. *)
Lemma _add_fp_split r vecs (doc_ids psg_ids : list (option string)) fp :
  _add_fp fill r vecs doc_ids psg_ids fp
  = bind (_add_vectors_fp fill r vecs)
         (fun cur => add_ids cur 0 (zip doc_ids psg_ids)) fp.
Proof.
  assert (forall {A B C} (m : M (@H5File V) A) (k : A -> M (@H5File V) B)
                 (h : B -> M (@H5File V) C) (k' : A -> M (@H5File V) C) s,
             (forall a s', k' a s' = bind (k a) h s') ->
             bind m k' s = bind (bind m k) h s) as Hstep.
  { intros A B C m k h k' s Hk.
    change (bind m k' s) with (match m s with
                               | (s', Ok a) => k' a s'
                               | (s', Raise e) => (s', Raise e)
                               end).
    change (bind (bind m k) h s)
      with (match (match m s with
                   | (s', Ok a) => k a s'
                   | (s', Raise e) => (s', Raise e)
                   end) with
            | (s', Ok b) => h b s'
            | (s', Raise e) => (s', Raise e)
            end).
    destruct (m s) as [s' [a|e]]; [apply Hk | done]. }
  unfold _add_fp, _add_vectors_fp. cbv zeta.
  apply Hstep. intros d s1. apply Hstep. intros [] s2.
  apply Hstep. intros [] s3. apply Hstep. intros d' s4.
  apply Hstep. intros [] s5. done.
Qed.

Lemma _add_vectors_fp_eq r vecs fp d :
  vectors fp = Some d ->
  0 <= num_vectors d ->
  _add_vectors_fp fill r vecs fp
  = (set_dataset (appended fill r vecs d) fp, Ok (num_vectors d)).
Proof.
  intros Hd H0.
  destruct (grown_prefix fill r (length vecs) d H0) as (pad & Hg & Hlen).
  unfold _add_vectors_fp, appended.
  rewrite (bind_ok _ _ _ _ _ (fp_vectors_ok _ _ Hd)).
  unfold grown in *.
  destruct (Z.of_nat (length vecs) >? capacity d - num_vectors d) eqn:Hgt.
  - erewrite bind_ok; [|apply (resize_ok fill _ _ d Hd); lia].
    erewrite bind_ok; [|eapply write_rows_ok; [done|done|]]; cycle 1.
    { unfold capacity at 1. cbn [data]. rewrite Hg. lia. }
    erewrite bind_ok; [|by apply fp_vectors_ok].
    erewrite bind_ok; [|by eapply set_num_vectors_ok].
    reflexivity.
  - erewrite bind_ok; [|reflexivity].
    assert (pad = []) as -> by (apply (app_inv_head (data d)); rewrite app_nil_r; done).
    rewrite app_nil_r in *.
    erewrite bind_ok; [|eapply write_rows_ok; [done|done|]]; cycle 1.
    { unfold capacity. lia. }
    erewrite bind_ok; [|by apply fp_vectors_ok].
    erewrite bind_ok; [|by eapply set_num_vectors_ok].
    reflexivity.
Qed.

(** C8, as the code has it.  An append that fails while it records
    identifiers is not undone.  On a store that keeps its invariant,
    when the vectors of the batch have been written and counted (the
    part of [_add] before the id loop has returned) and the id loop then
    raises: the append raises that exception, no slot below the old count
    has changed, the vectors of the batch are stored behind it, the count
    has grown by their number, and the identifiers of the pairs before
    the failing one are recorded.  A failure before the count is raised
    is not what this statement is about. *)
Theorem C8_failed_append_is_not_rolled_back
    (self : OnDiskIndex) w fp d (vecs : list V)
    (doc_ids psg_ids : list (option string)) fp1 cur e :
  fs w !! _index_file self = Some fp ->
  vectors fp = Some d ->
  count_ok d ->
  _add_vectors_fp fill (_resize_min_val self) vecs fp = (fp1, Ok cur) ->
  snd (add_ids cur 0 (zip doc_ids psg_ids) fp1) = Raise e ->
  snd (_add fill self vecs doc_ids psg_ids w) = Raise e
  /\ exists fp' d',
      fs (fst (_add fill self vecs doc_ids psg_ids w)) !! _index_file self = Some fp'
      /\ vectors fp' = Some d'
      /\ num_vectors d' = num_vectors d + Z.of_nat (length vecs)
      /\ (forall i : nat, (i < Z.to_nat (num_vectors d))%nat ->
                          data d' !! i = data d !! i)
      /\ take (Z.to_nat (num_vectors d')) (data d')
         = take (Z.to_nat (num_vectors d)) (data d) ++ vecs
      /\ exists recorded bad rest fp2,
          zip doc_ids psg_ids = recorded ++ bad :: rest
          /\ add_ids cur 0 recorded fp1 = (fp2, Ok tt)
          /\ add_ids cur (Z.of_nat (length recorded)) [bad] fp2 = (fp', Raise e).
Proof.
  intros Hfp Hd Hok Hvec Hloop.
  assert (_add fill self vecs doc_ids psg_ids w
          = (mkWorld (<[_index_file self
                        := fst (add_ids cur 0 (zip doc_ids psg_ids) fp1)]> (fs w))
                     (log w),
             snd (add_ids cur 0 (zip doc_ids psg_ids) fp1))) as ->.
  { unfold _add. rewrite (with_file_a_eq _ _ _ _ Hfp).
    by rewrite _add_fp_split, (bind_ok _ _ _ _ _ Hvec). }
  cbn [fst snd fs]. rewrite lookup_insert_eq. split; [done|].
  rewrite (_add_vectors_fp_eq _ _ _ _ Hd (proj1 Hok)) in Hvec.
  injection Hvec as <- <-.
  destruct (add_ids (num_vectors d) 0 (zip doc_ids psg_ids)
              (set_dataset (appended fill (_resize_min_val self) vecs d) fp))
    as [fp' r] eqn:Hids.
  cbn [fst snd] in *. subst r.
  exists fp', (appended fill (_resize_min_val self) vecs d).
  split; [done|]. split.
  { pose proof (add_ids_vectors (num_vectors d) 0 (zip doc_ids psg_ids)
                  (set_dataset (appended fill (_resize_min_val self) vecs d) fp)) as Hv.
    by rewrite Hids in Hv. }
  split; [done|].
  split; [intros i Hi; by apply appended_lookup_old|].
  split; [by apply appended_take|].
  destruct (add_ids_raise_split _ _ _ _ _ _ Hids) as (rec & bad & rest & fp2 & ? & ? & ?).
  exists rec, bad, rest, fp2. by rewrite Z.add_0_l in *.
Qed.
End FailedAppend.

(** ** The statements at concrete stores and runs *)

Import Examples.

Lemma C1_witness :
  snd (__init__ 0 version "/index.h5" 1 MAXP 4 2 false world0) = Ok ix
  /\ forallb is_ok (snd (add_batches 0 ix batches world1)) = true
  /\ snd (__len__ ix (fst (add_batches 0 ix batches world1))) = Ok 6
  /\ exists d,
      dataset_of (fst (add_batches 0 ix batches world1)) ix = Some d
      /\ read_rows 0 d (seqZ 0 6) = Ok [10; 11; 12; 13; 14; 15].
Proof.
  split; [vm_compute; reflexivity|]. split; [vm_compute; reflexivity|].
  destruct (C1_appends_are_counted_and_kept_in_order
              0 version world0 "/index.h5" 1 MAXP 4 2 false ix batches)
    as (Hlen & d & Hd & Hread & _).
  - vm_compute; reflexivity.
  - vm_compute; reflexivity.
  - split; [exact Hlen|]. exists d. split; [exact Hd | exact Hread].
Defined.

Lemma C2_witness :
  dataset_of world16 ix16 = Some (mkDataset sixteen 1 16)
  /\ count_ok (mkDataset sixteen 1 16)
  /\ exists d',
      dataset_of (fst (_add 0 ix16 twenty [] [] world16)) ix16 = Some d'
      /\ capacity d' = 36
      /\ take 16 (data d') = sixteen.
Proof.
  assert (dataset_of world16 ix16 = Some (mkDataset sixteen 1 16)) as Hd
    by (vm_compute; reflexivity).
  assert (count_ok (mkDataset sixteen 1 16)) as Hok by (vm_compute; split; discriminate).
  split; [exact Hd|]. split; [exact Hok|].
  destruct (C2_resize_keeps_stored_vectors 0 ix16 world16 (mkDataset sixteen 1 16)
              twenty [] [] Hd Hok) as (d' & Hd' & Hcap & _ & H16).
  - vm_compute; reflexivity.
  - exists d'. split; [exact Hd'|]. split; [exact Hcap|].
    apply H16; vm_compute; reflexivity.
Defined.

(** The resolution table of the specification, evaluated: a document at
    the offsets 5, 6, 7, a passage at offset 9, an identifier that is not
    there. *)
Example resolution_table :
  snd (_get_vectors 0 (with_mode FIRSTP) ["doc"; "nope"] table_world)
  = Ok ([50], [[0%nat]; []])
  /\ snd (_get_vectors 0 (with_mode MAXP) ["doc"; "nope"] table_world)
     = Ok ([50; 60; 70], [[0; 1; 2]%nat; []])
  /\ snd (_get_vectors 0 (with_mode AVEP) ["nope"; "doc"] table_world)
     = Ok ([50; 60; 70], [[]; [0; 1; 2]%nat])
  /\ snd (_get_vectors 0 (with_mode PASSAGE) ["psg"; "nope"] table_world)
     = Ok ([90], [[0%nat]; []])
  /\ resolve FIRSTP (file_of table_world "/index.h5") "doc" = [5]
  /\ resolve MAXP (file_of table_world "/index.h5") "doc" = [5; 6; 7]
  /\ resolve PASSAGE (file_of table_world "/index.h5") "psg" = [9]
  /\ log (fst (_get_vectors 0 (with_mode MAXP) ["doc"; "nope"] table_world))
     = ["no vectors for nope"].
Proof. vm_compute. repeat split. Qed.

Lemma C3_counterexample :
  ~ lookup_as_specified 0 (with_mode MAXP) table_world
      (file_of table_world "/index.h5") (vectors_of table_world "/index.h5") [].
Proof. unfold lookup_as_specified. vm_compute. discriminate. Qed.

Lemma C3_witness :
  fs table_world !! "/index.h5" = Some (file_of table_world "/index.h5")
  /\ vectors (file_of table_world "/index.h5") = Some (vectors_of table_world "/index.h5")
  /\ store_ok (file_of table_world "/index.h5")
  /\ ["doc"; "nope"; "other"] <> []
  /\ group_present MAXP (file_of table_world "/index.h5") = true
  /\ forallb (lookable MAXP (file_of table_world "/index.h5"))
       ["doc"; "nope"; "other"] = true
  /\ snd (_get_vectors 0 (with_mode MAXP) ["doc"; "nope"; "other"] table_world)
     = Ok ([50; 60; 70; 0], [[0; 1; 2]%nat; []; [3%nat]]).
Proof.
  assert (fs table_world !! "/index.h5" = Some (file_of table_world "/index.h5")) as Hfp
    by (vm_compute; reflexivity).
  assert (vectors (file_of table_world "/index.h5")
          = Some (vectors_of table_world "/index.h5")) as Hd
    by (vm_compute; reflexivity).
  assert (store_ok (file_of table_world "/index.h5")) as Hok
    by (apply (bool_decide_eq_true_1 (store_ok _)); vm_compute; reflexivity).
  assert (["doc"; "nope"; "other"] <> []) as Hne by discriminate.
  assert (group_present MAXP (file_of table_world "/index.h5") = true) as Hg
    by (vm_compute; reflexivity).
  assert (forallb (lookable MAXP (file_of table_world "/index.h5"))
            ["doc"; "nope"; "other"] = true) as Hall by (vm_compute; reflexivity).
  repeat (split; [assumption|]).
  pose proof (proj1 (C3_get_vectors_concatenates_in_request_order
                       0 (with_mode MAXP) table_world _ _ _ Hfp Hd Hok Hne Hg Hall)) as H.
  rewrite H. vm_compute. reflexivity.
Defined.

Lemma C4_witness :
  [0; 1 # 2; 5; 5; 9]%Q <> []
  /\ List.map Qred (_coalesce q_mean 0%Q q_dist q_ge 1%Q [0; 1 # 2; 5; 5; 9]%Q)
     = [1 # 4; 5; 9]%Q
  /\ clusters q_mean q_dist q_ge 1%Q [0; 1 # 2; 5; 5; 9]%Q
     = [[0; 1 # 2]; [5; 5]; [9]]%Q.
Proof.
  assert ([0; 1 # 2; 5; 5; 9]%Q <> []) as Hne by discriminate.
  split; [exact Hne|].
  destruct (C4_coalesce_emits_cluster_means q_mean 0%Q q_dist q_ge 1%Q
              [0; 1 # 2; 5; 5; 9]%Q Hne) as (Heq & _).
  rewrite Heq. split; vm_compute; reflexivity.
Defined.

Lemma C5_counterexample :
  (snd (coalesce_recorded None (qworld, [])) = Ok tt
   /\ ~ one_flush_at_the_end (snd (fst (coalesce_recorded None (qworld, []))))
   /\ flush_sizes (fst (coalesce_recorded None (qworld, []))) = [2; 2]%nat)
  /\ (snd (coalesce_recorded (Some 3) (qworld3, [])) = Ok tt
      /\ flushed_as_soon_as_full q_mean 0%Q q_dist q_ge 1%Q 3 0
           (snd (fst (coalesce_recorded (Some 3) (qworld3, [])))) = false
      /\ flush_sizes (fst (coalesce_recorded (Some 3) (qworld3, []))) = [6%nat]).
Proof.
  split.
  - split; [vm_compute; reflexivity|]. split; [|vm_compute; reflexivity].
    intros (ev & v & d & Htr & Hnone).
    assert (length (flushes (snd (fst (coalesce_recorded None (qworld, []))))) = 1%nat)
      as Hone.
    { rewrite Htr. unfold flushes in *. rewrite omap_app, Hnone. reflexivity. }
    vm_compute in Hone. discriminate.
  - repeat split; vm_compute; reflexivity.
Qed.

Lemma C5_witness :
  (forall s : gset string, elements s ≡ₚ elements s)
  /\ coalesce_recorded (Some 2) (qworld3, [])
     = (fst (coalesce_recorded (Some 2) (qworld3, [])), Ok tt)
  /\ flush_sizes (fst (coalesce_recorded (Some 2) (qworld3, []))) = [2; 2; 2]%nat
  /\ exists s ev last,
      ondisk_doc_ids source qworld3 = Ok s
      /\ snd (fst (coalesce_recorded (Some 2) (qworld3, []))) = ev ++ last
      /\ loop_discipline q_mean 0%Q q_dist q_ge 1%Q (batch_size_in_force (Some 2) s) 0 ev
         = Some (length (concat (List.map fst (flushes last)))).
Proof.
  assert (forall s : gset string, elements s ≡ₚ elements s) as Hperm by reflexivity.
  assert (coalesce_recorded (Some 2) (qworld3, [])
          = (fst (coalesce_recorded (Some 2) (qworld3, [])), Ok tt)) as Hrun
    by (vm_compute; reflexivity).
  split; [exact Hperm|]. split; [exact Hrun|]. split; [vm_compute; reflexivity|].
  destruct (C5_flushes_follow_the_batch_size q_mean 0%Q q_dist q_ge 1%Q
              ondisk_doc_ids (_get_vectors 0%Q) (ondisk_add 0%Q) elements
              source target (Some 2) qworld3 _ Hperm Hrun)
    as (s & ev & last & Hs & Htr & Hdisc & _).
  exists s, ev, last. split; [exact Hs|]. split; [exact Htr | exact Hdisc].
Defined.

Lemma C6_witness :
  fs world1 !! "/index.h5" = Some (file_of world1 "/index.h5")
  /\ group_present PASSAGE (file_of world1 "/index.h5") = false
  /\ _get_vectors 0 (with_mode PASSAGE) ["p1"; "p2"] world1 = (world1, Raise KeyError)
  /\ snd (_get_psg_ids (with_mode PASSAGE) world1) = Ok ∅.
Proof.
  assert (fs world1 !! "/index.h5" = Some (file_of world1 "/index.h5")) as Hfp
    by (vm_compute; reflexivity).
  assert (group_present PASSAGE (file_of world1 "/index.h5") = false) as Hg
    by (vm_compute; reflexivity).
  split; [exact Hfp|]. split; [exact Hg|]. split.
  - exact (C6_lookup_without_id_group_raises 0 (with_mode PASSAGE) world1 _
             "p1" ["p2"] Hfp Hg).
  - vm_compute; reflexivity.
Defined.

Lemma C7_counterexample :
  ~ load_refuses_missing "/nowhere.h5" PASSAGE 1024 world0
  /\ ~ load_refuses_unknown_layout "/empty.h5" PASSAGE 1024
         (mkWorld (<["/empty.h5" := empty_file]> ∅) [] : World Z).
Proof.
  split.
  - intros H. destruct H as [e He]; [vm_compute; reflexivity|]. discriminate He.
  - intros H. destruct (H empty_file) as [e He].
    + vm_compute; reflexivity.
    + by left.
    + discriminate He.
Qed.

Lemma C8_counterexample :
  ~ append_is_atomic 0 ix nested_world failing_vectors failing_doc_ids failing_psg_ids.
Proof.
  intros H. destruct (H TypeError) as (Hlen & _); [vm_compute; reflexivity|].
  vm_compute in Hlen. discriminate Hlen.
Qed.

Lemma C8_witness :
  fs nested_world !! "/index.h5" = Some (file_of nested_world "/index.h5")
  /\ vectors (file_of nested_world "/index.h5")
     = Some (vectors_of nested_world "/index.h5")
  /\ count_ok (vectors_of nested_world "/index.h5")
  /\ snd (_add_vectors_fp 0 2 failing_vectors (file_of nested_world "/index.h5")) = Ok 1
  /\ snd (add_ids 1 0 (zip failing_doc_ids failing_psg_ids)
            (fst (_add_vectors_fp 0 2 failing_vectors
                    (file_of nested_world "/index.h5"))))
     = Raise TypeError
  /\ snd (_add 0 ix failing_vectors failing_doc_ids failing_psg_ids nested_world)
     = Raise TypeError
  /\ exists fp' d',
      fs (fst (_add 0 ix failing_vectors failing_doc_ids failing_psg_ids nested_world))
        !! "/index.h5" = Some fp'
      /\ vectors fp' = Some d'
      /\ num_vectors d' = 3
      /\ take 3 (data d') = [10; 20; 30]
      /\ "c" ∈ _get_doc_ids_fp fp'.
Proof.
  assert (fs nested_world !! "/index.h5" = Some (file_of nested_world "/index.h5"))
    as Hfp by (vm_compute; reflexivity).
  assert (vectors (file_of nested_world "/index.h5")
          = Some (vectors_of nested_world "/index.h5")) as Hd
    by (vm_compute; reflexivity).
  assert (count_ok (vectors_of nested_world "/index.h5")) as Hok
    by (vm_compute; split; discriminate).
  assert (_add_vectors_fp 0 (_resize_min_val ix) failing_vectors
            (file_of nested_world "/index.h5")
          = (fst (_add_vectors_fp 0 2 failing_vectors
                    (file_of nested_world "/index.h5")), Ok 1)) as Hvec
    by (vm_compute; reflexivity).
  assert (snd (add_ids 1 0 (zip failing_doc_ids failing_psg_ids)
                 (fst (_add_vectors_fp 0 2 failing_vectors
                         (file_of nested_world "/index.h5"))))
          = Raise TypeError) as Hloop by (vm_compute; reflexivity).
  repeat (split; [assumption|]). split; [vm_compute; reflexivity|].
  split; [exact Hloop|].
  destruct (C8_failed_append_is_not_rolled_back 0 ix nested_world _ _
              failing_vectors failing_doc_ids failing_psg_ids _ _ TypeError
              Hfp Hd Hok Hvec Hloop)
    as (Hraise & fp' & d' & Hfp' & Hd' & Hn & _ & Ht & _).
  split; [exact Hraise|].
  assert (num_vectors d' = 3) as Hn3 by (rewrite Hn; vm_compute; reflexivity).
  exists fp', d'. split; [exact Hfp'|]. split; [exact Hd'|].
  split; [exact Hn3|]. split.
  - rewrite Hn3 in Ht. change (Z.to_nat 3) with 3%nat in Ht.
    rewrite Ht. vm_compute. reflexivity.
  - vm_compute in Hfp'. injection Hfp' as <-. vm_compute. reflexivity.
Defined.

Lemma C9_witness :
  (ondisk_doc_ids target qworld_taken = Ok {["old"]}
   /\ coalesce_on_disk None qworld_taken = (qworld_taken, Raise AssertionError))
  /\ (coalesce_on_disk None qworld = (fst (coalesce_on_disk None qworld), Ok tt)
      /\ ondisk_doc_ids target qworld = Ok ∅
      /\ exists s, ondisk_doc_ids source (fst (coalesce_on_disk None qworld)) = Ok s
                   /\ ondisk_doc_ids target (fst (coalesce_on_disk None qworld)) = Ok s).
Proof.
  destruct (C9_target_must_be_empty_and_doc_ids_agree q_mean 0%Q q_dist q_ge 1%Q
              ondisk_doc_ids (_get_vectors 0%Q) (ondisk_add 0%Q) elements
              source target None qworld_taken) as (Hpre & _).
  destruct (C9_target_must_be_empty_and_doc_ids_agree q_mean 0%Q q_dist q_ge 1%Q
              ondisk_doc_ids (_get_vectors 0%Q) (ondisk_add 0%Q) elements
              source target None qworld) as (_ & Hpost & _).
  assert (ondisk_doc_ids target qworld_taken = Ok {["old"]}) as Hold
    by (vm_compute; reflexivity).
  assert (coalesce_on_disk None qworld = (fst (coalesce_on_disk None qworld), Ok tt))
    as Hrun by (vm_compute; reflexivity).
  split.
  - split; [exact Hold|]. apply (Hpre _ Hold). vm_compute. discriminate.
  - split; [exact Hrun|]. exact (Hpost _ Hrun).
Defined.


(** ** The identifier index *)

Section NamespaceFacts.
Context {P : Type}.
Implicit Types (ns : gmap (list string) (node P)) (p q : list string).

Lemma add_groups_lookup (ps : list (list string)) ns p :
  add_groups ps ns !! p = ns !! p
  \/ (ns !! p = None /\ add_groups ps ns !! p = Some Grp).
Proof.
  unfold add_groups. revert ns. induction ps as [|a ps IH]; intros ns; [by left|].
  cbn [fold_left]. destruct (ns !! a) eqn:Ha; [apply IH|].
  destruct (IH (<[a := Grp]> ns)) as [Heq|[Hnone Hgrp]].
  - destruct (decide (a = p)) as [->|Hne].
    + right. by rewrite Heq, lookup_insert_eq.
    + left. by rewrite Heq, lookup_insert_ne.
  - destruct (decide (a = p)) as [->|Hne]; [by rewrite lookup_insert_eq in Hnone|].
    right. by rewrite lookup_insert_ne in Hnone.
Qed.

(** A dataset opened (or made) at [q] and then written: the payload read
    is the one stored before ([fresh] when there was none), the new one
    is stored at [q], every other dataset keeps its payload, and no
    object disappears. *)
Lemma require_assign_payload (fresh : P) q
    (g g' : option (gmap (list string) (node P))) (v v' : P) :
  require_dataset fresh q g = (g', Ok v) ->
  q <> []
  /\ v = default fresh (dset_payload (default ∅ g !! q))
  /\ dset_payload (default ∅ (assign q v' g') !! q) = Some v'
  /\ (forall p, p <> q ->
                dset_payload (default ∅ (assign q v' g') !! p)
                = dset_payload (default ∅ g !! p))
  /\ (forall p, is_Some (default ∅ g !! p) ->
                is_Some (default ∅ (assign q v' g') !! p)).
Proof.
  unfold require_dataset, assign. intros Hreq.
  destruct q as [|c q']; [by destruct g|].
  split; [done|].
  assert (match default ∅ g !! (c :: q') with
          | Some (Dset v0) => (Some (default ∅ g), Ok v0)
          | Some Grp => (Some (default ∅ g), Raise TypeError)
          | None =>
              if existsb (fun a => is_dset (default ∅ g !! a)) (ancestors (c :: q'))
              then (Some (default ∅ g),
                    Raise (if is_dset (default ∅ g !! removelast (c :: q'))
                           then TypeError else ValueError))
              else (Some (<[c :: q' := Dset fresh]>
                            (add_groups (ancestors (c :: q')) (default ∅ g))), Ok fresh)
          end = (g', Ok v)) as Hreq' by (by destruct g).
  clear Hreq. set (ns := default ∅ g) in *.
  destruct (ns !! (c :: q')) as [[|v0]|] eqn:Hl; [done| |].
  - injection Hreq' as <- <-. cbn [default from_option id dset_payload].
    split; [done|]. split; [by rewrite lookup_insert_eq|]. split.
    + intros p Hne. by rewrite lookup_insert_ne.
    + intros p Hp. destruct (decide (c :: q' = p)) as [<-|Hne].
      * by rewrite lookup_insert_eq.
      * by rewrite lookup_insert_ne.
  - destruct (existsb _ _); [done|]. injection Hreq' as <- <-.
    cbn [default from_option id dset_payload].
    split; [done|]. rewrite insert_insert_eq.
    split; [by rewrite lookup_insert_eq|]. split.
    + intros p Hne. rewrite lookup_insert_ne by done.
      destruct (add_groups_lookup (ancestors (c :: q')) ns p) as [->|[-> ->]]; done.
    + intros p Hp. destruct (decide (c :: q' = p)) as [<-|Hne].
      * by rewrite lookup_insert_eq.
      * rewrite lookup_insert_ne by done.
        destruct (add_groups_lookup (ancestors (c :: q')) ns p) as [->|[Hn ->]]; [done|].
        by rewrite Hn in Hp; destruct Hp.
Qed.

(** Whatever [require_dataset] returns, no object disappears. *)
Lemma require_dataset_keeps (fresh : P) q
    (g g' : option (gmap (list string) (node P))) (r : result P) p :
  require_dataset fresh q g = (g', r) ->
  is_Some (default ∅ g !! p) -> is_Some (default ∅ g' !! p).
Proof.
  unfold require_dataset. intros Hreq Hp.
  destruct g as [ns|]; cbn [default from_option id] in *;
    [|by rewrite lookup_empty in Hp; destruct Hp].
  destruct q as [|c q']; [by injection Hreq as <- <-|].
  destruct (ns !! (c :: q')) as [[|v0]|] eqn:Hl;
    [by injection Hreq as <- <-|by injection Hreq as <- <-|].
  destruct (existsb _ _); injection Hreq as <- <-; [done|].
  cbn [default from_option id].
  destruct (decide (c :: q' = p)) as [<-|Hne]; [by rewrite lookup_insert_eq|].
  rewrite lookup_insert_ne by done.
  destruct (add_groups_lookup (ancestors (c :: q')) ns p) as [->|[Hn ->]]; [done|].
  by rewrite Hn in Hp; destruct Hp.
Qed.

Lemma elem_of_keys ns (n : string) : n ∈ keys ns <-> is_Some (ns !! [n]).
Proof.
  unfold keys. rewrite elem_of_list_to_set, list_elem_of_omap. split.
  - intros (p & Hp & Hn). destruct p as [|m [|? ?]]; try done.
    injection Hn as ->. by apply elem_of_elements, elem_of_dom in Hp.
  - intros Hn. exists [n]. split; [|done]. by apply elem_of_elements, elem_of_dom.
Qed.
End NamespaceFacts.

Section IdLoopFacts.
Context {V : Type} (fill : V).
Implicit Types (fp : @H5File V) (d : @Dataset V) (w : World V) (p q : list string).

Lemma mbind_lookup_default {P} (g : option (gmap (list string) (node P))) p :
  g ≫= (fun ns => ns !! p) = default ∅ g !! p.
Proof. destruct g; [done|]. cbn. by rewrite lookup_empty. Qed.

Lemma doc_step_offsets x q fp fp' :
  (ds <- require_doc q;; assign_doc q (ds ++ [x]))%M fp = (fp', Ok tt) ->
  vectors fp' = vectors fp
  /\ (forall p, doc_offsets fp' p
                = doc_offsets fp p ++ (if bool_decide (q = p) then [x] else []))
  /\ (forall p, psg_offset fp' p = psg_offset fp p).
Proof.
  unfold bind, require_doc, assign_doc, modify.
  destruct (require_dataset [] q (ids_doc fp)) as [g' [v|e]] eqn:Hreq; [|done].
  intros [= <-]. split; [done|]. split; [|done].
  destruct (require_assign_payload _ _ _ _ _ (v ++ [x]) Hreq)
    as (_ & Hv & Hq & Hother & _).
  intros p. unfold doc_offsets. cbn [ids_doc]. rewrite !mbind_lookup_default.
  case_bool_decide as Hqp.
  - subst p. rewrite Hq. cbn. by rewrite Hv.
  - rewrite Hother by done. by rewrite app_nil_r.
Qed.

Lemma psg_step_offsets x q fp fp' :
  (_ <- require_psg q;; assign_psg q x)%M fp = (fp', Ok tt) ->
  vectors fp' = vectors fp
  /\ (forall p, doc_offsets fp' p = doc_offsets fp p)
  /\ (forall p, psg_offset fp' p
                = if bool_decide (q = p) then Some x else psg_offset fp p).
Proof.
  unfold bind, require_psg, assign_psg, modify.
  destruct (require_dataset 0 q (ids_psg fp)) as [g' [v|e]] eqn:Hreq; [|done].
  intros [= <-]. split; [done|]. split; [done|].
  destruct (require_assign_payload _ _ _ _ _ x Hreq) as (_ & _ & Hq & Hother & _).
  intros p. unfold psg_offset. cbn [ids_psg]. rewrite !mbind_lookup_default.
  case_bool_decide as Hqp.
  - by subst p.
  - by rewrite Hother.
Qed.

(** What a completed id loop has recorded. *)
Lemma add_ids_offsets cur (pairs : list (option string * option string)) :
  forall i fp fp',
    add_ids cur i pairs fp = (fp', Ok tt) ->
    forall p,
      doc_offsets fp' p = doc_offsets fp p ++ new_doc_offsets cur i pairs p
      /\ psg_offset fp' p
         = match last_psg_offset cur i pairs p with
           | Some k => Some k
           | None => psg_offset fp p
           end.
Proof.
  induction pairs as [|[doc_id psg_id] rest IH]; intros i fp fp' Hrun p.
  - injection Hrun as <-. cbn. by rewrite app_nil_r.
  - cbn [add_ids] in Hrun. unfold bind at 1 in Hrun.
    destruct (match doc_id with
              | Some d0 => (ds <- require_doc (h5_path d0);;
                            assign_doc (h5_path d0) (ds ++ [cur + i]))%M
              | None => ret tt end fp) as [fp1 [[]|e]] eqn:Hdoc; [|done].
    unfold bind at 1 in Hrun.
    destruct (match psg_id with
              | Some s => (_ <- require_psg (h5_path s);;
                           assign_psg (h5_path s) (cur + i))%M
              | None => ret tt end fp1) as [fp2 [[]|e]] eqn:Hpsg; [|done].
    destruct (IH _ _ _ Hrun p) as [Hd Hp]. rewrite Hd, Hp. clear IH Hd Hp Hrun.
    cbn [new_doc_offsets last_psg_offset].
    assert (doc_offsets fp1 p
            = doc_offsets fp p ++ match doc_id with
                                  | Some s => if bool_decide (h5_path s = p)
                                              then [cur + i] else []
                                  | None => []
                                  end
            /\ psg_offset fp1 p = psg_offset fp p) as [Hd1 Hp1].
    { destruct doc_id as [s|].
      - destruct (doc_step_offsets _ _ _ _ Hdoc) as (_ & Hd & Hp). by rewrite Hd, Hp.
      - injection Hdoc as <-. by rewrite app_nil_r. }
    assert (doc_offsets fp2 p = doc_offsets fp1 p
            /\ psg_offset fp2 p
               = match psg_id with
                 | Some s => if bool_decide (h5_path s = p)
                             then Some (cur + i) else psg_offset fp1 p
                 | None => psg_offset fp1 p
                 end) as [Hd2 Hp2].
    { destruct psg_id as [s|].
      - destruct (psg_step_offsets _ _ _ _ Hpsg) as (_ & Hd & Hp). by rewrite Hd, Hp.
      - by injection Hpsg as <-. }
    rewrite Hd2, Hd1, Hp2, Hp1. split; [by rewrite app_assoc|].
    destruct (last_psg_offset cur (i + 1) rest p); [done|].
    destruct psg_id as [s|]; [|done]. by case_bool_decide.
Qed.

(** An append that returns has found its file, the dataset in it, and a
    count that is not negative. *)
Lemma _add_fp_ok_inv r vecs (doc_ids psg_ids : list (option string)) fp :
  snd (_add_fp fill r vecs doc_ids psg_ids fp) = Ok tt ->
  exists d, vectors fp = Some d /\ 0 <= num_vectors d.
Proof.
  unfold _add_fp. unfold bind at 1, fp_vectors at 1.
  destruct (vectors fp) as [d|] eqn:Hd; [|done].
  intros Hok. exists d. split; [done|].
  destruct (Z.le_gt_cases 0 (num_vectors d)) as [|Hneg]; [done|]. exfalso.
  assert (forall fp1 d1, vectors fp1 = Some d1 -> num_vectors d1 = num_vectors d ->
            forall k, snd (bind (write_rows (num_vectors d) vecs) k fp1) <> Ok tt)
    as Hwrite.
  { intros fp1 d1 Hd1 Hn k. unfold bind at 1, write_rows, bind at 1, fp_vectors.
    rewrite Hd1. destruct (Z.leb_spec 0 (num_vectors d)); [lia|]. done. }
  unfold bind at 1 in Hok.
  destruct (Z.of_nat (length vecs) >? capacity d - num_vectors d).
  - unfold resize at 1, bind at 1, fp_vectors at 1 in Hok. rewrite Hd in Hok.
    destruct (_ <? 0); [done|]. unfold modify at 1 in Hok.
    by eapply Hwrite in Hok.
  - unfold ret at 1 in Hok. by eapply Hwrite in Hok.
Qed.

Lemma _add_ok_inv (self : OnDiskIndex) vecs (doc_ids psg_ids : list (option string)) w :
  snd (_add fill self vecs doc_ids psg_ids w) = Ok tt ->
  exists fp d fp',
    file_at w self = Some fp /\ vectors fp = Some d /\ 0 <= num_vectors d
    /\ add_ids (num_vectors d) 0 (zip doc_ids psg_ids)
         (set_dataset (appended fill (_resize_min_val self) vecs d) fp)
       = (fp', Ok tt)
    /\ _add fill self vecs doc_ids psg_ids w
       = (mkWorld (<[_index_file self := fp']> (fs w)) (log w), Ok tt).
Proof.
  unfold _add, with_file_a, file_at. intros Hok.
  destruct (_add_fp fill (_resize_min_val self) vecs doc_ids psg_ids
              (default empty_file (fs w !! _index_file self))) as [fp' r] eqn:Hrun.
  cbn [snd] in Hok. subst r.
  pose proof (_add_fp_ok_inv (_resize_min_val self) vecs doc_ids psg_ids
                (default empty_file (fs w !! _index_file self))) as Hinv.
  rewrite Hrun in Hinv. destruct (Hinv eq_refl) as (d & Hd & H0).
  destruct (fs w !! _index_file self) as [fp|] eqn:Hfp; [|done].
  cbn [default from_option id] in *. exists fp, d, fp'. repeat (split; [done|]).
  rewrite (_add_fp_vectors _ _ _ _ _ _ _ Hd H0) in Hrun. done.
Qed.

(** X8.  After an append that returns, the offsets of every document are the
    ones it had, followed by one offset per vector of the batch given its
    id, in batch order: [count + i] for the [i]-th pair. *)
Theorem add_appends_doc_offsets_in_order
    (self : OnDiskIndex) vecs (doc_ids psg_ids : list (option string)) w :
  snd (_add fill self vecs doc_ids psg_ids w) = Ok tt ->
  exists fp d fp',
    file_at w self = Some fp /\ vectors fp = Some d
    /\ file_at (fst (_add fill self vecs doc_ids psg_ids w)) self = Some fp'
    /\ forall p, doc_offsets fp' p
                 = doc_offsets fp p
                   ++ new_doc_offsets (num_vectors d) 0 (zip doc_ids psg_ids) p.
Proof.
  intros Hok. destruct (_add_ok_inv _ _ _ _ _ Hok) as (fp & d & fp' & Hfp & Hd & _ & Hids & ->).
  exists fp, d, fp'. split; [done|]. split; [done|]. split.
  { unfold file_at. cbn [fst fs]. by rewrite lookup_insert_eq. }
  intros p. by destruct (add_ids_offsets _ _ _ _ _ Hids p) as [-> _].
Qed.

(** X9.  After an append that returns, a passage id of the batch points at the
    vector of the last pair that carries it, whatever it pointed at
    before; every other passage keeps its offset. *)
Theorem add_overwrites_psg_offset
    (self : OnDiskIndex) vecs (doc_ids psg_ids : list (option string)) w :
  snd (_add fill self vecs doc_ids psg_ids w) = Ok tt ->
  exists fp d fp',
    file_at w self = Some fp /\ vectors fp = Some d
    /\ file_at (fst (_add fill self vecs doc_ids psg_ids w)) self = Some fp'
    /\ forall p, psg_offset fp' p
                 = match last_psg_offset (num_vectors d) 0 (zip doc_ids psg_ids) p with
                   | Some k => Some k
                   | None => psg_offset fp p
                   end.
Proof.
  intros Hok. destruct (_add_ok_inv _ _ _ _ _ Hok) as (fp & d & fp' & Hfp & Hd & _ & Hids & ->).
  exists fp, d, fp'. split; [done|]. split; [done|]. split.
  { unfold file_at. cbn [fst fs]. by rewrite lookup_insert_eq. }
  intros p. by destruct (add_ids_offsets _ _ _ _ _ Hids p) as [_ ->].
Qed.

Lemma get_ids_fp_elem {P} (g : option (gmap (list string) (node P))) (n : string) :
  n ∈ match g with None => (∅ : gset string) | Some ns => keys ns end
  <-> is_Some (default ∅ g !! [n]).
Proof.
  destruct g as [ns|]; cbn [default from_option id].
  - apply elem_of_keys.
  - rewrite lookup_empty. split; [set_solver | by intros []].
Qed.

Lemma require_assign_keeps {P} (fresh : P) q (f : P -> P)
    (g : option (gmap (list string) (node P))) p :
  is_Some (default ∅ g !! p) ->
  is_Some (default ∅ (match require_dataset fresh q g with
                      | (g', Ok v) => assign q (f v) g'
                      | (g', Raise _) => g'
                      end) !! p).
Proof.
  intros Hp. destruct (require_dataset fresh q g) as [g' [v|e]] eqn:Hreq.
  - by destruct (require_assign_payload _ _ _ _ _ (f v) Hreq) as (_ & _ & _ & _ & Hk); apply Hk.
  - by eapply require_dataset_keeps.
Qed.

(** The id loop never removes an object of either id group, also when it
    raises. *)
Lemma add_ids_keeps cur (pairs : list (option string * option string)) :
  forall i fp p,
    (is_Some (default ∅ (ids_doc fp) !! p) ->
     is_Some (default ∅ (ids_doc (fst (add_ids cur i pairs fp))) !! p))
    /\ (is_Some (default ∅ (ids_psg fp) !! p) ->
        is_Some (default ∅ (ids_psg (fst (add_ids cur i pairs fp))) !! p)).
Proof.
  induction pairs as [|[doc_id psg_id] rest IH]; intros i fp p; [done|].
  cbn [add_ids].
  set (doc_step := match doc_id with
                   | Some d0 => (ds <- require_doc (h5_path d0);;
                                 assign_doc (h5_path d0) (ds ++ [cur + i]))%M
                   | None => ret tt end).
  set (psg_step := match psg_id with
                   | Some s => (_ <- require_psg (h5_path s);;
                                assign_psg (h5_path s) (cur + i))%M
                   | None => ret tt end).
  assert (forall fp0,
             (is_Some (default ∅ (ids_doc fp0) !! p) ->
              is_Some (default ∅ (ids_doc (fst (doc_step fp0))) !! p))
             /\ ids_psg (fst (doc_step fp0)) = ids_psg fp0) as Hdoc.
  { intros fp0. subst doc_step. destruct doc_id as [s|]; [|done].
    unfold bind, require_doc, assign_doc, modify.
    pose proof (require_assign_keeps [] (h5_path s) (fun ds => ds ++ [cur + i])
                  (ids_doc fp0) p) as Hk.
    destruct (require_dataset [] (h5_path s) (ids_doc fp0)) as [g' [v|e]]; done. }
  assert (forall fp0,
             (is_Some (default ∅ (ids_psg fp0) !! p) ->
              is_Some (default ∅ (ids_psg (fst (psg_step fp0))) !! p))
             /\ ids_doc (fst (psg_step fp0)) = ids_doc fp0) as Hpsg.
  { intros fp0. subst psg_step. destruct psg_id as [s|]; [|done].
    unfold bind, require_psg, assign_psg, modify.
    pose proof (require_assign_keeps 0 (h5_path s) (fun _ => cur + i)
                  (ids_psg fp0) p) as Hk.
    destruct (require_dataset 0 (h5_path s) (ids_psg fp0)) as [g' [v|e]]; done. }
  assert (forall {A B} (m : M (@H5File V) A) (k : A -> M (@H5File V) B) s,
             fst (bind m k s)
             = match m s with
               | (s', Ok a) => fst (k a s')
               | (s', Raise _) => s'
               end) as Hfst.
  { intros A B m k s0. unfold bind. by destruct (m s0) as [? [?|?]]. }
  rewrite Hfst. destruct (Hdoc fp) as [Hd1 Hp1].
  destruct (doc_step fp) as [fp1 [[]|e]]; cbn [fst] in Hd1, Hp1.
  2:{ split; [done|]. by rewrite Hp1. }
  rewrite Hfst. destruct (Hpsg fp1) as [Hp2 Hd2].
  destruct (psg_step fp1) as [fp2 [[]|e]]; cbn [fst] in Hp2, Hd2.
  - destruct (IH (i + 1) fp2 p) as [IHd IHp]. rewrite Hd2, Hp1 in *. split; auto.
  - rewrite Hd2, Hp1 in *. split; auto.
Qed.

(** Up to the id loop [_add] leaves the id groups alone. *)
Lemma _add_fp_ids r vecs (doc_ids psg_ids : list (option string)) fp :
  exists fp0 i,
    ids_doc fp0 = ids_doc fp /\ ids_psg fp0 = ids_psg fp
    /\ (fst (_add_fp fill r vecs doc_ids psg_ids fp) = fp0
        \/ exists cur, fst (_add_fp fill r vecs doc_ids psg_ids fp)
                       = fst (add_ids cur i (zip doc_ids psg_ids) fp0)).
Proof.
  destruct (vectors fp) as [d|] eqn:Hd.
  2:{ exists fp, 0. split; [done|]. split; [done|]. left.
      unfold _add_fp, bind at 1, fp_vectors. by rewrite Hd. }
  destruct (Z.le_gt_cases 0 (num_vectors d)) as [H0|Hneg].
  { eexists _, 0. split; [|split; [|right; eexists;
      by rewrite (_add_fp_vectors _ _ _ _ _ _ _ Hd H0)]]; done. }
  assert (forall fp1 d1, vectors fp1 = Some d1 ->
            write_rows (num_vectors d) vecs fp1 = (fp1, Raise TypeError)) as Hwrite.
  { intros fp1 d1 Hd1. unfold write_rows.
    rewrite (bind_ok _ _ _ _ _ (fp_vectors_ok _ _ Hd1)).
    destruct (Z.leb_spec 0 (num_vectors d)); [lia|]. done. }
  unfold _add_fp. rewrite (bind_ok _ _ _ _ _ (fp_vectors_ok _ _ Hd)).
  destruct (Z.of_nat (length vecs) >? capacity d - num_vectors d).
  - set (new_size := Z.max _ r).
    destruct (Z.ltb_spec new_size 0) as [Hsz|Hsz].
    + exists fp, 0. split; [done|]. split; [done|]. left.
      erewrite bind_raise; [done|]. unfold resize.
      rewrite (bind_ok _ _ _ _ _ (fp_vectors_ok _ _ Hd)).
      destruct (Z.ltb_spec new_size 0); [done|lia].
    + erewrite bind_ok; [|by apply (resize_ok fill _ _ d)].
      eexists _, 0. split; [|split; [|left; erewrite bind_raise;
        [reflexivity|by eapply Hwrite]]]; done.
  - erewrite bind_ok; [|reflexivity].
    exists fp, 0. split; [done|]. split; [done|]. left.
    erewrite bind_raise; [done|]. by eapply Hwrite.
Qed.

(** X10.  Identifiers are never forgotten: whatever an append does, also when
    it raises, the document ids and the passage ids known before are
    still known after it. *)
Theorem add_never_forgets_ids
    (self : OnDiskIndex) vecs (doc_ids psg_ids : list (option string)) w
    (D P : gset string) :
  snd (_get_doc_ids self w) = Ok D ->
  snd (_get_psg_ids self w) = Ok P ->
  exists D' P',
    snd (_get_doc_ids self (fst (_add fill self vecs doc_ids psg_ids w))) = Ok D'
    /\ snd (_get_psg_ids self (fst (_add fill self vecs doc_ids psg_ids w))) = Ok P'
    /\ D ⊆ D' /\ P ⊆ P'.
Proof.
  unfold _get_doc_ids, _get_psg_ids, with_file_r, _add, with_file_a.
  destruct (fs w !! _index_file self) as [fp|] eqn:Hfp; [|done].
  cbn [default from_option id snd ret]. intros [= <-] [= <-].
  destruct (_add_fp fill (_resize_min_val self) vecs doc_ids psg_ids fp)
    as [fp' r] eqn:Hrun.
  cbn [fst fs]. rewrite lookup_insert_eq. cbn [snd ret].
  eexists _, _. split; [done|]. split; [done|].
  destruct (_add_fp_ids (_resize_min_val self) vecs doc_ids psg_ids fp)
    as (fp0 & i & Hd0 & Hp0 & Hcase).
  rewrite Hrun in Hcase. cbn [fst] in Hcase.
  unfold _get_doc_ids_fp, _get_psg_ids_fp.
  split; intros n Hn; apply get_ids_fp_elem; apply get_ids_fp_elem in Hn.
  - destruct Hcase as [->|[cur ->]]; [by rewrite Hd0|].
    apply add_ids_keeps. by rewrite Hd0.
  - destruct Hcase as [->|[cur ->]]; [by rewrite Hp0|].
    apply add_ids_keeps. by rewrite Hp0.
Qed.

Lemma new_doc_offsets_nonempty cur i (pairs : list (option string * option string)) s :
  In (Some s) (List.map fst pairs) -> new_doc_offsets cur i pairs (h5_path s) <> [].
Proof.
  revert i. induction pairs as [|[doc_id psg_id] rest IH]; intros i Hin; [done|].
  cbn [new_doc_offsets]. destruct Hin as [Heq|Hin].
  - cbn in Heq. subst doc_id. by rewrite bool_decide_eq_true_2.
  - intros Hnil. apply app_eq_nil in Hnil as [_ Hnil]. by eapply IH.
Qed.

Lemma last_psg_offset_is_Some cur i (pairs : list (option string * option string)) s :
  In (Some s) (List.map snd pairs) ->
  is_Some (last_psg_offset cur i pairs (h5_path s)).
Proof.
  revert i. induction pairs as [|[doc_id psg_id] rest IH]; intros i Hin; [done|].
  cbn [last_psg_offset]. destruct Hin as [Heq|Hin].
  - cbn in Heq. subst psg_id. destruct (last_psg_offset _ _ _ _); [done|].
    by rewrite bool_decide_eq_true_2.
  - destruct (IH (i + 1) Hin) as [k ->]. done.
Qed.

(** X11.  After an append that returns, every identifier of the batch that is a
    plain link name (no slash in it) is among the document ids, or the
    passage ids, of the index. *)
Theorem add_records_the_ids_of_the_batch
    (self : OnDiskIndex) vecs (doc_ids psg_ids : list (option string)) w :
  snd (_add fill self vecs doc_ids psg_ids w) = Ok tt ->
  exists D' P',
    snd (_get_doc_ids self (fst (_add fill self vecs doc_ids psg_ids w))) = Ok D'
    /\ snd (_get_psg_ids self (fst (_add fill self vecs doc_ids psg_ids w))) = Ok P'
    /\ (forall s, In (Some s) (List.map fst (zip doc_ids psg_ids)) ->
                  h5_path s = [s] -> s ∈ D')
    /\ (forall s, In (Some s) (List.map snd (zip doc_ids psg_ids)) ->
                  h5_path s = [s] -> s ∈ P').
Proof.
  intros Hok.
  destruct (_add_ok_inv _ _ _ _ _ Hok) as (fp & d & fp' & Hfp & Hd & _ & Hids & ->).
  unfold _get_doc_ids, _get_psg_ids, with_file_r. cbn [fst fs].
  rewrite lookup_insert_eq. cbn [snd ret]. eexists _, _.
  split; [done|]. split; [done|].
  unfold _get_doc_ids_fp, _get_psg_ids_fp.
  split; intros s Hin Hplain; apply get_ids_fp_elem; rewrite <- Hplain.
  - destruct (add_ids_offsets _ _ _ _ _ Hids (h5_path s)) as [Hdoc _].
    pose proof (new_doc_offsets_nonempty (num_vectors d) 0 _ s Hin) as Hne.
    unfold doc_offsets in Hdoc. rewrite mbind_lookup_default in Hdoc.
    destruct (default ∅ (ids_doc fp') !! h5_path s); [done|].
    cbn in Hdoc. symmetry in Hdoc. by apply app_eq_nil in Hdoc as [_ ?].
  - destruct (add_ids_offsets _ _ _ _ _ Hids (h5_path s)) as [_ Hpsg].
    destruct (last_psg_offset_is_Some (num_vectors d) 0 _ s Hin) as [k Hk].
    rewrite Hk in Hpsg. unfold psg_offset in Hpsg.
    rewrite mbind_lookup_default in Hpsg.
    by destruct (default ∅ (ids_psg fp') !! h5_path s).
Qed.
End IdLoopFacts.

(** ** Appending, then looking up *)

Section RoundTrips.
Context {V : Type} (fill : V).
Implicit Types (fp : @H5File V) (d : @Dataset V) (w : World V) (p : list string).

Lemma resolve_offsets mode fp id :
  resolve mode fp id
  = match mode with
    | PASSAGE => match psg_offset fp (h5_path id) with Some k => [k] | None => [] end
    | FIRSTP => take 1 (doc_offsets fp (h5_path id))
    | _ => doc_offsets fp (h5_path id)
    end.
Proof.
  unfold resolve, doc_offsets, psg_offset, doc_lookup, psg_lookup.
  destruct mode.
  - by destruct (ids_psg fp ≫= _) as [[|?]|].
  - by destruct (ids_doc fp ≫= _) as [[|?]|].
  - by destruct (ids_doc fp ≫= _) as [[|?]|].
  - by destruct (ids_doc fp ≫= _) as [[|?]|].
Qed.

(** One identifier looked up on a file that keeps the invariant. *)
Lemma _get_vectors_one (self : OnDiskIndex) w fp d id :
  fs w !! _index_file self = Some fp ->
  vectors fp = Some d ->
  store_ok fp ->
  group_present (mode self) fp = true ->
  lookable (mode self) fp id = true ->
  snd (_get_vectors fill self [id] w)
  = Ok (rows_at fill d (resolve (mode self) fp id),
        [List.seq 0 (length (resolve (mode self) fp id))]).
Proof.
  intros Hfp Hd Hok Hg Hl. rewrite (_get_vectors_eq _ _ _ _ _ Hfp). cbn [snd].
  unfold _get_vectors_fp.
  erewrite bind_ok; [|eapply (get_loop_ok fill _ _ d); [done|done|]].
  2:{ cbn [forallb]. by rewrite (lookable_readable _ _ _ _ Hd Hok Hl). }
  cbn [fst snd app List.map group_ranges concat].
  unfold bind, lift, np_concatenate, ret. cbn [snd concat]. by rewrite app_nil_r.
Qed.

Lemma store_ok_doc_offsets fp d p :
  vectors fp = Some d -> store_ok fp ->
  Forall (fun k => 0 <= k < num_vectors d) (doc_offsets fp p).
Proof.
  unfold store_ok, doc_offsets. intros Hd Hok. rewrite Hd in Hok.
  destruct Hok as [_ [Hdoc _]].
  destruct (ids_doc fp) as [ns|]; [|by constructor]. cbn in *.
  destruct (ns !! p) as [[|l]|] eqn:Hl; try by constructor.
  pose proof (Hdoc _ _ Hl) as Hn. cbn in Hn |- *. unfold offsets_ok in Hn.
  apply andb_prop in Hn as [_ Hin]. apply Forall_forall. intros k Hk.
  apply list_elem_of_In in Hk.
  pose proof (proj1 (forallb_forall _ _) Hin k Hk) as Hkb.
  apply andb_prop in Hkb as [?%Z.leb_le ?%Z.ltb_lt]. lia.
Qed.

Lemma store_ok_psg_offset fp d p k :
  vectors fp = Some d -> store_ok fp -> psg_offset fp p = Some k ->
  0 <= k < num_vectors d.
Proof.
  unfold store_ok, psg_offset. intros Hd Hok Hk. rewrite Hd in Hok.
  destruct Hok as [_ [_ Hpsg]].
  destruct (ids_psg fp) as [ns|]; [|done]. cbn in *.
  destruct (ns !! p) as [[|k']|] eqn:Hl; try done. injection Hk as ->.
  pose proof (Hpsg _ _ Hl) as Hn. cbn in Hn.
  apply andb_prop in Hn as [?%Z.leb_le ?%Z.ltb_lt]. lia.
Qed.

(** Rows below the old count read the same before and after an append. *)
Lemma rows_at_appended_old r vecs d (l : list Z) :
  count_ok d ->
  Forall (fun k => 0 <= k < num_vectors d) l ->
  rows_at fill (appended fill r vecs d) l = rows_at fill d l.
Proof.
  intros Hok Hl. unfold rows_at. apply List.map_ext_in. intros k Hk.
  apply list_elem_of_In in Hk. pose proof (proj1 (Forall_forall _ _) Hl k Hk) as Hr.
  cbn beta in Hr. rewrite !nth_lookup. f_equal.
  apply appended_lookup_old; [done|lia].
Qed.

(** The slots behind the old count hold the batch. *)
Lemma appended_lookup_new r vecs d (k : nat) :
  count_ok d ->
  (k < length vecs)%nat ->
  data (appended fill r vecs d) !! (Z.to_nat (num_vectors d) + k)%nat = vecs !! k.
Proof.
  intros [H0 H1] Hk. unfold capacity in H1.
  destruct (grown_prefix fill r (length vecs) d H0) as (pad & Hg & Hlen).
  unfold appended. cbn [data]. rewrite Hg.
  assert (length (take (Z.to_nat (num_vectors d)) (data d ++ pad))
          = Z.to_nat (num_vectors d)) as Hl.
  { rewrite length_take, length_app. lia. }
  rewrite lookup_app_r by lia. rewrite Hl.
  replace (Z.to_nat (num_vectors d) + k - Z.to_nat (num_vectors d))%nat with k by lia.
  by rewrite lookup_app_l.
Qed.

Lemma rows_at_new_doc_offsets r vecs d (pairs : list (option string * option string)) p :
  count_ok d ->
  forall k : nat,
    (k + length pairs <= length vecs)%nat ->
    rows_at fill (appended fill r vecs d)
      (new_doc_offsets (num_vectors d) (Z.of_nat k) pairs p)
    = batch_rows_for (drop k vecs) pairs p.
Proof.
  intros Hok. induction pairs as [|[doc_id psg_id] rest IH]; intros k Hlen.
  - cbn. by destruct (drop k vecs).
  - cbn [length] in Hlen. cbn [new_doc_offsets].
    destruct (lookup_lt_is_Some_2 vecs k) as [v Hv]; [lia|].
    rewrite (drop_S _ _ _ Hv). cbn [batch_rows_for].
    unfold rows_at in *. rewrite List.map_app.
    replace (Z.of_nat k + 1) with (Z.of_nat (S k)) by lia.
    rewrite IH by lia. f_equal.
    destruct doc_id as [s|]; [|done]. case_bool_decide; [|done].
    cbn [List.map]. f_equal. rewrite nth_lookup.
    replace (Z.to_nat (num_vectors d + Z.of_nat k))
      with (Z.to_nat (num_vectors d) + k)%nat by (destruct Hok; lia).
    rewrite appended_lookup_new by (done || lia). by rewrite Hv.
Qed.

Lemma last_row_for_offset r vecs d (pairs : list (option string * option string)) p :
  count_ok d ->
  forall k : nat,
    (k + length pairs <= length vecs)%nat ->
    last_row_for (drop k vecs) pairs p
    = (fun o => nth (Z.to_nat o) (data (appended fill r vecs d)) fill)
        <$> last_psg_offset (num_vectors d) (Z.of_nat k) pairs p.
Proof.
  intros Hok. induction pairs as [|[doc_id psg_id] rest IH]; intros k Hlen.
  - cbn. by destruct (drop k vecs).
  - cbn [length] in Hlen. cbn [last_psg_offset].
    destruct (lookup_lt_is_Some_2 vecs k) as [v Hv]; [lia|].
    rewrite (drop_S _ _ _ Hv). cbn [last_row_for].
    replace (Z.of_nat k + 1) with (Z.of_nat (S k)) by lia.
    rewrite IH by lia.
    destruct (last_psg_offset (num_vectors d) (Z.of_nat (S k)) rest p); [done|].
    cbn [fmap option_fmap option_map].
    destruct psg_id as [s|]; [|done]. case_bool_decide; [|done].
    cbn [fmap option_fmap option_map]. f_equal. rewrite nth_lookup.
    replace (Z.to_nat (num_vectors d + Z.of_nat k))
      with (Z.to_nat (num_vectors d) + k)%nat by (destruct Hok; lia).
    rewrite appended_lookup_new by (done || lia). by rewrite Hv.
Qed.

(** The world and the file after an append that returns, on a file that
    keeps the invariant. *)
Lemma _add_ok_after (self : OnDiskIndex) vecs (doc_ids psg_ids : list (option string))
    w fp d :
  fs w !! _index_file self = Some fp ->
  vectors fp = Some d ->
  store_ok fp ->
  (length (zip doc_ids psg_ids) <= length vecs)%nat ->
  snd (_add fill self vecs doc_ids psg_ids w) = Ok tt ->
  exists fp',
    fs (fst (_add fill self vecs doc_ids psg_ids w)) !! _index_file self = Some fp'
    /\ vectors fp' = Some (appended fill (_resize_min_val self) vecs d)
    /\ store_ok fp'
    /\ (forall p, doc_offsets fp' p
                  = doc_offsets fp p
                    ++ new_doc_offsets (num_vectors d) 0 (zip doc_ids psg_ids) p)
    /\ (forall p, psg_offset fp' p
                  = match last_psg_offset (num_vectors d) 0 (zip doc_ids psg_ids) p with
                    | Some k => Some k
                    | None => psg_offset fp p
                    end).
Proof.
  intros Hfp Hd Hok Hlen Hrun.
  destruct (_add_ok_inv _ _ _ _ _ _ Hrun)
    as (fp0 & d0 & fp' & Hfp0 & Hd0 & H0 & Hids & Heq).
  unfold file_at in Hfp0. rewrite Hfp in Hfp0. injection Hfp0 as <-.
  rewrite Hd in Hd0. injection Hd0 as <-.
  pose proof (_add_fp_store_ok fill (_resize_min_val self) vecs doc_ids psg_ids
                fp Hok Hlen) as Hok'.
  rewrite (_add_fp_vectors _ _ _ _ _ _ _ Hd H0), Hids in Hok'. cbn [fst] in Hok'.
  rewrite Heq. cbn [fst fs]. rewrite lookup_insert_eq. exists fp'.
  split; [done|]. split.
  { pose proof (add_ids_vectors (num_vectors d) 0 (zip doc_ids psg_ids)
                  (set_dataset (appended fill (_resize_min_val self) vecs d) fp)) as Hv.
    by rewrite Hids in Hv. }
  split; [done|].
  split; intros p; destruct (add_ids_offsets _ _ _ _ _ Hids p) as [Hdoc Hpsg]; done.
Qed.

Lemma doc_offsets_present fp id :
  h5_relative id = true ->
  doc_offsets fp (h5_path id) <> [] ->
  (forall m, m <> PASSAGE -> group_present m fp = true /\ lookable m fp id = true).
Proof.
  unfold doc_offsets, group_present, lookable, doc_lookup. intros Hrel Hne m Hm.
  rewrite Hrel. destruct (ids_doc fp) as [ns|]; [|done]. cbn in *.
  destruct (ns !! h5_path id) as [[|l]|]; try done. by destruct m.
Qed.

(** X12.  Appending vectors under a document id and then asking for the
    document ([MAXP] or [AVEP]): the vectors the id had before, in stored
    order, followed by the vectors of the batch given that id, in batch
    order, as one group. *)
Theorem add_then_get_vectors_of_a_document
    (self : OnDiskIndex) vecs (doc_ids psg_ids : list (option string)) w fp d id :
  fs w !! _index_file self = Some fp ->
  vectors fp = Some d ->
  store_ok fp ->
  mode_eqb (mode self) MAXP || mode_eqb (mode self) AVEP = true ->
  (length (zip doc_ids psg_ids) <= length vecs)%nat ->
  snd (_add fill self vecs doc_ids psg_ids w) = Ok tt ->
  h5_relative id = true ->
  In (Some id) (List.map fst (zip doc_ids psg_ids)) ->
  exists vs,
    vs = rows_at fill d (doc_offsets fp (h5_path id))
         ++ batch_rows_for vecs (zip doc_ids psg_ids) (h5_path id)
    /\ snd (_get_vectors fill self [id] (fst (_add fill self vecs doc_ids psg_ids w)))
       = Ok (vs, [List.seq 0 (length vs)]).
Proof.
  intros Hfp Hd Hok Hmode Hlen Hrun Hrel Hin.
  destruct (_add_ok_after _ _ _ _ _ _ _ Hfp Hd Hok Hlen Hrun)
    as (fp' & Hfp' & Hd' & Hok' & Hdoc & _).
  pose proof (new_doc_offsets_nonempty (num_vectors d) 0 _ id Hin) as Hnew.
  assert (doc_offsets fp' (h5_path id) <> []) as Hne.
  { rewrite Hdoc. intros Hnil. by apply app_eq_nil in Hnil as [_ ?]. }
  assert (mode self <> PASSAGE) as Hm by (by destruct (mode self)).
  destruct (doc_offsets_present fp' id Hrel Hne _ Hm) as [Hg Hl].
  eexists. split; [reflexivity|].
  rewrite (_get_vectors_one _ _ _ _ _ Hfp' Hd' Hok' Hg Hl).
  assert (resolve (mode self) fp' id = doc_offsets fp' (h5_path id)) as ->.
  { rewrite resolve_offsets. by destruct (mode self). }
  assert (count_ok d) as Hc by (unfold store_ok in Hok; rewrite Hd in Hok; apply Hok).
  pose proof (rows_at_new_doc_offsets (_resize_min_val self) vecs d
                (zip doc_ids psg_ids) (h5_path id) Hc 0%nat) as Hrows.
  rewrite drop_0 in Hrows. specialize (Hrows ltac:(cbn; lia)).
  change (Z.of_nat 0) with 0 in Hrows.
  assert (forall d0 (l1 l2 : list Z),
             rows_at fill d0 (l1 ++ l2) = rows_at fill d0 l1 ++ rows_at fill d0 l2)
    as Happ by (intros; apply List.map_app).
  rewrite Hdoc, Happ, Hrows.
  rewrite rows_at_appended_old by (done || by apply store_ok_doc_offsets).
  do 3 f_equal. rewrite !length_app, length_rows_at. f_equal.
  by rewrite <- Hrows, length_rows_at.
Qed.

(** One identifier looked up on a file whose dataset it can be read
    from. *)
Lemma _get_vectors_one_readable (self : OnDiskIndex) w fp d id :
  fs w !! _index_file self = Some fp ->
  vectors fp = Some d ->
  group_present (mode self) fp = true ->
  readable (mode self) fp d id = true ->
  snd (_get_vectors fill self [id] w)
  = Ok (rows_at fill d (resolve (mode self) fp id),
        [List.seq 0 (length (resolve (mode self) fp id))]).
Proof.
  intros Hfp Hd Hg Hr. rewrite (_get_vectors_eq _ _ _ _ _ Hfp). cbn [snd].
  unfold _get_vectors_fp.
  erewrite bind_ok; [|eapply (get_loop_ok fill _ _ d); [done|done|]].
  2:{ cbn [forallb]. by rewrite Hr. }
  cbn [fst snd app List.map group_ranges concat].
  unfold bind, lift, np_concatenate, ret. cbn [snd concat]. by rewrite app_nil_r.
Qed.

(** X13.  The first vector of a document is settled once and for all: in mode
    [FIRSTP], a document that is in the index resolves to the same vector
    after an append that returns as before it. *)
Theorem add_keeps_the_first_passage
    (self : OnDiskIndex) vecs (doc_ids psg_ids : list (option string)) w fp d id :
  fs w !! _index_file self = Some fp ->
  vectors fp = Some d ->
  store_ok fp ->
  mode self = FIRSTP ->
  snd (_add fill self vecs doc_ids psg_ids w) = Ok tt ->
  h5_relative id = true ->
  doc_offsets fp (h5_path id) <> [] ->
  snd (_get_vectors fill self [id] (fst (_add fill self vecs doc_ids psg_ids w)))
  = snd (_get_vectors fill self [id] w)
  /\ exists v, snd (_get_vectors fill self [id] w) = Ok ([v], [[0%nat]]).
Proof.
  intros Hfp Hd Hok Hmode Hrun Hrel Hold.
  destruct (_add_ok_inv _ _ _ _ _ _ Hrun)
    as (fp0 & d0 & fp' & Hfp0 & Hd0 & H0 & Hids & Heq).
  unfold file_at in Hfp0. rewrite Hfp in Hfp0. injection Hfp0 as <-.
  rewrite Hd in Hd0. injection Hd0 as <-.
  assert (fs (fst (_add fill self vecs doc_ids psg_ids w)) !! _index_file self
          = Some fp') as Hfp'.
  { rewrite Heq. cbn [fst fs]. by rewrite lookup_insert_eq. }
  assert (vectors fp' = Some (appended fill (_resize_min_val self) vecs d)) as Hd'.
  { pose proof (add_ids_vectors (num_vectors d) 0 (zip doc_ids psg_ids)
                  (set_dataset (appended fill (_resize_min_val self) vecs d) fp)) as Hv.
    by rewrite Hids in Hv. }
  destruct (add_ids_offsets _ _ _ _ _ Hids (h5_path id)) as [Hdoc _].
  change (doc_offsets (set_dataset _ fp) (h5_path id))
    with (doc_offsets fp (h5_path id)) in Hdoc.
  assert (count_ok d) as Hc by (unfold store_ok in Hok; rewrite Hd in Hok; apply Hok).
  assert (mode self <> PASSAGE) as Hm by (by rewrite Hmode).
  (* before the append *)
  destruct (doc_offsets_present fp id Hrel Hold _ Hm) as [Hg Hl].
  rewrite (_get_vectors_one _ _ _ _ _ Hfp Hd Hok Hg Hl).
  (* after it *)
  assert (doc_offsets fp' (h5_path id) <> []) as Hne.
  { rewrite Hdoc. intros Hnil. by apply app_eq_nil in Hnil as [? _]. }
  destruct (doc_offsets_present fp' id Hrel Hne _ Hm) as [Hg' Hl'].
  pose proof (store_ok_doc_offsets fp d (h5_path id) Hd Hok) as Hin.
  assert (resolve (mode self) fp' id = resolve (mode self) fp id
          /\ exists k, resolve (mode self) fp id = [k] /\ 0 <= k < num_vectors d)
    as (Hsame & k & Hres & Hk).
  { rewrite !resolve_offsets, Hmode, Hdoc.
    destruct (doc_offsets fp (h5_path id)) as [|k l]; [done|].
    apply Forall_cons in Hin as [Hk _]. split; [done|]. by exists k. }
  assert (readable (mode self) fp' (appended fill (_resize_min_val self) vecs d) id
          = true) as Hread.
  { unfold readable. unfold lookable in Hl'. rewrite Hsame, Hres.
    apply andb_prop in Hl' as [-> Hnode]. cbn [andb increasing forallb].
    rewrite capacity_appended by apply Hc.
    destruct (grown_prefix fill (_resize_min_val self) (length vecs) d (proj1 Hc))
      as (pad & -> & _).
    assert ((0 <=? k) && (k <? Z.of_nat (length (data d ++ pad))) = true) as ->.
    { destruct Hc as [_ Hcap]. unfold capacity in Hcap. rewrite length_app.
      apply andb_true_intro. split; [apply Z.leb_le | apply Z.ltb_lt]; lia. }
    rewrite !andb_true_r. rewrite Hmode in *. unfold doc_offsets in Hne.
    unfold doc_lookup in *.
    destruct (ids_doc fp' ≫= _) as [[|[|? ?]]|]; done. }
  rewrite (_get_vectors_one_readable _ _ _ _ _ Hfp' Hd' Hg' Hread).
  rewrite Hsame, Hres. cbn [length List.seq].
  rewrite (rows_at_appended_old _ _ _ [k] Hc) by (by constructor).
  split; [done|]. by eexists.
Qed.

(** X14.  Appending a vector under a passage id and then asking for the
    passage: the vector of the batch that came last with that id,
    whatever the id pointed at before. *)
Theorem add_then_get_vectors_of_a_passage
    (self : OnDiskIndex) vecs (doc_ids psg_ids : list (option string)) w fp d id v :
  fs w !! _index_file self = Some fp ->
  vectors fp = Some d ->
  store_ok fp ->
  mode self = PASSAGE ->
  (length (zip doc_ids psg_ids) <= length vecs)%nat ->
  snd (_add fill self vecs doc_ids psg_ids w) = Ok tt ->
  h5_relative id = true ->
  last_row_for vecs (zip doc_ids psg_ids) (h5_path id) = Some v ->
  snd (_get_vectors fill self [id] (fst (_add fill self vecs doc_ids psg_ids w)))
  = Ok ([v], [[0%nat]]).
Proof.
  intros Hfp Hd Hok Hmode Hlen Hrun Hrel Hlast.
  destruct (_add_ok_after _ _ _ _ _ _ _ Hfp Hd Hok Hlen Hrun)
    as (fp' & Hfp' & Hd' & Hok' & _ & Hpsg).
  assert (count_ok d) as Hc by (unfold store_ok in Hok; rewrite Hd in Hok; apply Hok).
  pose proof (last_row_for_offset (_resize_min_val self) vecs d
                (zip doc_ids psg_ids) (h5_path id) Hc 0%nat) as Hrow.
  rewrite drop_0, Hlast in Hrow. specialize (Hrow ltac:(cbn; lia)).
  change (Z.of_nat 0) with 0 in Hrow.
  specialize (Hpsg (h5_path id)).
  destruct (last_psg_offset (num_vectors d) 0 (zip doc_ids psg_ids) (h5_path id))
    as [o|]; [|done].
  cbn in Hrow. injection Hrow as ->.
  assert (group_present PASSAGE fp' = true /\ lookable PASSAGE fp' id = true) as [Hg Hl].
  { unfold psg_offset, group_present, lookable, psg_lookup in *. rewrite Hrel.
    destruct (ids_psg fp') as [ns|]; [|done]. cbn in *.
    by destruct (ns !! h5_path id) as [[|?]|]. }
  rewrite <- Hmode in Hg, Hl.
  rewrite (_get_vectors_one _ _ _ _ _ Hfp' Hd' Hok' Hg Hl).
  rewrite resolve_offsets, Hmode, Hpsg. done.
Qed.
End RoundTrips.

(** ** Creating, opening and growing a store *)

Section StoreExtras.
Context {V : Type} (fill : V) (version : string).
Implicit Types (fp : @H5File V) (d : @Dataset V) (w : World V) (self : OnDiskIndex).

(** X1.  A file that is there is not touched without [overwrite]: [__init__]
    raises [ValueError] before it opens anything. *)
Theorem init_refuses_an_existing_file w index_file dim mode init_size r fp :
  fs w !! index_file = Some fp ->
  __init__ fill version index_file dim mode init_size r false w = (w, Raise ValueError).
Proof.
  intros Hfp. rewrite __init___eq, Hfp.
  rewrite bool_decide_eq_true_2 by done. done.
Qed.

Lemma dim_eq self w d :
  dataset_of w self = Some d -> snd (dim self w) = Ok (width d).
Proof.
  unfold dataset_of. intros Hd.
  destruct (fs w !! _index_file self) as [fp|] eqn:Hfp; [|done]. simpl in Hd.
  unfold dim. rewrite (with_file_r_eq _ _ _ _ Hfp). cbn [snd].
  unfold bind, lift, ret. by rewrite Hd.
Qed.

(** X2.  A store that [__init__] has made is empty, whatever was at its path:
    [len()] is 0, [dim] is the dimension asked for, there are [init_size]
    slots, and there is no document id and no passage id. *)
Theorem init_makes_an_empty_store w0 index_file dim0 mode init_size r overwrite self :
  snd (__init__ fill version index_file dim0 mode init_size r overwrite w0) = Ok self ->
  let w := fst (__init__ fill version index_file dim0 mode init_size r overwrite w0) in
  snd (__len__ self w) = Ok 0
  /\ snd (dim self w) = Ok dim0
  /\ (exists d, dataset_of w self = Some d /\ capacity d = init_size)
  /\ snd (_get_doc_ids self w) = Ok ∅
  /\ snd (_get_psg_ids self w) = Ok ∅.
Proof.
  intros Hinit w.
  destruct (__init___dataset fill version _ _ _ _ _ _ _ _ Hinit) as (-> & Hsz & Hd).
  fold w in Hd. split; [by rewrite (__len___eq _ _ _ Hd)|].
  split; [by rewrite (dim_eq _ _ _ Hd)|]. split.
  { eexists. split; [done|]. unfold capacity. cbn. rewrite length_replicate. lia. }
  subst w. revert Hinit. rewrite __init___eq.
  destruct (bool_decide _ && negb overwrite); [done|].
  destruct ((init_size <? 0) || (dim0 <? 0)); [done|]. intros _.
  unfold _get_doc_ids, _get_psg_ids, with_file_r. cbn [fst fs _index_file].
  rewrite lookup_insert_eq. done.
Qed.

(** X4.  The dimension of a store does not change when vectors are appended,
    whether the appends return or raise. *)
Theorem dim_is_fixed self (bs : list (@batch V)) :
  forall w d,
    dataset_of w self = Some d ->
    count_ok d ->
    snd (dim self (fst (add_batches fill self bs w))) = Ok (width d).
Proof.
  induction bs as [|[[vecs doc_ids] psg_ids] rest IH]; intros w d Hd Hok.
  - by apply dim_eq.
  - cbn [add_batches].
    pose proof (_add_dataset fill self vecs doc_ids psg_ids w d Hd (proj1 Hok)) as Hd1.
    destruct (_add fill self vecs doc_ids psg_ids w) as [w1 r1]. cbn [fst] in Hd1.
    specialize (IH w1 _ Hd1 (count_ok_appended fill _ _ _ (proj1 Hok))).
    by destruct (add_batches fill self rest w1).
Qed.

(** X5.  Appending no vector and no identifier changes nothing. *)
Theorem add_of_nothing_changes_nothing self w d :
  dataset_of w self = Some d ->
  count_ok d ->
  _add fill self [] [] [] w = (w, Ok tt).
Proof.
  unfold dataset_of, _add. intros Hd [H0 H1].
  destruct (fs w !! _index_file self) as [fp|] eqn:Hfp; [|done]. cbn in Hd.
  rewrite (with_file_a_eq _ _ _ _ Hfp).
  rewrite (_add_fp_vectors fill _ _ _ _ _ _ Hd H0). cbn [zip zip_with add_ids ret fst snd].
  assert (appended fill (_resize_min_val self) [] d = d) as ->.
  { unfold appended, grown. cbn [length].
    destruct (Z.gtb_spec (Z.of_nat 0) (capacity d - num_vectors d)); [lia|].
    cbn [app]. rewrite Nat.add_0_r, take_drop, Z.add_0_r. by destruct d. }
  assert (set_dataset d fp = fp) as ->.
  { unfold set_dataset. rewrite <- Hd. by destruct fp. }
  rewrite insert_id by done. by destruct w.
Qed.

(** X6.  Appending never shrinks the store, and a batch that fits into the
    free slots leaves the capacity, and every slot behind the batch, as
    it was. *)
Theorem add_grows_only_when_it_must self w d (vecs : list V)
    (doc_ids psg_ids : list (option string)) :
  dataset_of w self = Some d ->
  count_ok d ->
  exists d',
    dataset_of (fst (_add fill self vecs doc_ids psg_ids w)) self = Some d'
    /\ capacity d <= capacity d'
    /\ (Z.of_nat (length vecs) <= capacity d - num_vectors d ->
        capacity d' = capacity d
        /\ forall i : nat,
            (Z.to_nat (num_vectors d) + length vecs <= i)%nat ->
            data d' !! i = data d !! i).
Proof.
  intros Hd [H0 H1]. exists (appended fill (_resize_min_val self) vecs d).
  split; [by apply _add_dataset|].
  rewrite capacity_appended by done.
  destruct (grown_prefix fill (_resize_min_val self) (length vecs) d H0)
    as (pad & Hg & Hlen).
  split; [rewrite Hg, length_app; unfold capacity; lia|].
  intros Hfit. unfold appended, grown in *. cbn [data].
  destruct (Z.gtb_spec (Z.of_nat (length vecs)) (capacity d - num_vectors d)); [lia|].
  split; [done|]. intros i Hi. unfold capacity in *.
  assert (length (take (Z.to_nat (num_vectors d)) (data d))
          = Z.to_nat (num_vectors d)) as Hl by (rewrite length_take; lia).
  rewrite lookup_app_r by lia. rewrite lookup_app_r by lia.
  rewrite lookup_drop. f_equal. lia.
Qed.

(** X7.  Every store reached from [__init__] by appends that hand over no
    more identifier pairs than vectors keeps the invariant: the count is
    within the capacity, every list of document offsets is non-empty and
    increasing, and every recorded offset is that of an occupied slot. *)
Theorem stores_keep_the_invariant
    w0 index_file dim0 mode init_size r overwrite self (bs : list (@batch V)) :
  snd (__init__ fill version index_file dim0 mode init_size r overwrite w0) = Ok self ->
  Forall (fun b : @batch V =>
            (length (zip (snd (fst b)) (snd b)) <= length (batch_vectors b))%nat) bs ->
  exists fp,
    fs (fst (add_batches fill self bs
               (fst (__init__ fill version index_file dim0 mode init_size r
                              overwrite w0))))
      !! _index_file self = Some fp
    /\ store_ok fp.
Proof.
  intros Hinit Hall.
  destruct (__init___store_ok fill version _ _ _ _ _ _ _ _ Hinit) as (fp0 & Hfp0 & Hok0).
  by eapply add_batches_store_ok.
Qed.
End StoreExtras.

(** ** The two ends of the threshold *)

Section CoalesceExtremes.
Context {V D : Type}.
Context (np_mean : list V -> V) (np_empty : V).
Context (distance_function : V -> V -> D) (ge : D -> D -> bool) (delta : D).

Local Abbreviation pass_from := (clusters_from np_mean distance_function ge delta).
Local Abbreviation far := (each_far_from_previous np_mean distance_function ge delta).
Local Abbreviation near := (all_near_running_mean np_mean distance_function ge delta).

Lemma _coalesce_cons (v : V) (P : list V) :
  _coalesce np_mean np_empty distance_function ge delta (v :: P)
  = List.map np_mean (pass_from [v] P).
Proof.
  unfold _coalesce. cbn [coalesce_loop app]. by rewrite coalesce_loop_clusters.
Qed.

Lemma clusters_from_far (rest : list V) :
  forall p, far p rest = true <-> length (pass_from [p] rest) = S (length rest).
Proof.
  induction rest as [|v rest IH]; intros p; [done|].
  cbn [each_far_from_previous clusters_from length].
  destruct (ge (distance_function v (np_mean [p])) delta); cbn [andb length].
  - rewrite IH. split; [by intros -> | by intros [= ->]].
  - pose proof (length_clusters_from np_mean distance_function ge delta rest ([p] ++ [v])).
    split; [done | lia].
Qed.

Lemma clusters_from_far_eq (rest : list V) :
  forall p, far p rest = true -> pass_from [p] rest = List.map (fun x => [x]) (p :: rest).
Proof.
  induction rest as [|v rest IH]; intros p; [done|].
  cbn [each_far_from_previous clusters_from].
  destruct (ge (distance_function v (np_mean [p])) delta); [|done].
  cbn [andb]. intros Hfar. rewrite (IH _ Hfar). done.
Qed.

Lemma clusters_from_near (rest : list V) :
  forall cur, near cur rest = true <-> length (pass_from cur rest) = 1%nat.
Proof.
  induction rest as [|v rest IH]; intros cur; [done|].
  cbn [all_near_running_mean clusters_from].
  destruct (ge (distance_function v (np_mean cur)) delta); cbn [andb negb length].
  - pose proof (length_clusters_from np_mean distance_function ge delta rest [v]).
    split; [done | lia].
  - apply IH.
Qed.

Lemma clusters_from_near_eq (rest : list V) :
  forall cur, near cur rest = true -> pass_from cur rest = [cur ++ rest].
Proof.
  induction rest as [|v rest IH]; intros cur; [by rewrite app_nil_r|].
  cbn [all_near_running_mean clusters_from].
  destruct (ge (distance_function v (np_mean cur)) delta); [done|].
  cbn [andb negb]. intros Hnear. rewrite (IH _ Hnear). by rewrite <- app_assoc.
Qed.

(** X15.  Coalescing saves nothing exactly when every vector of the document
    is at distance [>= delta] from the vector before it (the mean of
    that vector alone): then, and only then, it emits as many vectors as
    it was given, each the mean of one vector. *)
Theorem coalesce_keeps_every_vector_iff (v : V) (P : list V) :
  (length (_coalesce np_mean np_empty distance_function ge delta (v :: P))
   = length (v :: P)
   <-> each_far_from_previous np_mean distance_function ge delta v P = true)
  /\ (each_far_from_previous np_mean distance_function ge delta v P = true ->
      _coalesce np_mean np_empty distance_function ge delta (v :: P)
      = List.map (fun x => np_mean [x]) (v :: P)).
Proof.
  rewrite _coalesce_cons, length_map. split.
  - cbn [length]. by rewrite clusters_from_far.
  - intros Hfar. rewrite (clusters_from_far_eq _ _ Hfar).
    rewrite List.map_map. done.
Qed.

(** X16.  Coalescing emits one vector exactly when every vector of the
    document is at distance below [delta] from the mean of all the
    vectors before it: then, and only then, the document is left with
    the mean of all its vectors. *)
Theorem coalesce_gives_one_vector_iff (v : V) (P : list V) :
  (length (_coalesce np_mean np_empty distance_function ge delta (v :: P)) = 1%nat
   <-> all_near_running_mean np_mean distance_function ge delta [v] P = true)
  /\ (all_near_running_mean np_mean distance_function ge delta [v] P = true ->
      _coalesce np_mean np_empty distance_function ge delta (v :: P)
      = [np_mean (v :: P)]).
Proof.
  rewrite _coalesce_cons, length_map. split.
  - by rewrite clusters_from_near.
  - intros Hnear. by rewrite (clusters_from_near_eq _ _ Hnear).
Qed.
End CoalesceExtremes.

(** ** What a coalescing run writes, and when *)

Section CoalescingRun.
Context {V D : Type}.
Context (np_mean : list V -> V) (np_empty : V).
Context (distance_function : V -> V -> D) (ge : D -> D -> bool) (delta : D).
Context {I W : Type}.
Context (doc_ids : I -> W -> result (gset string)).
Context (get_vectors : I -> list string -> M W (list V * list (list nat))).
Context (add : I -> list V -> list string -> M W unit).
Context (set_iter : gset string -> list string).

Local Abbreviation run_doc := (rec_doc_ids (V:=V) doc_ids).
Local Abbreviation run_get := (rec_get_vectors get_vectors).
Local Abbreviation run_add := (rec_add add).
Local Abbreviation run_loop :=
  (coalesce_docs np_mean np_empty distance_function ge delta run_get run_add).
Local Abbreviation made := (emitted np_mean np_empty distance_function ge delta).

(** A batch of exactly [bs] vectors, with one doc id per vector. *)
Local Abbreviation whole bs :=
  (fun b : list V * list string =>
     Z.of_nat (length (fst b)) = bs /\ length (fst b) = length (snd b)).

Lemma coalesce_docs_whole_batches (source_index target_index : I) (bs : Z)
    (ids : list string) :
  forall acc_v acc_d s st res,
    length acc_v = length acc_d ->
    run_loop source_index target_index bs ids acc_v acc_d s = (st, res) ->
    exists ev,
      snd st = snd s ++ ev
      /\ Forall (whole bs) (flushes ev)
      /\ forall v d, res = Ok (v, d) -> length v = length d.
Proof.
  induction ids as [|doc_id rest IH]; intros acc_v acc_d s st res Hacc Hrun.
  - injection Hrun as <- <-. exists []. rewrite app_nil_r. split; [done|].
    split; [by constructor|]. by intros v d [= <- <-].
  - cbn [coalesce_docs] in Hrun. unfold bind at 1 in Hrun.
    destruct (Z.of_nat (length acc_v) =? bs) eqn:Hfull.
    + apply Z.eqb_eq in Hfull.
      unfold bind at 1, rec_add at 1 in Hrun.
      destruct (add target_index acc_v acc_d (fst s)) as [w1 [[]|e]].
      2:{ injection Hrun as <- <-. exists [Flush acc_v acc_d]. split; [done|].
          split; [|done]. by repeat constructor. }
      unfold ret at 1 in Hrun. cbn [fst snd] in Hrun.
      unfold bind at 1, rec_get_vectors at 1 in Hrun. cbn [fst snd] in Hrun.
      destruct (get_vectors source_index [doc_id] w1) as [w2 [r|e]].
      2:{ injection Hrun as <- <-. exists [Flush acc_v acc_d]. split.
          { cbn [snd]. by rewrite app_nil_r. }
          split; [|done]. by repeat constructor. }
      apply IH in Hrun as (ev & Hev & Hall & Hlen).
      2:{ cbn [app]. by rewrite length_replicate. }
      exists (Flush acc_v acc_d :: Fetch [doc_id] (fst r) :: ev). split.
      { rewrite Hev. cbn [snd]. by rewrite <- !app_assoc. }
      split; [|done]. cbn. by constructor.
    + unfold ret at 1 in Hrun.
      unfold bind at 1, rec_get_vectors at 1 in Hrun. cbn [fst snd] in Hrun.
      destruct (get_vectors source_index [doc_id] (fst s)) as [w2 [r|e]].
      2:{ injection Hrun as <- <-. exists []. split.
          { cbn [snd]. done. }
          split; [by constructor | done]. }
      apply IH in Hrun as (ev & Hev & Hall & Hlen).
      2:{ rewrite !length_app, length_replicate. lia. }
      exists (Fetch [doc_id] (fst r) :: ev). split.
      { rewrite Hev. cbn [snd]. by rewrite <- !app_assoc. }
      split; done.
Qed.

(** X17.  Whatever a run does, and however it ends: every batch it writes to
    the target inside the loop has exactly as many vectors as the batch
    size in force, the one batch it may write after the loop is not
    empty, and every batch comes with one doc id per vector. *)
Theorem coalescing_writes_whole_batches
    (source_index target_index : I) (batch_size : option Z) (w : W) st res s :
  doc_ids source_index w = Ok s ->
  create_coalesced_index np_mean np_empty distance_function ge delta
    run_doc run_get run_add set_iter source_index target_index batch_size (w, [])
  = (st, res) ->
  exists ev last,
    snd st = ev ++ last
    /\ Forall (fun b => Z.of_nat (length (fst b)) = batch_size_in_force batch_size s
                        /\ length (fst b) = length (snd b)) (flushes ev)
    /\ (last = [] \/ exists v d, last = [Flush v d] /\ v <> [] /\ length v = length d).
Proof.
  intros Hs Hrun.
  assert (exists st1 res1,
             coalesce_all np_mean np_empty distance_function ge delta
               run_doc run_get run_add set_iter source_index target_index
               batch_size (w, []) = (st1, res1)
             /\ snd st = snd st1) as (st1 & res1 & Hall & ->).
  { unfold create_coalesced_index in Hrun. unfold bind at 1 in Hrun.
    destruct (coalesce_all _ _ _ _ _ _ _ _ _ _ _ _ _) as [st1 [[]|e]].
    - eexists _, _. split; [done|]. unfold bind, read, assert in Hrun.
      destruct (run_doc source_index st1); [|by injection Hrun as <-].
      destruct (run_doc target_index st1); [|by injection Hrun as <-].
      destruct (bool_decide _); by injection Hrun as <-.
    - eexists _, _. split; [done|]. by injection Hrun as <-. }
  clear Hrun. unfold coalesce_all in Hall.
  unfold bind at 1, read at 1 in Hall.
  destruct (run_doc target_index (w, [])) as [t|].
  2:{ injection Hall as <- <-. exists [], []. split; [done|].
      split; [by constructor | by left]. }
  unfold bind at 1, assert at 1 in Hall.
  destruct (bool_decide (size t = 0%nat)).
  2:{ injection Hall as <- <-. exists [], []. split; [done|].
      split; [by constructor | by left]. }
  unfold ret at 1 in Hall.
  erewrite bind_ok in Hall; [|by apply (effective_batch_size_eq _ _ _ _ s)].
  unfold bind at 1, read at 1, rec_doc_ids at 1 in Hall. cbn [fst] in Hall.
  rewrite Hs in Hall. unfold bind at 1 in Hall.
  destruct (run_loop _ _ _ _ _ _ _) as [st2 r2] eqn:Hloop.
  apply coalesce_docs_whole_batches in Hloop as (ev & Hev & Hwhole & Hlen); [|done].
  cbn [snd app] in Hev.
  destruct r2 as [[v d]|e].
  2:{ injection Hall as <- <-. exists ev, []. rewrite app_nil_r.
      split; [done|]. split; [done | by left]. }
  specialize (Hlen v d eq_refl). cbn [fst snd] in Hall.
  destruct (0 <? length v)%nat eqn:Hpos.
  - unfold rec_add in Hall.
    destruct (add target_index v d (fst st2)) as [w3 r3].
    injection Hall as <- <-. cbn [snd]. exists ev, [Flush v d].
    split; [by rewrite Hev|]. split; [done|]. right. exists v, d.
    split; [done|]. split; [|done]. apply Nat.ltb_lt in Hpos.
    destruct v; [cbn in Hpos; lia | done].
  - injection Hall as <- <-. exists ev, []. rewrite app_nil_r.
    split; [done|]. split; [done | by left].
Qed.

(** X18.  Once more vectors are pending than the batch size, the loop does not
    write to the target any more: the count is only compared for
    equality, so every document still to come is fetched, and what it
    gives is kept in memory behind what was pending.  (With nothing
    pending this is the case of a negative batch size.) *)
Theorem overshoot_is_held_until_the_loop_ends
    (source_index target_index : I) (bs : Z) (ids : list string) :
  forall acc_v acc_d s st res,
    bs < Z.of_nat (length acc_v) ->
    run_loop source_index target_index bs ids acc_v acc_d s = (st, res) ->
    exists ev,
      snd st = snd s ++ ev
      /\ flushes ev = []
      /\ forall v d,
          res = Ok (v, d) ->
          fetched ev = ids
          /\ v = acc_v ++ concat (List.map fst (made ev))
          /\ d = acc_d ++ concat (List.map snd (made ev)).
Proof.
  induction ids as [|doc_id rest IH]; intros acc_v acc_d s st res Hover Hrun.
  - injection Hrun as <- <-. exists []. rewrite app_nil_r. split; [done|].
    split; [done|]. intros v d [= <- <-]. cbn. by rewrite !app_nil_r.
  - cbn [coalesce_docs] in Hrun. unfold bind at 1 in Hrun.
    destruct (Z.eqb_spec (Z.of_nat (length acc_v)) bs) as [|_]; [lia|].
    unfold ret at 1 in Hrun.
    unfold bind at 1, rec_get_vectors at 1 in Hrun. cbn [fst snd] in Hrun.
    destruct (get_vectors source_index [doc_id] (fst s)) as [w2 [r|e]].
    2:{ injection Hrun as <- <-. exists []. split; [done|]. done. }
    apply IH in Hrun as (ev & Hev & Hnone & Hok).
    2:{ rewrite length_app. lia. }
    exists (Fetch [doc_id] (fst r) :: ev). split.
    { rewrite Hev. cbn [snd]. by rewrite <- !app_assoc. }
    split; [done|]. intros v d Hres. destruct (Hok v d Hres) as (Hf & -> & ->).
    destruct (trace_fetch np_mean np_empty distance_function ge delta
                [doc_id] (fst r) ev) as (_ & -> & ->).
    cbn [List.map concat fst snd app]. rewrite Hf, app_nil_r, <- !app_assoc. done.
Qed.

(** X19.  With no document in the source and none in the target there is
    nothing to do: the run returns, neither index is asked for vectors
    or written to, and the world is as it was, whatever the batch
    size. *)
Theorem nothing_to_coalesce
    (source_index target_index : I) (batch_size : option Z) (w : W) :
  (forall s, set_iter s ≡ₚ elements s) ->
  doc_ids source_index w = Ok ∅ ->
  doc_ids target_index w = Ok ∅ ->
  create_coalesced_index np_mean np_empty distance_function ge delta
    doc_ids get_vectors add set_iter source_index target_index batch_size w
  = (w, Ok tt).
Proof.
  intros Hperm Hs Ht.
  assert (set_iter ∅ = []) as Hnil by (by apply set_iter_empty).
  unfold create_coalesced_index, coalesce_all.
  unfold bind at 1. unfold bind at 1, read at 1. rewrite Ht.
  unfold bind at 1, assert at 1. rewrite bool_decide_eq_true_2 by done.
  unfold ret at 1.
  erewrite bind_ok; [|by apply (effective_batch_size_eq _ _ _ _ ∅)].
  unfold bind at 1, read at 1. rewrite Hs, Hnil.
  cbn [coalesce_docs]. unfold bind at 1, ret at 1. cbn [fst length Nat.ltb Nat.leb].
  unfold ret at 1. unfold bind, read, assert, ret. rewrite Hs, Ht.
  by rewrite bool_decide_eq_true_2.
Qed.
End CoalescingRun.

(** ** The store coalescing leaves behind *)

Section LookupFacts.
Context {V : Type} (fill : V).
Implicit Types (fp : @H5File V) (w : World V).

(** A computation that only extends the log: what it returns does not
    depend on the log it starts from. *)
Local Abbreviation log_only m :=
  (forall l : list string,
      m l = (l ++ fst (m (@nil string)), snd (m (@nil string)))).

Lemma log_only_ret {A} (a : A) : log_only (ret a).
Proof. intros l. cbn. by rewrite app_nil_r. Qed.

Lemma log_only_raise {A} (e : exn) : log_only (raise (A:=A) e).
Proof. intros l. cbn. by rewrite app_nil_r. Qed.

Lemma log_only_lift {A} (r : result A) : log_only (lift r).
Proof. intros l. cbn. by rewrite app_nil_r. Qed.

Lemma log_only_warning (msg : string) : log_only (warning msg).
Proof. done. Qed.

Lemma log_only_bind {A B} (m : M (list string) A) (k : A -> M (list string) B) :
  log_only m -> (forall a, log_only (k a)) -> log_only (bind m k).
Proof.
  intros Hm Hk l. unfold bind. rewrite (Hm l).
  destruct (m []) as [l1 [a|e]]; cbn [fst snd]; [|done].
  rewrite (Hk a (l ++ l1)), (Hk a l1). cbn [fst snd]. by rewrite app_assoc.
Qed.

Lemma id_idxs_log mode fp id : log_only (id_idxs mode fp id).
Proof.
  unfold id_idxs.
  repeat first
    [ apply log_only_ret | apply log_only_raise | apply log_only_lift
    | apply log_only_warning
    | apply log_only_bind; [|intros ?]
    | match goal with
      | |- forall l, (if ?x then _ else _) l = _ => destruct x
      | |- forall l, (match ?x with _ => _ end) l = _ => destruct x
      end ].
Qed.

Lemma get_loop_log mode fp ids :
  forall rv gi c, log_only (get_loop fill mode fp ids rv gi c).
Proof.
  induction ids as [|id rest IH]; intros rv gi c; [apply log_only_ret|].
  cbn [get_loop].
  apply log_only_bind; [apply id_idxs_log | intros idxs].
  apply log_only_bind; [apply log_only_lift | intros d].
  apply log_only_bind; [apply log_only_lift | intros rows]. apply IH.
Qed.

Lemma _get_vectors_fp_log mode ids fp (l : list string) :
  snd (_get_vectors_fp fill mode ids fp l) = snd (_get_vectors_fp fill mode ids fp []).
Proof.
  assert (log_only (_get_vectors_fp fill mode ids fp)) as Hlog.
  { unfold _get_vectors_fp.
    apply log_only_bind; [apply get_loop_log | intros r].
    apply log_only_bind; [apply log_only_lift | intros vs]. apply log_only_ret. }
  by rewrite (Hlog l).
Qed.

(** A lookup reads one file: in two worlds that hold the same file at
    the path of the index it returns the same. *)
Lemma _get_vectors_same_file (self : OnDiskIndex) ids w1 w2 :
  fs w1 !! _index_file self = fs w2 !! _index_file self ->
  snd (_get_vectors fill self ids w1) = snd (_get_vectors fill self ids w2).
Proof.
  intros Hfile. destruct (fs w2 !! _index_file self) as [fp|] eqn:H2.
  - rewrite (_get_vectors_eq _ _ _ _ _ Hfile), (_get_vectors_eq _ _ _ _ _ H2).
    cbn [snd]. by rewrite _get_vectors_fp_log, (_get_vectors_fp_log _ _ _ (log w2)).
  - unfold _get_vectors, with_file_r. by rewrite Hfile, H2.
Qed.

(** A lookup changes no file. *)
Lemma _get_vectors_fs (self : OnDiskIndex) ids w :
  fs (fst (_get_vectors fill self ids w)) = fs w.
Proof.
  unfold _get_vectors, with_file_r.
  destruct (fs w !! _index_file self); [|done]. by destruct (_get_vectors_fp _ _ _ _ _).
Qed.

(** An append changes no file but its own. *)
Lemma _add_fs_other (self : OnDiskIndex) vecs (doc_ids psg_ids : list (option string))
    w path :
  path <> _index_file self ->
  fs (fst (_add fill self vecs doc_ids psg_ids w)) !! path = fs w !! path.
Proof.
  intros Hne. unfold _add, with_file_a. destruct (_add_fp _ _ _ _ _ _).
  cbn [fst fs]. by rewrite lookup_insert_ne.
Qed.

(** The vectors a document holds after an append that returns: those it
    held, followed by those of the batch given its id. *)
Lemma stored_after_add (self : OnDiskIndex) vecs (doc_ids psg_ids : list (option string))
    w fp d :
  fs w !! _index_file self = Some fp ->
  vectors fp = Some d ->
  store_ok fp ->
  (length (zip doc_ids psg_ids) <= length vecs)%nat ->
  snd (_add fill self vecs doc_ids psg_ids w) = Ok tt ->
  exists fp' d',
    fs (fst (_add fill self vecs doc_ids psg_ids w)) !! _index_file self = Some fp'
    /\ vectors fp' = Some d'
    /\ store_ok fp'
    /\ forall p, stored fill fp' p
                 = stored fill fp p ++ batch_rows_for vecs (zip doc_ids psg_ids) p.
Proof.
  intros Hfp Hd Hok Hlen Hrun.
  destruct (_add_ok_after fill _ _ _ _ _ _ _ Hfp Hd Hok Hlen Hrun)
    as (fp' & Hfp' & Hd' & Hok' & Hdoc & _).
  eexists _, _. split; [done|]. split; [done|]. split; [done|].
  intros p. unfold stored. rewrite Hd', Hd, Hdoc.
  assert (count_ok d) as Hc by (unfold store_ok in Hok; rewrite Hd in Hok; apply Hok).
  pose proof (rows_at_new_doc_offsets fill (_resize_min_val self) vecs d
                (zip doc_ids psg_ids) p Hc 0%nat) as Hrows.
  rewrite drop_0 in Hrows. specialize (Hrows ltac:(cbn; lia)).
  change (Z.of_nat 0) with 0 in Hrows.
  unfold rows_at in *. rewrite List.map_app, Hrows. f_equal.
  apply (rows_at_appended_old fill); [done|]. by apply store_ok_doc_offsets.
Qed.

Lemma zip_doc_pairs (ids : list string) :
  forall n : nat,
    length ids = n ->
    zip (List.map Some ids) (replicate n (@None string)) = doc_pairs ids.
Proof.
  induction ids as [|id rest IH]; intros n Hn; [by destruct n|].
  destruct n as [|n]; [done|]. cbn. f_equal. apply IH. by injection Hn.
Qed.

Lemma batch_rows_for_app (v1 v2 : list V) (p1 p2 : list (option string * option string))
    (p : list string) :
  length v1 = length p1 ->
  batch_rows_for (v1 ++ v2) (p1 ++ p2) p
  = batch_rows_for v1 p1 p ++ batch_rows_for v2 p2 p.
Proof.
  revert p1. induction v1 as [|v v1 IH]; intros [|[doc_id psg_id] p1] Hlen; try done.
  cbn [app batch_rows_for]. rewrite IH by (by injection Hlen).
  by rewrite app_assoc.
Qed.

Lemma batch_rows_for_replicate (v : list V) (id : string) (p : list string) :
  batch_rows_for v (doc_pairs (replicate (length v) id)) p
  = if bool_decide (h5_path id = p) then v else [].
Proof.
  induction v as [|x v IH]; [by case_bool_decide|].
  cbn [length replicate doc_pairs List.map batch_rows_for]. fold (doc_pairs (replicate (length v) id)).
  rewrite IH. by case_bool_decide.
Qed.

(** A store without document ids holds no vector for any plain id. *)
Lemma stored_no_doc_ids (self : OnDiskIndex) w fp (t : gset string) (id : string) :
  fs w !! _index_file self = Some fp ->
  snd (_get_doc_ids self w) = Ok t ->
  size t = 0%nat ->
  stored fill fp [id] = [].
Proof.
  intros Hfp Ht Hsz. unfold _get_doc_ids in Ht.
  rewrite (with_file_r_eq _ _ _ _ Hfp) in Ht. cbn in Ht. injection Ht as <-.
  apply size_empty_iff in Hsz.
  assert (id ∉ _get_doc_ids_fp fp) as Hid by (rewrite Hsz; set_solver).
  unfold _get_doc_ids_fp in Hid. rewrite get_ids_fp_elem in Hid.
  unfold stored, doc_offsets. rewrite mbind_lookup_default.
  destruct (default ∅ (ids_doc fp) !! [id]); [by destruct Hid|].
  by destruct (vectors fp).
Qed.
End LookupFacts.

Section LookupCompose.
Context {V : Type} (fill : V).
Implicit Types (fp : @H5File V) (w : World V).

Lemma read_rows_length (d : @Dataset V) idxs rows :
  read_rows fill d idxs = Ok rows -> length rows = length idxs.
Proof.
  unfold read_rows. destruct (negb _); [done|]. destruct (forallb _ _); [|done].
  intros [= <-]. by rewrite length_map.
Qed.

Lemma concat_group_ranges (lens : list nat) :
  forall c, concat (group_ranges c lens) = List.seq c (sum_list lens).
Proof.
  induction lens as [|n lens IH]; intros c; [done|].
  cbn [group_ranges concat sum_list sum_list_with]. rewrite IH.
  by rewrite <- List.seq_app.
Qed.

(** The loop of a lookup treats its ids one by one: what it adds to its
    lists for an id is what a lookup of that id alone returns. *)
Lemma get_loop_per_id mode fp ids :
  forall rv gi c l l' rv' gi',
    get_loop fill mode fp ids rv gi c l = (l', Ok (rv', gi')) ->
    exists per_id,
      Forall2 (fun id v => snd (_get_vectors_fp fill mode [id] fp [])
                           = Ok (v, [List.seq 0 (length v)])) ids per_id
      /\ rv' = rv ++ per_id
      /\ gi' = gi ++ group_ranges c (List.map (@length V) per_id).
Proof.
  induction ids as [|id rest IH]; intros rv gi c l l' rv' gi' Hrun.
  - injection Hrun as <- <- <-. exists []. split; [constructor|].
    cbn. by rewrite !app_nil_r.
  - cbn [get_loop] in Hrun. unfold bind at 1 in Hrun.
    rewrite (id_idxs_log mode fp id l) in Hrun.
    destruct (id_idxs mode fp id []) as [l1 [idxs|e]] eqn:Hidx; [|done].
    cbn [fst snd] in Hrun. unfold bind at 1, lift at 1 in Hrun.
    destruct (vectors fp) as [d|] eqn:Hd; [|done].
    unfold bind at 1, lift at 1 in Hrun.
    destruct (read_rows fill d idxs) as [rows|e] eqn:Hrows; [|done].
    apply IH in Hrun as (per_id & Hall & -> & ->).
    pose proof (read_rows_length _ _ _ Hrows) as Hlen.
    exists (rows :: per_id). split; [|split].
    + constructor; [|done].
      unfold _get_vectors_fp. cbn [get_loop]. unfold bind, lift, ret.
      rewrite Hidx, Hd, Hrows. cbn [fst snd app np_concatenate concat].
      by rewrite app_nil_r, Hlen.
    + by rewrite <- app_assoc.
    + cbn [List.map group_ranges]. rewrite <- app_assoc, Hlen. done.
Qed.

(** X22.  A lookup that returns answers id by id.  On a store that keeps
    the invariant, asked for identifiers that are relative link paths,
    in any mode: it was asked for at least one id; a lookup of each id
    alone returns too, with its vectors as one group; the vectors returned
    are those of the single lookups, joined in request order; and the
    groups are consecutive ranges of positions, one per id, that together
    are the positions [0 .. len(vectors) - 1]. *)
Theorem get_vectors_answers_id_by_id (self : OnDiskIndex) ids w fp vs groups :
  fs w !! _index_file self = Some fp ->
  store_ok fp ->
  forallb h5_relative ids = true ->
  snd (_get_vectors fill self ids w) = Ok (vs, groups) ->
  ids <> []
  /\ exists per_id : list (list V),
      Forall2 (fun id v => snd (_get_vectors fill self [id] w)
                           = Ok (v, [List.seq 0 (length v)])) ids per_id
      /\ vs = concat per_id
      /\ groups = group_ranges 0 (List.map (@length V) per_id)
      /\ length groups = length ids
      /\ concat groups = List.seq 0 (length vs).
Proof.
  intros Hfp _ _ Hrun.
  rewrite (_get_vectors_eq _ _ _ _ _ Hfp) in Hrun. cbn [snd] in Hrun.
  unfold _get_vectors_fp in Hrun. unfold bind at 1 in Hrun.
  destruct (get_loop fill (mode self) fp ids [] [] 0%nat (log w))
    as [l' [[rv gi]|e]] eqn:Hloop; [|done].
  apply get_loop_per_id in Hloop as (per_id & Hall & -> & ->).
  cbn [fst snd app] in Hrun. unfold bind, lift, ret, np_concatenate in Hrun.
  assert (length (group_ranges 0 (List.map (@length V) per_id)) = length ids) as Hlen.
  { apply Forall2_length in Hall. rewrite Hall. clear.
    generalize 0%nat. induction per_id as [|r rs IH]; intros c; [done|].
    cbn [List.map group_ranges length]. by rewrite IH. }
  assert (concat (group_ranges 0 (List.map (@length V) per_id))
          = List.seq 0 (length (concat per_id))) as Hcat.
  { rewrite concat_group_ranges. f_equal. clear.
    induction per_id as [|r rs IH]; [done|].
    cbn [List.map sum_list sum_list_with concat]. rewrite length_app. by rewrite IH. }
  split.
  { intros ->. apply Forall2_nil_inv_l in Hall as ->. done. }
  destruct per_id as [|v0 per_id]; [done|]. injection Hrun as <- <-.
  exists (v0 :: per_id). split; [|split; [done|split; [done|split]]].
  - eapply Forall2_impl; [exact Hall|]. intros id v Hone. cbn beta in Hone |- *.
    rewrite (_get_vectors_eq _ _ _ _ _ Hfp). cbn [snd].
    by rewrite _get_vectors_fp_log.
  - exact Hlen.
  - exact Hcat.
Qed.
End LookupCompose.

Section CoalescedStore.
Context {V D : Type} (fill : V).
Context (np_mean : list V -> V) (np_empty : V).
Context (distance_function : V -> V -> D) (ge : D -> D -> bool) (delta : D).
Context (set_iter : gset string -> list string).
Context (source_index target_index : OnDiskIndex).
Implicit Types (fp : @H5File V) (w : World V).

Local Abbreviation squeeze := (_coalesce np_mean np_empty distance_function ge delta).
Local Abbreviation disk_loop :=
  (coalesce_docs np_mean np_empty distance_function ge delta
     (_get_vectors fill) (ondisk_add fill) source_index target_index).
Local Abbreviation squeezed :=
  (coalesced_for fill np_mean np_empty distance_function ge delta source_index).

(** The loop over the documents, between two files: what the target
    holds and what is pending, together, grow by the coalesced vectors of
    each document. *)
Lemma coalesce_docs_stored (w0 : World V) (bs : Z) (ids : list string) :
  _index_file source_index <> _index_file target_index ->
  forall acc_v acc_d w w' v d fp dt,
    fs w !! _index_file source_index = fs w0 !! _index_file source_index ->
    fs w !! _index_file target_index = Some fp ->
    vectors fp = Some dt ->
    store_ok fp ->
    length acc_v = length acc_d ->
    disk_loop bs ids acc_v acc_d w = (w', Ok (v, d)) ->
    exists fp' dt',
      fs w' !! _index_file target_index = Some fp'
      /\ vectors fp' = Some dt'
      /\ store_ok fp'
      /\ length v = length d
      /\ Forall (fun id => is_ok (snd (_get_vectors fill source_index [id] w0)) = true) ids
      /\ forall p, stored fill fp' p ++ batch_rows_for v (doc_pairs d) p
                   = stored fill fp p ++ batch_rows_for acc_v (doc_pairs acc_d) p
                     ++ squeezed w0 ids p.
Proof.
  intros Hne.
  induction ids as [|doc_id rest IH]; intros acc_v acc_d w w' v d fp dt
    Hsrc Hfp Hdt Hok Hacc Hrun.
  - injection Hrun as <- <- <-. exists fp, dt.
    do 4 (split; [done|]). split; [by constructor|]. intros p. unfold coalesced_for.
    cbn [List.map concat]. by rewrite app_nil_r.
  - cbn [coalesce_docs] in Hrun. unfold bind at 1 in Hrun.
    destruct ((if Z.of_nat (length acc_v) =? bs
               then (ondisk_add fill target_index acc_v acc_d;;; ret ([], []))%M
               else ret (acc_v, acc_d)) w) as [w1 [acc|e]] eqn:Hflush; [|done].
    assert (fs w1 !! _index_file source_index = fs w0 !! _index_file source_index
            /\ exists fp1 dt1,
                fs w1 !! _index_file target_index = Some fp1
                /\ vectors fp1 = Some dt1
                /\ store_ok fp1
                /\ length (fst acc) = length (snd acc)
                /\ forall p, stored fill fp1 p
                             ++ batch_rows_for (fst acc) (doc_pairs (snd acc)) p
                             = stored fill fp p
                               ++ batch_rows_for acc_v (doc_pairs acc_d) p)
      as (Hsrc1 & fp1 & dt1 & Hfp1 & Hdt1 & Hok1 & Hacc1 & Hst1).
    { destruct (Z.of_nat (length acc_v) =? bs).
      - unfold bind, ondisk_add, ret in Hflush.
        destruct (_add fill target_index acc_v (List.map Some acc_d)
                    (replicate (length acc_v) None) w) as [w1' [[]|e]] eqn:Hadd;
          [|done].
        injection Hflush as <- <-.
        assert (w1' = fst (_add fill target_index acc_v (List.map Some acc_d)
                             (replicate (length acc_v) None) w)) as ->
          by (by rewrite Hadd).
        split.
        { rewrite _add_fs_other by done. done. }
        destruct (stored_after_add fill target_index acc_v (List.map Some acc_d)
                    (replicate (length acc_v) None) w fp dt Hfp Hdt Hok)
          as (fp1 & dt1 & Hfp1 & Hdt1 & Hok1 & Hst).
        { rewrite length_zip, length_replicate. lia. }
        { by rewrite Hadd. }
        exists fp1, dt1. repeat (split; [done|]). intros p.
        rewrite Hst, zip_doc_pairs by done. cbn. by rewrite app_nil_r.
      - injection Hflush as <- <-. split; [done|]. by exists fp, dt. }
    clear Hflush. unfold bind at 1 in Hrun.
    destruct (_get_vectors fill source_index [doc_id] w1) as [w2 [r|e]] eqn:Hget;
      [|done].
    assert (snd (_get_vectors fill source_index [doc_id] w0) = Ok r) as Hr0.
    { rewrite <- (_get_vectors_same_file fill source_index [doc_id] w1 w0 Hsrc1).
      by rewrite Hget. }
    assert (fs w2 = fs w1) as Hfs2.
    { pose proof (_get_vectors_fs fill source_index [doc_id] w1) as Hfs.
      by rewrite Hget in Hfs. }
    apply (IH _ _ _ _ _ _ fp1 dt1) in Hrun
      as (fp' & dt' & Hfp' & Hdt' & Hok' & Hlen & Hall & Hst); try done.
    2:{ by rewrite Hfs2. }
    2:{ by rewrite Hfs2. }
    2:{ rewrite !length_app, length_replicate. lia. }
    exists fp', dt'. repeat (split; [done|]). split.
    { constructor; [by rewrite Hr0 | done]. }
    intros p. rewrite Hst. unfold doc_pairs at 1. rewrite List.map_app.
    fold (doc_pairs (snd acc)).
    fold (doc_pairs (replicate (length (squeeze (fst r))) doc_id)).
    rewrite batch_rows_for_app by (unfold doc_pairs; rewrite length_map; done).
    rewrite batch_rows_for_replicate.
    rewrite <- (app_assoc (batch_rows_for _ _ _)).
    rewrite app_assoc, Hst1, <- !app_assoc. do 2 f_equal.
    unfold coalesced_for. cbn [List.map concat]. f_equal.
    unfold source_vectors. by rewrite Hr0.
Qed.

Lemma coalesced_for_one (w : World V) (ids : list string) (id : string) :
  NoDup ids ->
  id ∈ ids ->
  (forall x, x ∈ ids -> h5_path x = [x]) ->
  squeezed w ids (h5_path id) = squeeze (source_vectors fill source_index w id).
Proof.
  intros Hnd Hin Hplain.
  assert (forall l, id ∉ l -> (forall x, x ∈ l -> h5_path x = [x]) ->
                    squeezed w l (h5_path id) = []) as Hnone.
  { induction l as [|x l IHl]; intros Hx Hp; [done|].
    unfold coalesced_for. cbn [List.map concat].
    rewrite bool_decide_eq_false_2.
    - apply IHl; [set_solver|]. intros y Hy. apply Hp. set_solver.
    - rewrite (Hp x), (Hplain id) by (done || set_solver). intros [= ->].
      set_solver. }
  induction Hnd as [|x l Hx Hnd IH]; [set_solver|].
  unfold coalesced_for. cbn [List.map concat].
  apply elem_of_cons in Hin as [<-|Hin].
  - rewrite bool_decide_eq_true_2 by done.
    fold (squeezed w l (h5_path id)).
    rewrite Hnone; [by rewrite app_nil_r | done |].
    intros y Hy. apply Hplain. set_solver.
  - rewrite bool_decide_eq_false_2.
    + apply IH; [done|]. intros y Hy. apply Hplain. set_solver.
    + rewrite (Hplain x), (Hplain id) by set_solver. intros [= ->]. done.
Qed.

End CoalescedStore.

(** ** The tokenizer inputs *)

Section TokenizerInputs.

Lemma string_length_app (s1 s2 : string) :
  String.length (s1 +:+ s2) = (String.length s1 + String.length s2)%nat.
Proof.
  induction s1 as [|c s1 IH]; [done|].
  change (String c s1 +:+ s2) with (String c (s1 +:+ s2)).
  cbn [String.length Nat.add]. by rewrite IH.
Qed.

Lemma string_app_inv_tail (m s1 s2 : string) : s1 +:+ m = s2 +:+ m -> s1 = s2.
Proof.
  revert s2. induction s1 as [|c s1 IH]; intros [|c' s2] Heq.
  - done.
  - apply (f_equal String.length) in Heq.
    rewrite !string_length_app in Heq. cbn [String.length] in Heq. lia.
  - apply (f_equal String.length) in Heq.
    rewrite !string_length_app in Heq. cbn [String.length] in Heq. lia.
  - change (String c (s1 +:+ m) = String c' (s2 +:+ m)) in Heq.
    injection Heq as -> Heq. f_equal. by apply IH.
Qed.

Lemma string_length_repeat (s : string) (n : nat) :
  String.length (str_repeat s n) = (n * String.length s)%nat.
Proof.
  induction n as [|n IH]; [done|]. cbn [str_repeat].
  rewrite string_length_app, IH. lia.
Qed.

Lemma map_inj_iff {A B} (f : A -> B) (l1 l2 : list A) :
  (forall x y, f x = f y -> x = y) ->
  List.map f l1 = List.map f l2 <-> l1 = l2.
Proof.
  intros Hf. split; [|by intros ->].
  revert l2. induction l1 as [|x l1 IH]; intros [|y l2] Heq; try done.
  injection Heq as Hxy Heq. f_equal; [by apply Hf | by apply IH].
Qed.

(** X21.  The markers and the mask padding the TCT-ColBERT encoders put around
    a text lose nothing of it: two lists of texts get the same tokenizer
    inputs only when they are the same list, for queries and for
    documents.  A query of [n] characters becomes an input of
    [10 + n + 6 * max_length] characters ([10 + n] when [max_length] is
    not positive), however long the query is. *)
Theorem tokenizer_inputs_lose_nothing
    (self : TCTColBERTQueryEncoder.t) (texts1 texts2 : list string) :
  (TCTColBERTQueryEncoder._get_tokenizer_inputs self texts1
   = TCTColBERTQueryEncoder._get_tokenizer_inputs self texts2
   <-> texts1 = texts2)
  /\ (TCTColBERTDocumentEncoder._get_tokenizer_inputs texts1
      = TCTColBERTDocumentEncoder._get_tokenizer_inputs texts2
      <-> texts1 = texts2)
  /\ List.map String.length (TCTColBERTQueryEncoder._get_tokenizer_inputs self texts1)
     = List.map (fun q => (10 + String.length q
                           + 6 * Z.to_nat (TCTColBERTQueryEncoder._max_length self))%nat)
                texts1.
Proof.
  split; [|split].
  - apply map_inj_iff. intros x y Heq.
    apply string_app_inv_tail in Heq. by apply (inj (String.append _)) in Heq.
  - apply map_inj_iff. intros x y Heq. by apply (inj (String.append _)) in Heq.
  - unfold TCTColBERTQueryEncoder._get_tokenizer_inputs. rewrite List.map_map.
    apply List.map_ext. intros q.
    rewrite !string_length_app. unfold str_mul. rewrite string_length_repeat.
    cbn [String.length]. lia.
Qed.
End TokenizerInputs.

(** ** The further statements at concrete stores and runs *)

Lemma add_appends_doc_offsets_in_order_witness :
  snd (_add 0 ix more_vectors more_doc_ids more_psg_ids world2) = Ok tt
  /\ exists fp',
      file_at world3 ix = Some fp'
      /\ doc_offsets fp' ["d1"] = [0; 1]
      /\ doc_offsets fp' ["d2"] = [2; 3]
      /\ doc_offsets fp' ["d3"] = [4].
Proof.
  assert (snd (_add 0 ix more_vectors more_doc_ids more_psg_ids world2) = Ok tt) as Hrun
    by (vm_compute; reflexivity).
  split; [exact Hrun|].
  destruct (add_appends_doc_offsets_in_order 0 ix more_vectors more_doc_ids
              more_psg_ids world2 Hrun) as (fp & d & fp' & Hfp & Hd & Hfp' & Hoff).
  exists fp'. split; [exact Hfp'|].
  vm_compute in Hfp. injection Hfp as <-. vm_compute in Hd. injection Hd as <-.
  rewrite !Hoff. repeat split; vm_compute; reflexivity.
Defined.

Lemma add_overwrites_psg_offset_witness :
  snd (_add 0 ix more_vectors more_doc_ids more_psg_ids world2) = Ok tt
  /\ exists fp',
      file_at world3 ix = Some fp'
      /\ psg_offset (file_of world2 "/index.h5") ["p1"] = Some 0
      /\ psg_offset fp' ["p1"] = Some 3
      /\ psg_offset fp' ["p2"] = Some 2.
Proof.
  assert (snd (_add 0 ix more_vectors more_doc_ids more_psg_ids world2) = Ok tt) as Hrun
    by (vm_compute; reflexivity).
  split; [exact Hrun|].
  destruct (add_overwrites_psg_offset 0 ix more_vectors more_doc_ids
              more_psg_ids world2 Hrun) as (fp & d & fp' & Hfp & Hd & Hfp' & Hoff).
  exists fp'. split; [exact Hfp'|]. split; [vm_compute; reflexivity|].
  vm_compute in Hfp. injection Hfp as <-. vm_compute in Hd. injection Hd as <-.
  rewrite !Hoff. split; vm_compute; reflexivity.
Defined.

Lemma add_never_forgets_ids_witness :
  snd (_get_doc_ids ix nested_world) = Ok {["a"]}
  /\ snd (_get_psg_ids ix nested_world) = Ok ∅
  /\ snd (_add 0 ix failing_vectors failing_doc_ids failing_psg_ids nested_world)
     = Raise TypeError
  /\ exists D' P',
      snd (_get_doc_ids ix
             (fst (_add 0 ix failing_vectors failing_doc_ids failing_psg_ids
                     nested_world))) = Ok D'
      /\ snd (_get_psg_ids ix
                (fst (_add 0 ix failing_vectors failing_doc_ids failing_psg_ids
                        nested_world))) = Ok P'
      /\ {["a"]} ⊆ D' /\ ∅ ⊆ P'.
Proof.
  assert (snd (_get_doc_ids ix nested_world) = Ok {["a"]}) as HD
    by (vm_compute; reflexivity).
  assert (snd (_get_psg_ids ix nested_world) = Ok ∅) as HP
    by (vm_compute; reflexivity).
  split; [exact HD|]. split; [exact HP|]. split; [vm_compute; reflexivity|].
  exact (add_never_forgets_ids 0 ix failing_vectors failing_doc_ids failing_psg_ids
           nested_world _ _ HD HP).
Defined.

Lemma add_records_the_ids_of_the_batch_witness :
  snd (_add 0 ix more_vectors more_doc_ids more_psg_ids world2) = Ok tt
  /\ exists D' P',
      snd (_get_doc_ids ix world3) = Ok D'
      /\ snd (_get_psg_ids ix world3) = Ok P'
      /\ "d3" ∈ D' /\ "p1" ∈ P'.
Proof.
  assert (snd (_add 0 ix more_vectors more_doc_ids more_psg_ids world2) = Ok tt) as Hrun
    by (vm_compute; reflexivity).
  split; [exact Hrun|].
  destruct (add_records_the_ids_of_the_batch 0 ix more_vectors more_doc_ids
              more_psg_ids world2 Hrun) as (D' & P' & HD & HP & Hdoc & Hpsg).
  exists D', P'. split; [exact HD|]. split; [exact HP|]. split.
  - apply Hdoc; [simpl; tauto | vm_compute; reflexivity].
  - apply Hpsg; [simpl; tauto | vm_compute; reflexivity].
Defined.

Lemma add_then_get_vectors_of_a_document_witness :
  fs world2 !! "/index.h5" = Some (file_of world2 "/index.h5")
  /\ vectors (file_of world2 "/index.h5") = Some (vectors_of world2 "/index.h5")
  /\ store_ok (file_of world2 "/index.h5")
  /\ snd (_add 0 ix more_vectors more_doc_ids more_psg_ids world2) = Ok tt
  /\ snd (_get_vectors 0 ix ["d2"] world2) = Ok ([12], [[0%nat]])
  /\ snd (_get_vectors 0 ix ["d2"] world3) = Ok ([12; 13], [[0; 1]%nat]).
Proof.
  assert (fs world2 !! "/index.h5" = Some (file_of world2 "/index.h5")) as Hfp
    by (vm_compute; reflexivity).
  assert (vectors (file_of world2 "/index.h5")
          = Some (vectors_of world2 "/index.h5")) as Hd by (vm_compute; reflexivity).
  assert (store_ok (file_of world2 "/index.h5")) as Hok
    by (apply (bool_decide_eq_true_1 (store_ok _)); vm_compute; reflexivity).
  assert (snd (_add 0 ix more_vectors more_doc_ids more_psg_ids world2) = Ok tt) as Hrun
    by (vm_compute; reflexivity).
  repeat (split; [assumption|]). split; [vm_compute; reflexivity|].
  destruct (add_then_get_vectors_of_a_document 0 ix more_vectors more_doc_ids
              more_psg_ids world2 _ _ "d2" Hfp Hd Hok)
    as (vs & Hvs & Hget).
  - vm_compute; reflexivity.
  - simpl; lia.
  - exact Hrun.
  - vm_compute; reflexivity.
  - simpl; tauto.
  - unfold world3. rewrite Hget, Hvs. vm_compute. reflexivity.
Defined.

Lemma add_keeps_the_first_passage_witness :
  fs world2 !! "/index.h5" = Some (file_of world2 "/index.h5")
  /\ vectors (file_of world2 "/index.h5") = Some (vectors_of world2 "/index.h5")
  /\ store_ok (file_of world2 "/index.h5")
  /\ snd (_add 0 (with_mode FIRSTP) more_vectors more_doc_ids more_psg_ids world2)
     = Ok tt
  /\ doc_offsets (file_of world2 "/index.h5") (h5_path "d2") <> []
  /\ snd (_get_vectors 0 (with_mode FIRSTP) ["d2"]
            (fst (_add 0 (with_mode FIRSTP) more_vectors more_doc_ids more_psg_ids
                    world2)))
     = snd (_get_vectors 0 (with_mode FIRSTP) ["d2"] world2)
  /\ exists v, snd (_get_vectors 0 (with_mode FIRSTP) ["d2"] world2)
               = Ok ([v], [[0%nat]]).
Proof.
  assert (fs world2 !! "/index.h5" = Some (file_of world2 "/index.h5")) as Hfp
    by (vm_compute; reflexivity).
  assert (vectors (file_of world2 "/index.h5")
          = Some (vectors_of world2 "/index.h5")) as Hd by (vm_compute; reflexivity).
  assert (store_ok (file_of world2 "/index.h5")) as Hok
    by (apply (bool_decide_eq_true_1 (store_ok _)); vm_compute; reflexivity).
  assert (snd (_add 0 (with_mode FIRSTP) more_vectors more_doc_ids more_psg_ids world2)
          = Ok tt) as Hrun by (vm_compute; reflexivity).
  assert (doc_offsets (file_of world2 "/index.h5") (h5_path "d2") <> []) as Hne
    by (vm_compute; discriminate).
  repeat (split; [assumption|]).
  apply (add_keeps_the_first_passage 0 (with_mode FIRSTP) more_vectors more_doc_ids
           more_psg_ids world2 _ _ "d2" Hfp Hd Hok).
  - reflexivity.
  - exact Hrun.
  - vm_compute; reflexivity.
  - exact Hne.
Defined.

Lemma add_then_get_vectors_of_a_passage_witness :
  fs world2 !! "/index.h5" = Some (file_of world2 "/index.h5")
  /\ vectors (file_of world2 "/index.h5") = Some (vectors_of world2 "/index.h5")
  /\ store_ok (file_of world2 "/index.h5")
  /\ snd (_add 0 (with_mode PASSAGE) more_vectors more_doc_ids more_psg_ids world2)
     = Ok tt
  /\ last_row_for more_vectors (zip more_doc_ids more_psg_ids) (h5_path "p1") = Some 13
  /\ snd (_get_vectors 0 (with_mode PASSAGE) ["p1"] world2) = Ok ([10], [[0%nat]])
  /\ snd (_get_vectors 0 (with_mode PASSAGE) ["p1"]
            (fst (_add 0 (with_mode PASSAGE) more_vectors more_doc_ids more_psg_ids
                    world2)))
     = Ok ([13], [[0%nat]]).
Proof.
  assert (fs world2 !! "/index.h5" = Some (file_of world2 "/index.h5")) as Hfp
    by (vm_compute; reflexivity).
  assert (vectors (file_of world2 "/index.h5")
          = Some (vectors_of world2 "/index.h5")) as Hd by (vm_compute; reflexivity).
  assert (store_ok (file_of world2 "/index.h5")) as Hok
    by (apply (bool_decide_eq_true_1 (store_ok _)); vm_compute; reflexivity).
  assert (snd (_add 0 (with_mode PASSAGE) more_vectors more_doc_ids more_psg_ids world2)
          = Ok tt) as Hrun by (vm_compute; reflexivity).
  assert (last_row_for more_vectors (zip more_doc_ids more_psg_ids) (h5_path "p1")
          = Some 13) as Hlast by (vm_compute; reflexivity).
  repeat (split; [assumption|]). split; [vm_compute; reflexivity|].
  apply (add_then_get_vectors_of_a_passage 0 (with_mode PASSAGE) more_vectors
           more_doc_ids more_psg_ids world2 _ _ "p1" 13 Hfp Hd Hok).
  - reflexivity.
  - simpl; lia.
  - exact Hrun.
  - vm_compute; reflexivity.
  - exact Hlast.
Defined.

Lemma init_refuses_an_existing_file_witness :
  fs world1 !! "/index.h5" = Some (file_of world1 "/index.h5")
  /\ __init__ 0 version "/index.h5" 8 PASSAGE 16 4 false world1
     = (world1, Raise ValueError).
Proof.
  assert (fs world1 !! "/index.h5" = Some (file_of world1 "/index.h5")) as Hfp
    by (vm_compute; reflexivity).
  split; [exact Hfp|].
  exact (init_refuses_an_existing_file 0 version world1 "/index.h5" 8 PASSAGE 16 4 _ Hfp).
Defined.

Lemma init_makes_an_empty_store_witness :
  snd (__len__ ix table_world) = Ok 10
  /\ snd (__init__ 0 version "/index.h5" 1 MAXP 4 2 true table_world) = Ok ix
  /\ let w := fst (__init__ 0 version "/index.h5" 1 MAXP 4 2 true table_world) in
     snd (__len__ ix w) = Ok 0
     /\ snd (dim ix w) = Ok 1
     /\ (exists d, dataset_of w ix = Some d /\ capacity d = 4)
     /\ snd (_get_doc_ids ix w) = Ok ∅
     /\ snd (_get_psg_ids ix w) = Ok ∅.
Proof.
  split; [vm_compute; reflexivity|].
  assert (snd (__init__ 0 version "/index.h5" 1 MAXP 4 2 true table_world) = Ok ix)
    as Hinit by (vm_compute; reflexivity).
  split; [exact Hinit|].
  exact (init_makes_an_empty_store 0 version table_world "/index.h5" 1 MAXP 4 2 true
           ix Hinit).
Defined.

Lemma dim_is_fixed_witness :
  dataset_of world1 ix = Some (vectors_of world1 "/index.h5")
  /\ count_ok (vectors_of world1 "/index.h5")
  /\ snd (dim ix (fst (add_batches 0 ix batches world1))) = Ok 1.
Proof.
  assert (dataset_of world1 ix = Some (vectors_of world1 "/index.h5")) as Hd
    by (vm_compute; reflexivity).
  assert (count_ok (vectors_of world1 "/index.h5")) as Hok
    by (vm_compute; split; discriminate).
  split; [exact Hd|]. split; [exact Hok|].
  exact (dim_is_fixed 0 ix batches world1 _ Hd Hok).
Defined.

Lemma add_of_nothing_changes_nothing_witness :
  dataset_of world2 ix = Some (vectors_of world2 "/index.h5")
  /\ count_ok (vectors_of world2 "/index.h5")
  /\ _add 0 ix [] [] [] world2 = (world2, Ok tt).
Proof.
  assert (dataset_of world2 ix = Some (vectors_of world2 "/index.h5")) as Hd
    by (vm_compute; reflexivity).
  assert (count_ok (vectors_of world2 "/index.h5")) as Hok
    by (vm_compute; split; discriminate).
  split; [exact Hd|]. split; [exact Hok|].
  exact (add_of_nothing_changes_nothing 0 ix world2 _ Hd Hok).
Defined.

Lemma add_grows_only_when_it_must_witness :
  dataset_of world1 ix = Some (vectors_of world1 "/index.h5")
  /\ count_ok (vectors_of world1 "/index.h5")
  /\ exists d',
      dataset_of world2 ix = Some d'
      /\ capacity d' = 4
      /\ data d' !! 3%nat = Some 0.
Proof.
  assert (dataset_of world1 ix = Some (vectors_of world1 "/index.h5")) as Hd
    by (vm_compute; reflexivity).
  assert (count_ok (vectors_of world1 "/index.h5")) as Hok
    by (vm_compute; split; discriminate).
  split; [exact Hd|]. split; [exact Hok|].
  destruct (add_grows_only_when_it_must 0 ix world1 _ first_vectors first_doc_ids
              first_psg_ids Hd Hok) as (d' & Hd' & _ & Hfit).
  destruct Hfit as [Hcap Hrest]; [vm_compute; discriminate|].
  exists d'. split; [exact Hd'|]. split; [exact Hcap|].
  rewrite (Hrest 3%nat) by (vm_compute; lia). vm_compute. reflexivity.
Defined.

Lemma stores_keep_the_invariant_witness :
  snd (__init__ 0 version "/index.h5" 1 MAXP 4 2 false world0) = Ok ix
  /\ exists fp,
      fs (fst (add_batches 0 ix batches world1)) !! "/index.h5" = Some fp
      /\ store_ok fp.
Proof.
  assert (snd (__init__ 0 version "/index.h5" 1 MAXP 4 2 false world0) = Ok ix)
    as Hinit by (vm_compute; reflexivity).
  split; [exact Hinit|].
  apply (stores_keep_the_invariant 0 version world0 "/index.h5" 1 MAXP 4 2 false ix
           batches Hinit).
  repeat constructor; simpl; lia.
Defined.

Lemma coalesce_keeps_every_vector_iff_witness :
  each_far_from_previous q_mean q_dist q_ge 1%Q 0%Q [5; 9]%Q = true
  /\ _coalesce q_mean 0%Q q_dist q_ge 1%Q [0; 5; 9]%Q
     = List.map (fun x => q_mean [x]) [0; 5; 9]%Q.
Proof.
  assert (each_far_from_previous q_mean q_dist q_ge 1%Q 0%Q [5; 9]%Q = true) as Hfar
    by (vm_compute; reflexivity).
  split; [exact Hfar|].
  exact (proj2 (coalesce_keeps_every_vector_iff q_mean 0%Q q_dist q_ge 1%Q
                  0%Q [5; 9]%Q) Hfar).
Defined.

Lemma coalesce_gives_one_vector_iff_witness :
  all_near_running_mean q_mean q_dist q_ge 1%Q [0%Q] [1 # 2; 1 # 4]%Q = true
  /\ _coalesce q_mean 0%Q q_dist q_ge 1%Q [0; 1 # 2; 1 # 4]%Q
     = [q_mean [0; 1 # 2; 1 # 4]%Q].
Proof.
  assert (all_near_running_mean q_mean q_dist q_ge 1%Q [0%Q] [1 # 2; 1 # 4]%Q = true)
    as Hnear by (vm_compute; reflexivity).
  split; [exact Hnear|].
  exact (proj2 (coalesce_gives_one_vector_iff q_mean 0%Q q_dist q_ge 1%Q
                  0%Q [1 # 2; 1 # 4]%Q) Hnear).
Defined.

Lemma coalescing_writes_whole_batches_witness :
  ondisk_doc_ids source qworld3 = Ok {["d1"; "d2"; "d3"]}
  /\ flush_sizes (fst (coalesce_recorded (Some 4) (qworld3, []))) = [4; 2]%nat
  /\ exists ev last,
      snd (fst (coalesce_recorded (Some 4) (qworld3, []))) = ev ++ last
      /\ Forall (fun b => Z.of_nat (length (fst b))
                          = batch_size_in_force (Some 4) {["d1"; "d2"; "d3"]}
                          /\ length (fst b) = length (snd b)) (flushes ev)
      /\ (last = [] \/ exists v d, last = [Flush v d] /\ v <> [] /\ length v = length d).
Proof.
  assert (ondisk_doc_ids source qworld3 = Ok {["d1"; "d2"; "d3"]}) as Hs
    by (vm_compute; reflexivity).
  split; [exact Hs|]. split; [vm_compute; reflexivity|].
  exact (coalescing_writes_whole_batches q_mean 0%Q q_dist q_ge 1%Q
           ondisk_doc_ids (_get_vectors 0%Q) (ondisk_add 0%Q) elements
           source target (Some 4) qworld3 _ _ _ Hs
           (surjective_pairing (coalesce_recorded (Some 4) (qworld3, [])))).
Defined.

Lemma overshoot_is_held_until_the_loop_ends_witness :
  1 < Z.of_nat (length [5; 6]%Q)
  /\ exists ev,
      snd (fst (loop_recorded 1 ["d1"; "d2"] [5; 6]%Q ["d0"; "d0"] (qworld, [])))
      = [] ++ ev
      /\ flushes ev = []
      /\ forall v d,
          snd (loop_recorded 1 ["d1"; "d2"] [5; 6]%Q ["d0"; "d0"] (qworld, []))
          = Ok (v, d) ->
          fetched ev = ["d1"; "d2"]
          /\ v = [5; 6]%Q
                 ++ concat (List.map fst (emitted q_mean 0%Q q_dist q_ge 1%Q ev))
          /\ d = ["d0"; "d0"]
                 ++ concat (List.map snd (emitted q_mean 0%Q q_dist q_ge 1%Q ev)).
Proof.
  assert (1 < Z.of_nat (length [5; 6]%Q)) as Hover by (simpl; lia).
  split; [exact Hover|].
  exact (overshoot_is_held_until_the_loop_ends q_mean 0%Q q_dist q_ge 1%Q
           (_get_vectors 0%Q) (ondisk_add 0%Q) source target 1 ["d1"; "d2"]
           [5; 6]%Q ["d0"; "d0"] (qworld, []) _ _ Hover
           (surjective_pairing
              (loop_recorded 1 ["d1"; "d2"] [5; 6]%Q ["d0"; "d0"] (qworld, [])))).
Defined.

Lemma nothing_to_coalesce_witness :
  (forall s : gset string, elements s ≡ₚ elements s)
  /\ ondisk_doc_ids source qworld_empty = Ok ∅
  /\ ondisk_doc_ids target qworld_empty = Ok ∅
  /\ coalesce_on_disk (Some 7) qworld_empty = (qworld_empty, Ok tt).
Proof.
  assert (forall s : gset string, elements s ≡ₚ elements s) as Hperm by reflexivity.
  assert (ondisk_doc_ids source qworld_empty = Ok ∅) as Hs by (vm_compute; reflexivity).
  assert (ondisk_doc_ids target qworld_empty = Ok ∅) as Ht by (vm_compute; reflexivity).
  repeat (split; [assumption|]).
  exact (nothing_to_coalesce q_mean 0%Q q_dist q_ge 1%Q
           ondisk_doc_ids (_get_vectors 0%Q) (ondisk_add 0%Q) elements
           source target (Some 7) qworld_empty Hperm Hs Ht).
Defined.



Lemma get_vectors_answers_id_by_id_witness :
  fs table_world !! "/index.h5" = Some (file_of table_world "/index.h5")
  /\ store_ok (file_of table_world "/index.h5")
  /\ forallb h5_relative ["doc"; "nope"; "other"] = true
  /\ snd (_get_vectors 0 (with_mode MAXP) ["doc"; "nope"; "other"] table_world)
     = Ok ([50; 60; 70; 0], [[0; 1; 2]%nat; []; [3%nat]])
  /\ exists per_id : list (list Z),
      Forall2 (fun id v => snd (_get_vectors 0 (with_mode MAXP) [id] table_world)
                           = Ok (v, [List.seq 0 (length v)]))
              ["doc"; "nope"; "other"] per_id
      /\ [50; 60; 70; 0] = concat per_id.
Proof.
  assert (fs table_world !! "/index.h5" = Some (file_of table_world "/index.h5")) as Hfp
    by (vm_compute; reflexivity).
  assert (store_ok (file_of table_world "/index.h5")) as Hok
    by (apply (bool_decide_eq_true_1 (store_ok _)); vm_compute; reflexivity).
  assert (forallb h5_relative ["doc"; "nope"; "other"] = true) as Hrel
    by (vm_compute; reflexivity).
  assert (snd (_get_vectors 0 (with_mode MAXP) ["doc"; "nope"; "other"] table_world)
          = Ok ([50; 60; 70; 0], [[0; 1; 2]%nat; []; [3%nat]])) as Hrun
    by (vm_compute; reflexivity).
  repeat (split; [assumption|]).
  destruct (get_vectors_answers_id_by_id 0 (with_mode MAXP) _ table_world _ _ _
              Hfp Hok Hrel Hrun)
    as (_ & per_id & Hall & Hvs & _).
  exists per_id. split; [exact Hall | exact Hvs].
Defined.
